(** * Void Drifter: client/server synchronisation core

    A shallow embedding of the networking core of the Void Drifter
    teaching game: the packed wire protocol ([protocol.h]), the
    partial-write loop of [net_send_all] ([network.c]), the authoritative
    tick server ([server.c]) and the mutex-guarded bridge between the
    network thread and the render loop ([shared_state.c]).

    Conventions of the embedding.
    - C integers are [Z]; a store into a narrower unsigned field wraps with
      [Z.modulo] where the source relies on it ([u8], [u16], [u32]).
    - [float] is IEEE-754 binary32, computed with the specification floats
      of the standard library at precision 24 and exponent bound 128
      (round to nearest even, one rounding per operation).
    - Fixed C arrays are lists read with [!!] and written with [<[i:=x]>];
      the loops run over the index range of the source.
    - System calls are not executed: every operation receives the results
      of the calls it makes as an argument and returns, next to the new
      state, the list of externally visible actions it performed. *)

From Stdlib Require Import ZArith Lia Bool List String.
From Stdlib Require Import Floats.SpecFloat.
From stdpp Require Import base list.

Local Open Scope Z_scope.

(* ===================================================================== *)
(** * Machine integers *)
(* ===================================================================== *)

Definition u8 (z : Z) : Z := z mod 256.
Definition u16 (z : Z) : Z := z mod 65536.
Definition u32 (z : Z) : Z := z mod 4294967296.

(** Conversion to [int16_t]. *)
Definition i16 (z : Z) : Z := (z + 32768) mod 65536 - 32768.

(** C truth value of an integer. *)
Definition truthy (z : Z) : bool := negb (z =? 0).

(* ===================================================================== *)
(** * binary32 arithmetic *)
(* ===================================================================== *)

Definition f32 : Type := spec_float.

Definition f32_prec : Z := 24.
Definition f32_emax : Z := 128.

Definition f32_add : f32 -> f32 -> f32 := SFadd f32_prec f32_emax.
Definition f32_sub : f32 -> f32 -> f32 := SFsub f32_prec f32_emax.
Definition f32_mul : f32 -> f32 -> f32 := SFmul f32_prec f32_emax.
Definition f32_div : f32 -> f32 -> f32 := SFdiv f32_prec f32_emax.
Definition f32_neg : f32 -> f32 := SFopp.
Definition f32_ltb : f32 -> f32 -> bool := SFltb.
Definition f32_leb : f32 -> f32 -> bool := SFleb.
Definition f32_eqb : f32 -> f32 -> bool := SFeqb.
Definition f32_abs : f32 -> f32 := SFabs.
Definition f32_sqrt : f32 -> f32 := SFsqrt f32_prec f32_emax.

(** Conversion of an [int] to [float] (exact below 2^24, rounded above). *)
Definition f32_of_Z (z : Z) : f32 := binary_normalize f32_prec f32_emax z 0 false.

(** A decimal literal [n / 10^k] written with the [f] suffix: the nearest
    binary32 value of the quotient. *)
Definition f32_lit (n : Z) (k : nat) : f32 :=
  f32_div (f32_of_Z n) (f32_of_Z (10 ^ Z.of_nat k)).

Definition f32_zero : f32 := S754_zero false.

(** [x > y] as C evaluates it (false when either side is a NaN). *)
Definition f32_gt (x y : f32) : bool := f32_ltb y x.

(** The 32-bit object representation of a [float]. The specification
    floats carry no NaN payload; a NaN is given the default quiet pattern. *)
Definition bits_of_f32 (x : f32) : Z :=
  match x with
  | S754_zero s => if s then 2147483648 else 0
  | S754_infinity s => (if s then 2147483648 else 0) + 2139095040
  | S754_nan => 2143289344
  | S754_finite s m e =>
      (if s then 2147483648 else 0) +
      (if Z.pos m <? 8388608 then Z.pos m
       else (e + 150) * 8388608 + (Z.pos m - 8388608))
  end.

(* ===================================================================== *)
(** * protocol.h: constants and packed message structures *)
(* ===================================================================== *)

Definition MAX_CLIENTS : Z := 4.
Definition BUFFER_SIZE : Z := 1024.

(** [MessageType] enumerators, by value. *)
Definition MSG_NONE : Z := 0.
Definition MSG_CONNECT : Z := 1.
Definition MSG_CONNECT_ACK : Z := 2.
Definition MSG_DISCONNECT : Z := 3.
Definition MSG_PLAYER_INPUT : Z := 4.
Definition MSG_GAME_STATE : Z := 5.
Definition MSG_PING : Z := 6.
Definition MSG_PONG : Z := 7.

Definition INPUT_UP : Z := Z.shiftl 1 0.
Definition INPUT_LEFT : Z := Z.shiftl 1 1.
Definition INPUT_DOWN : Z := Z.shiftl 1 2.
Definition INPUT_RIGHT : Z := Z.shiftl 1 3.
Definition INPUT_FIRE : Z := Z.shiftl 1 4.

Definition WEAPON_TYPE_SPREAD : Z := 0.
Definition WEAPON_TYPE_RAPID : Z := 1.
Definition WEAPON_TYPE_LASER : Z := 2.

Definition MAX_SYNC_BULLETS : Z := 50.
Definition PROTOCOL_VERSION : Z := 1.
Definition PLAYER_SPEED : f32 := f32_lit 3000 1.
Definition PLAYER_ACCELERATION : f32 := f32_lit 8000 1.
Definition PLAYER_FRICTION : f32 := f32_lit 95 2.
Definition GAME_WIDTH : Z := 800.
Definition GAME_HEIGHT : Z := 600.

Record MessageHeader := mkMessageHeader {
  h_type : Z;      (* uint8_t *)
  h_length : Z     (* uint16_t *)
}.

Record PlayerInputMsg := mkPlayerInputMsg {
  pi_player_id : Z;    (* uint8_t *)
  pi_input_flags : Z;  (* uint8_t *)
  pi_weapon_type : Z;  (* uint8_t *)
  pi_sequence : Z      (* uint32_t *)
}.

Record PlayerState := mkPlayerState {
  ps_player_id : Z;    (* uint8_t *)
  ps_x : f32; ps_y : f32;
  ps_vx : f32; ps_vy : f32;
  ps_health : Z;       (* int16_t *)
  ps_weapon : Z;       (* uint8_t *)
  ps_flags : Z         (* uint8_t *)
}.

Record BulletState := mkBulletState {
  bs_owner_id : Z;     (* uint8_t *)
  bs_x : f32; bs_y : f32;
  bs_vx : f32; bs_vy : f32;
  bs_weapon_type : Z   (* uint8_t *)
}.

(** Fixed part of [GameStateMsg]; the flexible array follows it. *)
Record GameStateMsg := mkGameStateMsg {
  gs_tick : Z;           (* uint32_t *)
  gs_your_sequence : Z;  (* uint32_t *)
  gs_player_count : Z;   (* uint8_t *)
  gs_bullet_count : Z    (* uint8_t *)
}.

Record ConnectMsg := mkConnectMsg {
  cm_version : Z;        (* uint8_t *)
  cm_name : list Z       (* char[16] *)
}.

Record ConnectAckMsg := mkConnectAckMsg {
  ack_success : Z;       (* uint8_t *)
  ack_player_id : Z;     (* uint8_t *)
  ack_reason : Z         (* uint8_t: 0 = full, 1 = version mismatch *)
}.

Record PingMsg := mkPingMsg { ping_timestamp : Z (* uint32_t *) }.

Record PongMsg := mkPongMsg {
  pong_client_timestamp : Z;  (* uint32_t *)
  pong_server_timestamp : Z   (* uint32_t *)
}.

(** [sizeof] of the packed structures: the sum of the field sizes. *)
Definition sizeof_MessageHeader : Z := 1 + 2.
Definition sizeof_PlayerInputMsg : Z := 1 + 1 + 1 + 4.
Definition sizeof_PlayerState : Z := 1 + 4 + 4 + 4 + 4 + 2 + 1 + 1.
Definition sizeof_BulletState : Z := 1 + 4 + 4 + 4 + 4 + 1.
Definition sizeof_GameStateMsg : Z := 4 + 4 + 1 + 1.
Definition sizeof_ConnectMsg : Z := 1 + 16.
Definition sizeof_ConnectAckMsg : Z := 1 + 1 + 1.
Definition sizeof_PongMsg : Z := 4 + 4.

(* ===================================================================== *)
(** * Object representation of the packed structures

    The endpoints hand the address of a packed structure to [send]: what
    travels is the structure's object representation on the sending host.
    The byte order of that host is a parameter of the representation. *)
(* ===================================================================== *)

Inductive byte_order := LittleEndian | BigEndian.

(** The [n] low-order bytes of [v], least significant first. *)
Fixpoint le_bytes (n : nat) (v : Z) : list Z :=
  match n with
  | O => []
  | S k => (v mod 256) :: le_bytes k (v / 256)
  end.

(** The value of a byte string read least significant first. *)
Fixpoint le_value (bs : list Z) : Z :=
  match bs with
  | [] => 0
  | b :: r => b + 256 * le_value r
  end.

(** A scalar of [n] bytes as stored by a host of byte order [bo]. *)
Definition store_int (bo : byte_order) (n : nat) (v : Z) : list Z :=
  match bo with
  | LittleEndian => le_bytes n v
  | BigEndian => rev (le_bytes n v)
  end.

(** A scalar as loaded by a host of byte order [bo]. *)
Definition load_int (bo : byte_order) (bs : list Z) : Z :=
  match bo with
  | LittleEndian => le_value bs
  | BigEndian => le_value (rev bs)
  end.

Definition store_f32 (bo : byte_order) (x : f32) : list Z :=
  store_int bo 4 (bits_of_f32 x).

Definition bytes_of_MessageHeader (bo : byte_order) (h : MessageHeader) : list Z :=
  store_int bo 1 (h_type h) ++ store_int bo 2 (h_length h).

Definition bytes_of_PlayerInputMsg (bo : byte_order) (m : PlayerInputMsg) : list Z :=
  store_int bo 1 (pi_player_id m) ++ store_int bo 1 (pi_input_flags m) ++
  store_int bo 1 (pi_weapon_type m) ++ store_int bo 4 (pi_sequence m).

Definition bytes_of_PlayerState (bo : byte_order) (p : PlayerState) : list Z :=
  store_int bo 1 (ps_player_id p) ++
  store_f32 bo (ps_x p) ++ store_f32 bo (ps_y p) ++
  store_f32 bo (ps_vx p) ++ store_f32 bo (ps_vy p) ++
  store_int bo 2 (ps_health p) ++
  store_int bo 1 (ps_weapon p) ++ store_int bo 1 (ps_flags p).

Definition bytes_of_BulletState (bo : byte_order) (b : BulletState) : list Z :=
  store_int bo 1 (bs_owner_id b) ++
  store_f32 bo (bs_x b) ++ store_f32 bo (bs_y b) ++
  store_f32 bo (bs_vx b) ++ store_f32 bo (bs_vy b) ++
  store_int bo 1 (bs_weapon_type b).

Definition bytes_of_GameStateMsg (bo : byte_order) (g : GameStateMsg) : list Z :=
  store_int bo 4 (gs_tick g) ++ store_int bo 4 (gs_your_sequence g) ++
  store_int bo 1 (gs_player_count g) ++ store_int bo 1 (gs_bullet_count g).

(** [char name[16]]: the first 16 bytes, zero-filled when shorter. *)
Definition bytes_of_name (name : list Z) : list Z :=
  take 16 (map u8 name ++ replicate 16 0).

Definition bytes_of_ConnectMsg (bo : byte_order) (m : ConnectMsg) : list Z :=
  store_int bo 1 (cm_version m) ++ bytes_of_name (cm_name m).

Definition bytes_of_ConnectAckMsg (bo : byte_order) (m : ConnectAckMsg) : list Z :=
  store_int bo 1 (ack_success m) ++ store_int bo 1 (ack_player_id m) ++
  store_int bo 1 (ack_reason m).

Definition bytes_of_PingMsg (bo : byte_order) (m : PingMsg) : list Z :=
  store_int bo 4 (ping_timestamp m).

Definition bytes_of_PongMsg (bo : byte_order) (m : PongMsg) : list Z :=
  store_int bo 4 (pong_client_timestamp m) ++ store_int bo 4 (pong_server_timestamp m).

(** Reading the structures back from their object representation, as the
    receiving host does when [recv] fills a structure in place. *)
Definition MessageHeader_of_bytes (bo : byte_order) (bs : list Z) : MessageHeader :=
  {| h_type := load_int bo (take 1 bs);
     h_length := load_int bo (take 2 (drop 1 bs)) |}.


(* ===================================================================== *)
(** * Loops and checked array writes *)
(* ===================================================================== *)

(** [for (i = lo; i < lo + n; i++) s = body i s]. *)
Fixpoint for_from {St : Type} (body : nat -> St -> St) (lo n : nat) (s : St) : St :=
  match n with
  | O => s
  | S k => for_from body (S lo) k (body lo s)
  end.

(** The same loop when the body can fault; a fault ends the run. *)
Fixpoint for_from_opt {St : Type} (body : nat -> St -> option St) (lo n : nat) (s : St)
  : option St :=
  match n with
  | O => Some s
  | S k => match body lo s with
           | Some s' => for_from_opt body (S lo) k s'
           | None => None
           end
  end.

(** [a[i] = x] on an array of fixed length: a write outside the array is
    undefined behaviour, reported as [None]. *)
Definition array_set {A : Type} (a : list A) (i : nat) (x : A) : option (list A) :=
  if (i <? length a)%nat then Some (<[i:=x]> a) else None.

(** [memcpy] of [src] into [buf] at byte offset [off]. *)
Definition buf_write (buf : list Z) (off : nat) (src : list Z) : option (list Z) :=
  if (off + length src <=? length buf)%nat
  then Some (take off buf ++ src ++ drop (off + length src) buf)
  else None.

(* ===================================================================== *)
(** * network.c: the partial-write loop *)
(* ===================================================================== *)

Inductive errno := EINTR | EAGAIN | EWOULDBLOCK | EOTHER (code : Z).

Definition errno_is_EINTR (e : errno) : bool :=
  match e with EINTR => true | _ => false end.

Definition errno_would_block (e : errno) : bool :=
  match e with EAGAIN | EWOULDBLOCK => true | _ => false end.

(** One call of [send]: the call number within the current
    [net_send_all], and the bytes offered ([ptr + total_sent] for
    [length - total_sent] bytes); it answers with the return value and the
    [errno] left behind. A positive return value [n] means the first [n]
    offered bytes went out. *)
Definition send_fn : Type := nat -> list Z -> Z * errno.

(** State of the [while (total_sent < length)] loop: what has been put on
    the wire so far travels with it. One unit of [fuel] is one iteration;
    [None] is a loop still running when the fuel is spent. *)
Fixpoint net_send_all_loop (fuel : nat) (send : send_fn) (call : nat)
    (data : list Z) (length : Z) (total_sent : Z) (wire : list Z)
  : option (Z * list Z) :=
  if total_sent <? length then
    match fuel with
    | O => None
    | S fuel' =>
        let offered := take (Z.to_nat (length - total_sent))
                            (drop (Z.to_nat total_sent) data) in
        let '(bytes_sent, err) := send call offered in
        if bytes_sent <? 0 then
          if errno_is_EINTR err
          then net_send_all_loop fuel' send (S call) data length total_sent wire
          else Some (-1, wire)
        else if bytes_sent =? 0 then Some (total_sent, wire)
        else net_send_all_loop fuel' send (S call) data length
               (total_sent + bytes_sent)
               (wire ++ take (Z.to_nat bytes_sent) offered)
    end
  else Some (total_sent, wire).

(** [net_send_all(socket, data, length)]: the return value and the bytes
    that reached the wire. *)
Definition net_send_all (fuel : nat) (send : send_fn) (data : list Z) (length : Z)
  : option (Z * list Z) :=
  net_send_all_loop fuel send O data length 0 [].

(** A transport that takes at most [k] bytes per call and never fails. *)
Definition send_at_most (k : nat) : send_fn :=
  fun _ offered => (Z.of_nat (Init.Nat.min k (List.length offered)), EOTHER 0).

(** A transport whose every call is interrupted by a signal. *)
Definition send_interrupted : send_fn := fun _ _ => (-1, EINTR).

(* ===================================================================== *)
(** * shared_state.c: the bridge between network thread and main loop

    Every operation below runs between [pthread_mutex_lock] and
    [pthread_mutex_unlock] on the one mutex of the structure; it is
    embedded as the state transformer of its critical section. *)
(* ===================================================================== *)

Definition MAX_PLAYERS : nat := 4.
Definition MAX_REMOTE_BULLETS : nat := 50.

Record RemotePlayer := mkRemotePlayer {
  rp_active : Z;       (* int *)
  rp_id : Z;           (* uint8_t *)
  rp_x : f32; rp_y : f32;
  rp_vx : f32; rp_vy : f32;
  rp_health : Z;       (* int *)
  rp_weapon : Z        (* uint8_t *)
}.

Record RemoteBullet := mkRemoteBullet {
  rb_active : Z;       (* int *)
  rb_owner_id : Z;     (* uint8_t *)
  rb_x : f32; rb_y : f32;
  rb_vx : f32; rb_vy : f32;
  rb_weapon_type : Z   (* uint8_t *)
}.

Inductive NetworkStatus := NET_DISCONNECTED | NET_CONNECTING | NET_CONNECTED | NET_ERROR.

Record SharedState := mkSharedState {
  ss_status : NetworkStatus;
  ss_status_message : string;
  ss_my_id : Z;                       (* uint8_t *)
  ss_players : list RemotePlayer;     (* RemotePlayer[MAX_PLAYERS] *)
  ss_player_count : Z;                (* int *)
  ss_server_tick : Z;                 (* uint32_t *)
  ss_bullets : list RemoteBullet;     (* RemoteBullet[MAX_REMOTE_BULLETS] *)
  ss_bullet_count : Z;                (* int *)
  ss_input_to_send : Z;               (* uint8_t *)
  ss_weapon_type : Z;                 (* uint8_t *)
  ss_input_sequence : Z;              (* uint32_t *)
  ss_ping_ms : f32;
  ss_packets_received : Z;            (* int *)
  ss_packets_sent : Z                 (* int *)
}.

Definition rp_set_active (v : Z) (p : RemotePlayer) : RemotePlayer :=
  {| rp_active := v; rp_id := rp_id p; rp_x := rp_x p; rp_y := rp_y p;
     rp_vx := rp_vx p; rp_vy := rp_vy p; rp_health := rp_health p;
     rp_weapon := rp_weapon p |}.

(** [state->players[i].active = v]; the slot must exist. *)
Definition players_set_active (i : nat) (v : Z) (ps : list RemotePlayer)
  : option (list RemotePlayer) :=
  match ps !! i with
  | Some p => array_set ps i (rp_set_active v p)
  | None => None
  end.

(** [state->players[i] = players[i]; state->players[i].active = 1]: reads
    the caller's array at [i] and writes the state's array at [i]; either
    access outside its array is a fault. *)
Definition players_copy_in (src : list RemotePlayer) (i : nat) (ps : list RemotePlayer)
  : option (list RemotePlayer) :=
  match src !! i with
  | Some p => array_set ps i (rp_set_active 1 p)
  | None => None
  end.

(** [shared_state_update_players(state, players, count, server_tick)] on
    a state that exists. [players = None] is the NULL pointer, for which
    the call returns at once. [None] as a result is an access outside
    an array. *)
Definition shared_state_update_players (state : SharedState)
    (players : option (list RemotePlayer)) (count : Z) (server_tick : Z)
  : option SharedState :=
  match players with
  | None => Some state
  | Some src =>
      match for_from_opt (fun i => players_set_active i 0) 0 MAX_PLAYERS
                         (ss_players state) with
      | None => None
      | Some cleared =>
          let copied := if count >? Z.of_nat MAX_PLAYERS
                        then Z.of_nat MAX_PLAYERS else count in
          match for_from_opt (players_copy_in src) 0 (Z.to_nat copied) cleared with
          | None => None
          | Some ps =>
              Some {| ss_status := ss_status state;
                      ss_status_message := ss_status_message state;
                      ss_my_id := ss_my_id state;
                      ss_players := ps;
                      ss_player_count := copied;
                      ss_server_tick := server_tick;
                      ss_bullets := ss_bullets state;
                      ss_bullet_count := ss_bullet_count state;
                      ss_input_to_send := ss_input_to_send state;
                      ss_weapon_type := ss_weapon_type state;
                      ss_input_sequence := ss_input_sequence state;
                      ss_ping_ms := ss_ping_ms state;
                      ss_packets_received := ss_packets_received state + 1;
                      ss_packets_sent := ss_packets_sent state |}
          end
      end
  end.

(** [shared_state_copy_players(state, out)]: the array copied to the
    caller's buffer, and the returned count. *)
Definition shared_state_copy_players (state : SharedState) : list RemotePlayer * Z :=
  (ss_players state, ss_player_count state).


(** Returns the flags, the sequence and the weapon type. *)
Definition shared_state_get_input (state : SharedState) : Z * Z * Z :=
  (ss_input_to_send state, ss_input_sequence state, ss_weapon_type state).

(* ===================================================================== *)
(** * server.c: state of the authoritative server *)
(* ===================================================================== *)

Definition INVALID_SOCKET : Z := -1.
Definition SERVER_PORT : Z := 8080.
Definition TICK_RATE : Z := 60.
Definition MAX_SERVER_BULLETS : nat := 200.

Definition BULLET_LIFETIME : f32 := f32_lit 20 1.
Definition SPREAD_FIRE_RATE : f32 := f32_lit 30 1.
Definition RAPID_FIRE_RATE : f32 := f32_lit 100 1.
Definition LASER_FIRE_RATE : f32 := f32_lit 15 1.
Definition SPREAD_BULLET_SPEED : f32 := f32_lit 4000 1.
Definition RAPID_BULLET_SPEED : f32 := f32_lit 6000 1.
Definition LASER_BULLET_SPEED : f32 := f32_lit 8000 1.

Record ServerPlayer := mkServerPlayer {
  p_active : Z;           (* int *)
  p_socket : Z;           (* Socket *)
  p_name : list Z;        (* char[16] *)
  p_addr : Z;             (* struct sockaddr_in, opaque *)
  p_x : f32; p_y : f32;
  p_vx : f32; p_vy : f32;
  p_health : Z;           (* int *)
  p_weapon : Z;           (* uint8_t *)
  p_input_flags : Z;      (* uint8_t *)
  p_last_sequence : Z;    (* uint32_t *)
  p_fire_cooldown : f32
}.

Record ServerBullet := mkServerBullet {
  b_active : Z;           (* int *)
  b_owner_id : Z;         (* uint8_t *)
  b_x : f32; b_y : f32;
  b_vx : f32; b_vy : f32;
  b_weapon_type : Z;      (* uint8_t *)
  b_lifetime : f32
}.

Record GameServer := mkGameServer {
  listen_socket : Z;
  players : list ServerPlayer;    (* ServerPlayer[MAX_PLAYERS] *)
  player_count : Z;               (* int *)
  tick : Z;                       (* uint32_t *)
  bullets : list ServerBullet;    (* ServerBullet[MAX_SERVER_BULLETS] *)
  bullet_count : Z                (* int *)
}.

(** What the server does to the outside world. [printf] keeps its format
    and arguments; an address argument stands for its printed form. *)
Inductive parg := PInt (z : Z) | PStr (s : list Z) | PAddr (a : Z) | PErrno (e : errno).

Inductive event :=
| EvSend (sock : Z) (data : list Z)     (* net_send_all(sock, data, |data|) *)
| EvClose (sock : Z)                    (* net_close(sock) *)
| EvPrintf (fmt : string) (args : list parg).

(** An all-zero slot, as [memset] leaves it. *)
Definition zero_player : ServerPlayer :=
  {| p_active := 0; p_socket := 0; p_name := replicate 16 0; p_addr := 0;
     p_x := f32_zero; p_y := f32_zero; p_vx := f32_zero; p_vy := f32_zero;
     p_health := 0; p_weapon := 0; p_input_flags := 0; p_last_sequence := 0;
     p_fire_cooldown := f32_zero |}.

Definition zero_bullet : ServerBullet :=
  {| b_active := 0; b_owner_id := 0; b_x := f32_zero; b_y := f32_zero;
     b_vx := f32_zero; b_vy := f32_zero; b_weapon_type := 0;
     b_lifetime := f32_zero |}.

Definition p_set_active (v : Z) (p : ServerPlayer) : ServerPlayer :=
  {| p_active := v; p_socket := p_socket p; p_name := p_name p; p_addr := p_addr p;
     p_x := p_x p; p_y := p_y p; p_vx := p_vx p; p_vy := p_vy p;
     p_health := p_health p; p_weapon := p_weapon p;
     p_input_flags := p_input_flags p; p_last_sequence := p_last_sequence p;
     p_fire_cooldown := p_fire_cooldown p |}.

Definition p_set_fire_cooldown (c : f32) (p : ServerPlayer) : ServerPlayer :=
  {| p_active := p_active p; p_socket := p_socket p; p_name := p_name p;
     p_addr := p_addr p;
     p_x := p_x p; p_y := p_y p; p_vx := p_vx p; p_vy := p_vy p;
     p_health := p_health p; p_weapon := p_weapon p;
     p_input_flags := p_input_flags p; p_last_sequence := p_last_sequence p;
     p_fire_cooldown := c |}.

(** [player->last_sequence = input.sequence;
     player->input_flags = input.input_flags;
     player->weapon = input.weapon_type]. *)
Definition p_store_input (input : PlayerInputMsg) (p : ServerPlayer) : ServerPlayer :=
  {| p_active := p_active p; p_socket := p_socket p; p_name := p_name p;
     p_addr := p_addr p;
     p_x := p_x p; p_y := p_y p; p_vx := p_vx p; p_vy := p_vy p;
     p_health := p_health p; p_weapon := pi_weapon_type input;
     p_input_flags := pi_input_flags input;
     p_last_sequence := pi_sequence input;
     p_fire_cooldown := p_fire_cooldown p |}.

Definition with_players (ps : list ServerPlayer) (s : GameServer) : GameServer :=
  {| listen_socket := listen_socket s; players := ps;
     player_count := player_count s; tick := tick s;
     bullets := bullets s; bullet_count := bullet_count s |}.

Definition with_player_count (n : Z) (s : GameServer) : GameServer :=
  {| listen_socket := listen_socket s; players := players s;
     player_count := n; tick := tick s;
     bullets := bullets s; bullet_count := bullet_count s |}.

Definition with_tick (n : Z) (s : GameServer) : GameServer :=
  {| listen_socket := listen_socket s; players := players s;
     player_count := player_count s; tick := n;
     bullets := bullets s; bullet_count := bullet_count s |}.

Definition with_bullets (bs : list ServerBullet) (s : GameServer) : GameServer :=
  {| listen_socket := listen_socket s; players := players s;
     player_count := player_count s; tick := tick s;
     bullets := bs; bullet_count := bullet_count s |}.

Definition with_bullet_count (n : Z) (s : GameServer) : GameServer :=
  {| listen_socket := listen_socket s; players := players s;
     player_count := player_count s; tick := tick s;
     bullets := bullets s; bullet_count := n |}.

(** [server->players[i]] and [server->bullets[i]] for an index inside the
    array (every loop of the server runs below the array length). *)
Definition player_at (s : GameServer) (i : nat) : ServerPlayer :=
  default zero_player (players s !! i).

Definition bullet_at (s : GameServer) (i : nat) : ServerBullet :=
  default zero_bullet (bullets s !! i).

Definition set_player (i : nat) (p : ServerPlayer) (s : GameServer) : GameServer :=
  with_players (<[i:=p]> (players s)) s.

Definition set_bullet (i : nat) (b : ServerBullet) (s : GameServer) : GameServer :=
  with_bullets (<[i:=b]> (bullets s)) s.

(** [net_close(player->socket); player->active = 0; server->player_count--]. *)
Definition drop_player (i : nat) (s : GameServer) : GameServer :=
  with_player_count (player_count s - 1)
    (set_player i (p_set_active 0 (player_at s i)) s).

(** First index in [lo, lo + n) at which [free] holds: the scan of
    [server_find_free_slot] and [server_find_free_bullet]. *)
Fixpoint first_free (free : nat -> bool) (lo n : nat) : option nat :=
  match n with
  | O => None
  | S k => if free lo then Some lo else first_free free (S lo) k
  end.

(** [server_init]: [mem] is the storage of the [GameServer] local of
    [main] as the function finds it; [listen] is what
    [net_create_server] returns. Returns the state and the status. *)
Definition server_init (mem : GameServer) (port : Z) (listen : Z) : GameServer * Z :=
  let s := {| listen_socket := listen;
              players := replicate MAX_PLAYERS zero_player;
              player_count := 0;
              tick := 0;
              bullets := bullets mem;
              bullet_count := bullet_count mem |} in
  if listen =? INVALID_SOCKET then (s, -1) else (s, 0).

Definition server_find_free_slot (server : GameServer) : Z :=
  match first_free (fun i => negb (truthy (p_active (player_at server i)))) 0 MAX_PLAYERS with
  | Some i => Z.of_nat i
  | None => -1
  end.

Definition server_find_free_bullet (server : GameServer) : Z :=
  match first_free (fun i => negb (truthy (b_active (bullet_at server i)))) 0
                   MAX_SERVER_BULLETS with
  | Some i => Z.of_nat i
  | None => -1
  end.

(* ===================================================================== *)
(** * server.c: handshake and message intake *)
(* ===================================================================== *)

Section Server.

(** Byte order of the machine the server runs on. *)
Variable host : byte_order.

(** [sinf], [cosf] and [powf] of the C library. *)
Variables sinf cosf : f32 -> f32.
Variable powf : f32 -> f32 -> f32.

(** What the network delivers during one [server_accept_new_client]:
    the socket and address returned by [net_accept_client], then the
    return value and buffer of each [net_recv_all]. *)
Record Incoming := mkIncoming {
  inc_socket : Z;
  inc_addr : Z;
  inc_header : Z * MessageHeader;
  inc_connect : Z * ConnectMsg
}.

(** The bytes of a C string up to its terminator. *)
Fixpoint c_str (bs : list Z) : list Z :=
  match bs with
  | [] => []
  | b :: r => if b =? 0 then [] else b :: c_str r
  end.

(** [strncpy(player->name, connect_msg.name, 15); player->name[15] = 0]
    into the zeroed slot. *)
Definition name_from_connect (src : list Z) : list Z :=
  let s := take 15 (c_str src) in s ++ replicate (16 - length s) 0.

(** [snprintf(player->name, 16, "Player%d", slot + 1)] for a slot number
    below [MAX_PLAYERS] (one decimal digit). *)
Definition name_default (slot : Z) : list Z :=
  [80; 108; 97; 121; 101; 114; 48 + (slot + 1)] ++ replicate 9 0.

(** The two [net_send_all] calls that carry a [MSG_CONNECT_ACK]. *)
Definition send_connect_ack (sock : Z) (ack : ConnectAckMsg) : list event :=
  let header := {| h_type := MSG_CONNECT_ACK; h_length := sizeof_ConnectAckMsg |} in
  [EvSend sock (bytes_of_MessageHeader host header);
   EvSend sock (bytes_of_ConnectAckMsg host ack)].

Definition server_accept_new_client (server : GameServer) (inc : Incoming)
  : GameServer * list event :=
  let client_socket := inc_socket inc in
  let addr := inc_addr inc in
  if client_socket =? INVALID_SOCKET then (server, [])
  else
    let log0 := [EvPrintf "New connection from %s" [PAddr addr]] in
    let '(n_header, connect_header) := inc_header inc in
    if negb (n_header =? sizeof_MessageHeader) then
      (server, log0 ++ [EvPrintf "Failed to read connect header from %s" [PAddr addr];
                        EvClose client_socket])
    else if negb (h_type connect_header =? MSG_CONNECT) then
      (server, log0 ++ [EvPrintf "Expected MSG_CONNECT, got type %d from %s"
                                 [PInt (h_type connect_header); PAddr addr];
                        EvClose client_socket])
    else
      let '(n_connect, connect_msg) := inc_connect inc in
      if negb (n_connect =? sizeof_ConnectMsg) then
        (server, log0 ++ [EvPrintf "Failed to read connect payload from %s" [PAddr addr];
                          EvClose client_socket])
      else if negb (cm_version connect_msg =? PROTOCOL_VERSION) then
        let ack := {| ack_success := 0; ack_player_id := 0; ack_reason := 1 |} in
        (server, log0 ++ [EvPrintf "Version mismatch from %s (got %d, expected %d)"
                                   [PAddr addr; PInt (cm_version connect_msg);
                                    PInt PROTOCOL_VERSION]]
                      ++ send_connect_ack client_socket ack
                      ++ [EvClose client_socket])
      else
        let slot := server_find_free_slot server in
        if slot <? 0 then
          let ack := {| ack_success := 0; ack_player_id := 0; ack_reason := 0 |} in
          (server, log0 ++ [EvPrintf "Server full, rejecting connection from %s"
                                     [PAddr addr]]
                        ++ send_connect_ack client_socket ack
                        ++ [EvClose client_socket])
        else
          let name := if negb (default 0 (cm_name connect_msg !! 0%nat) =? 0)
                      then name_from_connect (cm_name connect_msg)
                      else name_default slot in
          let player :=
            {| p_active := 1; p_socket := client_socket; p_name := name;
               p_addr := addr;
               p_x := f32_add (f32_lit 1000 1)
                              (f32_mul (f32_of_Z slot) (f32_lit 1500 1));
               p_y := f32_lit 4000 1;
               p_vx := f32_zero; p_vy := f32_zero;
               p_health := 100; p_weapon := 0;
               p_input_flags := 0; p_last_sequence := 0;
               p_fire_cooldown := f32_zero |} in
          let server' :=
            with_player_count (player_count server + 1)
              (set_player (Z.to_nat slot) player server) in
          let ack := {| ack_success := 1; ack_player_id := u8 slot; ack_reason := 0 |} in
          (server', log0 ++ send_connect_ack client_socket ack
                         ++ [EvPrintf "Player %d (%s) joined from %s"
                                      [PInt slot; PStr name; PAddr addr]]).

(** What the network delivers during one [server_handle_client_message]:
    return value, [errno] and buffer of the [recv] of the header, then
    return value and buffer of the [net_recv_all] of the payload the
    message type asks for. *)
Record ClientRead := mkClientRead {
  rd_bytes : Z;
  rd_errno : errno;
  rd_header : MessageHeader;
  rd_input : Z * PlayerInputMsg;
  rd_ping : Z * PingMsg
}.

(** The [printf] calls that name the flags of an accepted input. *)
Definition flag_prints (flags : Z) : list event :=
  (if truthy (Z.land flags INPUT_UP) then [EvPrintf "UP " []] else []) ++
  (if truthy (Z.land flags INPUT_DOWN) then [EvPrintf "DOWN " []] else []) ++
  (if truthy (Z.land flags INPUT_LEFT) then [EvPrintf "LEFT " []] else []) ++
  (if truthy (Z.land flags INPUT_RIGHT) then [EvPrintf "RIGHT " []] else []) ++
  (if truthy (Z.land flags INPUT_FIRE) then [EvPrintf "FIRE " []] else []).

(** [server_handle_client_message(server, player_id)]. [last_flags] is
    the function's [static uint8_t last_flags[MAX_PLAYERS]]. *)
Definition server_handle_client_message (server : GameServer) (last_flags : list Z)
    (player_id : nat) (rd : ClientRead)
  : GameServer * list Z * list event :=
  let player := player_at server player_id in
  let pid := Z.of_nat player_id in
  if negb (truthy (p_active player)) then (server, last_flags, [])
  else
    let bytes := rd_bytes rd in
    if bytes =? 0 then
      (drop_player player_id server, last_flags,
       [EvPrintf "Player %d disconnected (connection closed)" [PInt pid];
        EvClose (p_socket player)])
    else if bytes <? 0 then
      if errno_would_block (rd_errno rd) then (server, last_flags, [])
      else
        (drop_player player_id server, last_flags,
         [EvPrintf "Player %d disconnected (error: %s)" [PInt pid; PErrno (rd_errno rd)];
          EvClose (p_socket player)])
    else if negb (bytes =? sizeof_MessageHeader) then (server, last_flags, [])
    else
      let header := rd_header rd in
      if h_type header =? MSG_PLAYER_INPUT then
        let '(n, input) := rd_input rd in
        if n <=? 0 then (server, last_flags, [])
        else if pi_sequence input <=? p_last_sequence player then
          (server, last_flags, [])
        else
          let server' := set_player player_id (p_store_input input player) server in
          let changed :=
            negb (pi_input_flags input =? default 0 (last_flags !! player_id)) in
          let last_flags' :=
            if changed then <[player_id := pi_input_flags input]> last_flags
            else last_flags in
          let log :=
            (if changed
             then [EvPrintf "Player %d input: " [PInt pid]]
                  ++ flag_prints (pi_input_flags input)
                  ++ [EvPrintf "weapon=%d" [PInt (pi_weapon_type input)]]
             else [])
            ++ [EvPrintf "(seq=%u)" [PInt (pi_sequence input)]] in
          (server', last_flags', log)
      else if h_type header =? MSG_DISCONNECT then
        (drop_player player_id server, last_flags,
         [EvPrintf "Player %d sent disconnect" [PInt pid];
          EvClose (p_socket player)])
      else if h_type header =? MSG_PING then
        let '(n, ping) := rd_ping rd in
        if n >? 0 then
          let pong := {| pong_client_timestamp := ping_timestamp ping;
                         pong_server_timestamp := tick server |} in
          let pong_header := {| h_type := MSG_PONG; h_length := sizeof_PongMsg |} in
          (server, last_flags,
           [EvSend (p_socket player) (bytes_of_MessageHeader host pong_header);
            EvSend (p_socket player) (bytes_of_PongMsg host pong)])
        else (server, last_flags, [])
      else
        (server, last_flags,
         [EvPrintf "Unknown message type %d from player %d"
                   [PInt (h_type header); PInt pid]]).



(* ===================================================================== *)
(** * server.c: projectiles and firing *)
(* ===================================================================== *)

Definition server_spawn_single_bullet (server : GameServer) (player_id : Z)
    (x y vx vy : f32) (weapon_type : Z) : GameServer :=
  let slot := server_find_free_bullet server in
  if slot <? 0 then server
  else
    let bullet := {| b_active := 1; b_owner_id := u8 player_id;
                     b_x := x; b_y := y; b_vx := vx; b_vy := vy;
                     b_weapon_type := weapon_type;
                     b_lifetime := BULLET_LIFETIME |} in
    with_bullet_count (bullet_count server + 1)
      (set_bullet (Z.to_nat slot) bullet server).

(** The fan of the spread weapon: -15, 0 and +15 degrees in radians. *)
Definition spread_angles : list f32 :=
  [f32_neg (f32_lit 2618 4); f32_lit 0 1; f32_lit 2618 4].

Definition server_spawn_bullet (server : GameServer) (player_id : nat) (x y : f32)
  : GameServer :=
  let weapon := p_weapon (player_at server player_id) in
  let pid := Z.of_nat player_id in
  if weapon =? WEAPON_TYPE_SPREAD then
    let speed := SPREAD_BULLET_SPEED in
    for_from (fun i s =>
                let a := default f32_zero (spread_angles !! i) in
                let vx := f32_mul speed (sinf a) in
                let vy := f32_mul (f32_neg speed) (cosf a) in
                let spawn_x := f32_add x (f32_mul (f32_lit 100 1) (sinf a)) in
                let spawn_y := f32_sub y (f32_lit 200 1) in
                server_spawn_single_bullet s pid spawn_x spawn_y vx vy weapon)
             0 3 server
  else if weapon =? WEAPON_TYPE_RAPID then
    let speed := RAPID_BULLET_SPEED in
    server_spawn_single_bullet server pid x (f32_sub y (f32_lit 250 1))
      (f32_of_Z 0) (f32_neg speed) weapon
  else if weapon =? WEAPON_TYPE_LASER then
    let speed := LASER_BULLET_SPEED in
    server_spawn_single_bullet server pid x (f32_sub y (f32_lit 300 1))
      (f32_of_Z 0) (f32_neg speed) weapon
  else
    let speed := SPREAD_BULLET_SPEED in
    server_spawn_single_bullet server pid x (f32_sub y (f32_lit 200 1))
      (f32_of_Z 0) (f32_neg speed) weapon.

(** Body of the loop of [server_update_bullets] at index [i]. *)
Definition update_bullet (dt : f32) (i : nat) (server : GameServer) : GameServer :=
  let bullet := bullet_at server i in
  if negb (truthy (b_active bullet)) then server
  else
    let x := f32_add (b_x bullet) (f32_mul (b_vx bullet) dt) in
    let y := f32_add (b_y bullet) (f32_mul (b_vy bullet) dt) in
    let lifetime := f32_sub (b_lifetime bullet) dt in
    let gone :=
      f32_leb lifetime (f32_of_Z 0) ||
      f32_ltb x (f32_of_Z 0) || f32_gt x (f32_of_Z GAME_WIDTH) ||
      f32_ltb y (f32_of_Z 0) || f32_gt y (f32_of_Z GAME_HEIGHT) in
    let moved := {| b_active := if gone then 0 else b_active bullet;
                    b_owner_id := b_owner_id bullet;
                    b_x := x; b_y := y;
                    b_vx := b_vx bullet; b_vy := b_vy bullet;
                    b_weapon_type := b_weapon_type bullet;
                    b_lifetime := lifetime |} in
    let server' := set_bullet i moved server in
    if gone then with_bullet_count (bullet_count server' - 1) server' else server'.

Definition server_update_bullets (server : GameServer) (dt : f32) : GameServer :=
  for_from (update_bullet dt) 0 MAX_SERVER_BULLETS server.

Definition get_weapon_cooldown (weapon_type : Z) : f32 :=
  if weapon_type =? WEAPON_TYPE_SPREAD then f32_div (f32_lit 10 1) SPREAD_FIRE_RATE
  else if weapon_type =? WEAPON_TYPE_RAPID then f32_div (f32_lit 10 1) RAPID_FIRE_RATE
  else if weapon_type =? WEAPON_TYPE_LASER then f32_div (f32_lit 10 1) LASER_FIRE_RATE
  else f32_div (f32_lit 10 1) SPREAD_FIRE_RATE.

(** The cooldown of a slot once the loop body has run its
    [if (player->fire_cooldown > 0) player->fire_cooldown -= dt]. *)
Definition cooled (dt : f32) (cooldown : f32) : f32 :=
  if f32_gt cooldown (f32_of_Z 0) then f32_sub cooldown dt else cooldown.

(** The test [(player->input_flags & INPUT_FIRE) && player->fire_cooldown <= 0]
    on the cooldown just updated. *)
Definition may_fire (flags : Z) (cooldown : f32) : bool :=
  truthy (Z.land flags INPUT_FIRE) && f32_leb cooldown (f32_of_Z 0).

(** Body of the loop of [server_handle_firing] at index [i]. *)
Definition fire_player (dt : f32) (i : nat) (server : GameServer) : GameServer :=
  let player := player_at server i in
  if negb (truthy (p_active player)) then server
  else
    let cooldown := cooled dt (p_fire_cooldown player) in
    let server1 := set_player i (p_set_fire_cooldown cooldown player) server in
    if may_fire (p_input_flags player) cooldown then
      let server2 := server_spawn_bullet server1 i (p_x player) (p_y player) in
      set_player i (p_set_fire_cooldown (get_weapon_cooldown (p_weapon player))
                                        (player_at server2 i)) server2
    else server1.

Definition server_handle_firing (server : GameServer) (dt : f32) : GameServer :=
  for_from (fire_player dt) 0 MAX_PLAYERS server.

(* ===================================================================== *)
(** * server.c: movement *)
(* ===================================================================== *)

(** Body of the loop of [server_update_physics] for one occupied slot. *)
Definition move_player (dt : f32) (player : ServerPlayer) : ServerPlayer :=
  let flags := p_input_flags player in
  let accel_y := if truthy (Z.land flags INPUT_UP) then f32_neg (f32_lit 10 1)
                 else f32_of_Z 0 in
  let accel_y := if truthy (Z.land flags INPUT_DOWN) then f32_lit 10 1 else accel_y in
  let accel_x := if truthy (Z.land flags INPUT_LEFT) then f32_neg (f32_lit 10 1)
                 else f32_of_Z 0 in
  let accel_x := if truthy (Z.land flags INPUT_RIGHT) then f32_lit 10 1 else accel_x in
  let diagonal := negb (f32_eqb accel_x (f32_of_Z 0)) &&
                  negb (f32_eqb accel_y (f32_of_Z 0)) in
  let inv_sqrt2 := f32_lit 7071 4 in
  let accel_x := if diagonal then f32_mul accel_x inv_sqrt2 else accel_x in
  let accel_y := if diagonal then f32_mul accel_y inv_sqrt2 else accel_y in
  let vx := f32_add (p_vx player) (f32_mul (f32_mul accel_x PLAYER_ACCELERATION) dt) in
  let vy := f32_add (p_vy player) (f32_mul (f32_mul accel_y PLAYER_ACCELERATION) dt) in
  let friction := powf PLAYER_FRICTION (f32_mul dt (f32_lit 600 1)) in
  let vx := f32_mul vx friction in
  let vy := f32_mul vy friction in
  let speed := f32_sqrt (f32_add (f32_mul vx vx) (f32_mul vy vy)) in
  let fast := f32_gt speed PLAYER_SPEED in
  let scale := f32_div PLAYER_SPEED speed in
  let vx := if fast then f32_mul vx scale else vx in
  let vy := if fast then f32_mul vy scale else vy in
  let vx := if f32_ltb (f32_abs vx) (f32_lit 10 1) then f32_of_Z 0 else vx in
  let vy := if f32_ltb (f32_abs vy) (f32_lit 10 1) then f32_of_Z 0 else vy in
  let x := f32_add (p_x player) (f32_mul vx dt) in
  let y := f32_add (p_y player) (f32_mul vy dt) in
  let hw := f32_of_Z 32 in
  let hh := f32_of_Z 32 in
  let '(x, vx) := if f32_ltb x hw then (hw, f32_of_Z 0) else (x, vx) in
  let right := f32_sub (f32_of_Z GAME_WIDTH) hw in
  let '(x, vx) := if f32_gt x right then (right, f32_of_Z 0) else (x, vx) in
  let '(y, vy) := if f32_ltb y hh then (hh, f32_of_Z 0) else (y, vy) in
  let bottom := f32_sub (f32_of_Z GAME_HEIGHT) hh in
  let '(y, vy) := if f32_gt y bottom then (bottom, f32_of_Z 0) else (y, vy) in
  {| p_active := p_active player; p_socket := p_socket player;
     p_name := p_name player; p_addr := p_addr player;
     p_x := x; p_y := y; p_vx := vx; p_vy := vy;
     p_health := p_health player; p_weapon := p_weapon player;
     p_input_flags := p_input_flags player;
     p_last_sequence := p_last_sequence player;
     p_fire_cooldown := p_fire_cooldown player |}.

Definition server_update_physics (server : GameServer) (dt : f32) : GameServer :=
  for_from (fun i s =>
              let player := player_at s i in
              if negb (truthy (p_active player)) then s
              else set_player i (move_player dt player) s)
           0 MAX_PLAYERS server.

(* ===================================================================== *)
(** * server.c: building and broadcasting the snapshot *)
(* ===================================================================== *)

(** The counting loop: occupied bullet slots, stopping at the cap. *)
Definition count_sync_bullets (server : GameServer) : Z :=
  for_from (fun i bullet_count =>
              if bullet_count <? MAX_SYNC_BULLETS
              then if truthy (b_active (bullet_at server i))
                   then bullet_count + 1 else bullet_count
              else bullet_count)
           0 MAX_SERVER_BULLETS 0.

Definition player_state_of (i : nat) (sp : ServerPlayer) : PlayerState :=
  {| ps_player_id := u8 (Z.of_nat i);
     ps_x := p_x sp; ps_y := p_y sp; ps_vx := p_vx sp; ps_vy := p_vy sp;
     ps_health := i16 (p_health sp);
     ps_weapon := p_weapon sp;
     ps_flags := if truthy (Z.land (p_input_flags sp) INPUT_FIRE) then 1 else 0 |}.

Definition bullet_state_of (sb : ServerBullet) : BulletState :=
  {| bs_owner_id := b_owner_id sb;
     bs_x := b_x sb; bs_y := b_y sb; bs_vx := b_vx sb; bs_vy := b_vy sb;
     bs_weapon_type := b_weapon_type sb |}.

(** Byte offsets inside the message buffer. *)
Definition off_state : nat := Z.to_nat sizeof_MessageHeader.
Definition off_your_sequence : nat := Z.to_nat (sizeof_MessageHeader + 4).
Definition off_players : nat := Z.to_nat (sizeof_MessageHeader + sizeof_GameStateMsg).

(** Filling [state->players[idx]] for every occupied slot; the loop state
    is the buffer and [idx]. *)
Definition fill_player (server : GameServer) (i : nat) (st : list Z * nat)
  : option (list Z * nat) :=
  let '(buffer, idx) := st in
  let sp := player_at server i in
  if negb (truthy (p_active sp)) then Some (buffer, idx)
  else
    match buf_write buffer (off_players + idx * Z.to_nat sizeof_PlayerState)
                    (bytes_of_PlayerState host (player_state_of i sp)) with
    | Some buffer' => Some (buffer', S idx)
    | None => None
    end.

(** Filling [bullets_data[bidx]] while [bidx < bullet_count]; the loop
    state is the buffer and [bidx]. *)
Definition fill_bullet (server : GameServer) (off_bullets : nat) (bullet_count : Z)
    (i : nat) (st : list Z * nat) : option (list Z * nat) :=
  let '(buffer, bidx) := st in
  if Z.of_nat bidx <? bullet_count then
    let sb := bullet_at server i in
    if negb (truthy (b_active sb)) then Some (buffer, bidx)
    else
      match buf_write buffer (off_bullets + bidx * Z.to_nat sizeof_BulletState)
                      (bytes_of_BulletState host (bullet_state_of sb)) with
      | Some buffer' => Some (buffer', S bidx)
      | None => None
      end
  else Some (buffer, bidx).

(** One turn of the send loop; the loop state is the server, the buffer
    and the actions so far. [send_result] is the return value of
    [net_send_all] for a socket and a message. *)
Definition send_to_player (send_result : Z -> list Z -> Z) (i : nat)
    (st : GameServer * list Z * list event)
  : option (GameServer * list Z * list event) :=
  let '(server, buffer, evs) := st in
  let player := player_at server i in
  if negb (truthy (p_active player)) then Some st
  else
    match buf_write buffer off_your_sequence
                    (store_int host 4 (p_last_sequence player)) with
    | None => None
    | Some buffer' =>
        if send_result (p_socket player) buffer' <? 0 then
          Some (drop_player i server, buffer',
                evs ++ [EvSend (p_socket player) buffer';
                        EvPrintf "Failed to send state to player %d, disconnecting"
                                 [PInt (Z.of_nat i)];
                        EvClose (p_socket player)])
        else
          Some (server, buffer', evs ++ [EvSend (p_socket player) buffer'])
    end.

(** The part of [server_send_state] that sizes, allocates and fills the
    message buffer. [fresh] gives the contents of the block returned by
    [malloc], byte by byte. The result [None] is a write outside the
    allocated block. *)
Definition build_state_buffer (server : GameServer) (fresh : nat -> Z)
  : option (list Z) :=
  let bullet_count := count_sync_bullets server in
  let state_size := sizeof_GameStateMsg +
                    player_count server * sizeof_PlayerState +
                    bullet_count * sizeof_BulletState in
  let total_size := sizeof_MessageHeader + state_size in
  let buffer0 := map fresh (seq 0 (Z.to_nat total_size)) in
  let header := {| h_type := MSG_GAME_STATE; h_length := u16 state_size |} in
  let state := {| gs_tick := tick server; gs_your_sequence := 0;
                  gs_player_count := u8 (player_count server);
                  gs_bullet_count := u8 bullet_count |} in
  let off_bullets :=
    Z.to_nat (sizeof_MessageHeader + sizeof_GameStateMsg +
              player_count server * sizeof_PlayerState) in
  buffer1 ← buf_write buffer0 0 (bytes_of_MessageHeader host header);
  buffer2 ← buf_write buffer1 off_state (bytes_of_GameStateMsg host state);
  '(buffer3, _) ← for_from_opt (fill_player server) 0 MAX_PLAYERS (buffer2, O);
  '(buffer4, _) ← for_from_opt (fill_bullet server off_bullets bullet_count)
                               0 MAX_SERVER_BULLETS (buffer3, O);
  Some buffer4.

(** [server_send_state(server)]. [heap] is the result of [malloc]: [None]
    for NULL, otherwise the contents of the fresh block. [send_result]
    is the return value of [net_send_all] for a socket and a message. *)
Definition server_send_state (server : GameServer) (heap : option (nat -> Z))
    (send_result : Z -> list Z -> Z)
  : option (GameServer * list event) :=
  match heap with
  | None => Some (server, [])
  | Some fresh =>
      buffer ← build_state_buffer server fresh;
      '(server', _, evs) ← for_from_opt (send_to_player send_result) 0 MAX_PLAYERS
                                        (server, buffer, []);
      Some (server', evs)
  end.

(* ===================================================================== *)
(** * server.c: one turn of the loop of [main] *)
(* ===================================================================== *)

(** What the environment contributes to one turn: the connection attempt
    seen by the accept, the read presented to each slot, the outcome of
    [malloc] and the outcome of each send of the broadcast. *)
Record TurnInput := mkTurnInput {
  ti_incoming : Incoming;
  ti_reads : nat -> ClientRead;
  ti_heap : option (nat -> Z);
  ti_send_result : Z -> list Z -> Z
}.

(** [float dt = 1.0f / TICK_RATE]. *)
Definition tick_dt : f32 := f32_div (f32_lit 10 1) (f32_of_Z TICK_RATE).

(** The [for] loop over the slots that calls
    [server_handle_client_message] for the occupied ones. *)
Definition poll_clients (reads : nat -> ClientRead)
    (st : GameServer * list Z * list event) : GameServer * list Z * list event :=
  for_from (fun i '(server, last_flags, evs) =>
              if truthy (p_active (player_at server i)) then
                let '(server', last_flags', ev) :=
                  server_handle_client_message server last_flags i (reads i) in
                (server', last_flags', evs ++ ev)
              else (server, last_flags, evs))
           0 MAX_PLAYERS st.

(** The body of [while (g_running)]: accept, poll, move, fire, advance
    the projectiles, broadcast when somebody is connected, count the
    tick. Switching sockets to non-blocking mode and the sleep at the end
    leave no trace in the state. *)
Definition main_turn (server : GameServer) (last_flags : list Z) (inp : TurnInput)
  : option (GameServer * list Z * list event) :=
  let dt := tick_dt in
  let '(server1, ev1) := server_accept_new_client server (ti_incoming inp) in
  let '(server2, last_flags2, ev2) :=
    poll_clients (ti_reads inp) (server1, last_flags, ev1) in
  let server3 := server_update_physics server2 dt in
  let server4 := server_handle_firing server3 dt in
  let server5 := server_update_bullets server4 dt in
  '(server6, ev6) ← (if player_count server5 >? 0
                     then server_send_state server5 (ti_heap inp) (ti_send_result inp)
                     else Some (server5, []));
  Some (with_tick (u32 (tick server6 + 1)) server6, last_flags2, ev2 ++ ev6).

(** The server from start-up on: [server_init] on the storage it is
    given, then any number of turns. *)
Inductive server_runs (mem : GameServer) (port listen : Z)
  : GameServer -> list Z -> Prop :=
| runs_init :
    snd (server_init mem port listen) = 0 ->
    server_runs mem port listen (fst (server_init mem port listen))
                (replicate MAX_PLAYERS 0)
| runs_turn server last_flags inp server' last_flags' evs :
    server_runs mem port listen server last_flags ->
    main_turn server last_flags inp = Some (server', last_flags', evs) ->
    server_runs mem port listen server' last_flags'.

End Server.

(* ===================================================================== *)
(** * network_client.c and client.c: what the clients put on the wire *)
(* ===================================================================== *)

Section Client.

(** Byte order of the machine the client runs on. *)
Variable host : byte_order.

(** [thread_send_input(client)]: the input read from the bridge goes out
    as a header and a [PlayerInputMsg]; [packets_sent] is bumped. *)
Definition thread_send_input (socket player_id : Z) (shared : SharedState)
  : SharedState * list event :=
  let '(flags, sequence, weapon_type) := shared_state_get_input shared in
  let input := {| pi_player_id := player_id; pi_input_flags := flags;
                  pi_weapon_type := weapon_type; pi_sequence := sequence |} in
  let header := {| h_type := MSG_PLAYER_INPUT; h_length := sizeof_PlayerInputMsg |} in
  ({| ss_status := ss_status shared; ss_status_message := ss_status_message shared;
      ss_my_id := ss_my_id shared; ss_players := ss_players shared;
      ss_player_count := ss_player_count shared;
      ss_server_tick := ss_server_tick shared;
      ss_bullets := ss_bullets shared; ss_bullet_count := ss_bullet_count shared;
      ss_input_to_send := ss_input_to_send shared;
      ss_weapon_type := ss_weapon_type shared;
      ss_input_sequence := ss_input_sequence shared;
      ss_ping_ms := ss_ping_ms shared;
      ss_packets_received := ss_packets_received shared;
      ss_packets_sent := ss_packets_sent shared + 1 |},
   [EvSend socket (bytes_of_MessageHeader host header);
    EvSend socket (bytes_of_PlayerInputMsg host input)]).

(** The connect request of [network_thread_func]: version and the name
    ["Player"] copied with [strncpy] into the 16-byte field. *)
Definition send_connect_request (socket : Z) : list event :=
  let connect_msg := {| cm_version := PROTOCOL_VERSION;
                        cm_name := [80; 108; 97; 121; 101; 114] ++ replicate 10 0 |} in
  let header := {| h_type := MSG_CONNECT; h_length := sizeof_ConnectMsg |} in
  [EvSend socket (bytes_of_MessageHeader host header);
   EvSend socket (bytes_of_ConnectMsg host connect_msg)].

(** [client_disconnect] of the module 4 client. *)
Definition client_disconnect (socket : Z) : list event :=
  let header := {| h_type := MSG_DISCONNECT; h_length := 0 |} in
  [EvSend socket (bytes_of_MessageHeader host header); EvClose socket].

(** [client_send_input] of the module 4 client: the sequence counter is
    advanced first; the weapon field is left at zero. Returns the new
    counter. *)
Definition client_send_input (socket player_id input_flags sequence : Z)
  : Z * list event :=
  let sequence' := u32 (sequence + 1) in
  let input := {| pi_player_id := player_id; pi_input_flags := input_flags;
                  pi_weapon_type := 0; pi_sequence := sequence' |} in
  let header := {| h_type := MSG_PLAYER_INPUT; h_length := sizeof_PlayerInputMsg |} in
  (sequence',
   [EvSend socket (bytes_of_MessageHeader host header);
    EvSend socket (bytes_of_PlayerInputMsg host input)]).

End Client.

(* ===================================================================== *)
(** * Vocabulary of the statements *)
(* ===================================================================== *)

(** Number of elements of a list that satisfy a test. *)
Fixpoint count_if {A : Type} (f : A -> bool) (l : list A) : nat :=
  match l with
  | [] => O
  | x :: r => ((if f x then 1 else 0) + count_if f r)%nat
  end.

Definition p_occupied (p : ServerPlayer) : bool := truthy (p_active p).
Definition b_occupied (b : ServerBullet) : bool := truthy (b_active b).

(** The arrays have the length their declaration gives them. *)
Definition server_wf (s : GameServer) : Prop :=
  length (players s) = MAX_PLAYERS /\ length (bullets s) = MAX_SERVER_BULLETS.

(** The counters agree with the occupied flags. *)
Definition players_counted (s : GameServer) : Prop :=
  player_count s = Z.of_nat (count_if p_occupied (players s)).

Definition bullets_counted (s : GameServer) : Prop :=
  bullet_count s = Z.of_nat (count_if b_occupied (bullets s)).

Definition server_inv (s : GameServer) : Prop :=
  players_counted s /\ bullets_counted s.

(** Bytes handed to [net_send_all] for one socket, in order. *)
Definition sent_to (sock : Z) (evs : list event) : list Z :=
  flat_map (fun e => match e with
                     | EvSend s data => if s =? sock then data else []
                     | _ => []
                     end) evs.

(** The messages handed to [net_send_all], whoever the recipient. *)
Definition sends (evs : list event) : list (Z * list Z) :=
  flat_map (fun e => match e with
                     | EvSend s data => [(s, data)]
                     | _ => []
                     end) evs.

(** A byte string is one framed message for a reader of byte order [bo]:
    three header bytes, then exactly as many bytes as the header's length
    field announces. *)
Definition framed (bo : byte_order) (msg : list Z) : Prop :=
  (3 <= length msg)%nat /\
  h_length (MessageHeader_of_bytes bo (take 3 msg)) = Z.of_nat (length msg) - 3.



(** Slots whose projectile goes into the snapshot: the occupied slots in
    index order, cut at the cap. *)
Definition occupied_bullet_slots (s : GameServer) : list nat :=
  List.filter (fun i => b_occupied (bullet_at s i)) (seq 0 MAX_SERVER_BULLETS).

Definition synced_bullet_slots (s : GameServer) : list nat :=
  take (Z.to_nat MAX_SYNC_BULLETS) (occupied_bullet_slots s).

Definition occupied_player_slots (s : GameServer) : list nat :=
  List.filter (fun i => p_occupied (player_at s i)) (seq 0 MAX_PLAYERS).

(** The snapshot message for a recipient whose last accepted sequence is
    [your_sequence]: header, fixed part, one record per occupied player
    slot, one record per synced projectile slot. *)
Definition snapshot_message (bo : byte_order) (s : GameServer) (your_sequence : Z)
  : list Z :=
  let ps := occupied_player_slots s in
  let bs := synced_bullet_slots s in
  let state_size := sizeof_GameStateMsg +
                    Z.of_nat (length ps) * sizeof_PlayerState +
                    Z.of_nat (length bs) * sizeof_BulletState in
  bytes_of_MessageHeader bo {| h_type := MSG_GAME_STATE; h_length := state_size |} ++
  bytes_of_GameStateMsg bo {| gs_tick := tick s; gs_your_sequence := your_sequence;
                              gs_player_count := Z.of_nat (length ps);
                              gs_bullet_count := Z.of_nat (length bs) |} ++
  flat_map (fun i => bytes_of_PlayerState bo (player_state_of i (player_at s i))) ps ++
  flat_map (fun i => bytes_of_BulletState bo (bullet_state_of (bullet_at s i))) bs.

(** A projectile is older than another when less of its lifetime is left:
    every projectile starts at [BULLET_LIFETIME] and loses [dt] per tick. *)
Definition older (b1 b2 : ServerBullet) : bool :=
  f32_ltb (b_lifetime b1) (b_lifetime b2).

(** Some projectile slot is free. *)
Definition has_free_bullet (s : GameServer) : Prop :=
  exists j b, bullets s !! j = Some b /\ b_occupied b = false.

(** A projectile appeared between two states: a slot went from free to
    occupied. *)
Definition spawned (s s' : GameServer) : Prop :=
  exists j, (j < MAX_SERVER_BULLETS)%nat /\
            b_occupied (bullet_at s j) = false /\
            b_occupied (bullet_at s' j) = true.

(* ===================================================================== *)
(** * Hypotheses on the environment and sample states *)
(* ===================================================================== *)

(** A transport that, offered at least one byte, either takes between one
    and all of the offered bytes or fails with [EINTR]. *)
Definition well_behaved (send : send_fn) : Prop :=
  forall call offered, offered <> [] ->
    (1 <= fst (send call offered) <= Z.of_nat (length offered)) \/
    ((fst (send call offered) < 0) /\ (snd (send call offered) = EINTR)).

(** From call number [e] on the transport is no longer interrupted. *)
Definition quiet_from (e : nat) (send : send_fn) : Prop :=
  forall call offered, (e <= call)%nat -> 0 <= fst (send call offered).



Definition sample_remote (id : Z) : RemotePlayer :=
  {| rp_active := 0; rp_id := id; rp_x := f32_zero; rp_y := f32_zero;
     rp_vx := f32_zero; rp_vy := f32_zero; rp_health := 100; rp_weapon := 0 |}.

Definition sample_shared : SharedState :=
  {| ss_status := NET_CONNECTED; ss_status_message := "Connected!";
     ss_my_id := 0; ss_players := replicate 4 (sample_remote 9);
     ss_player_count := 0; ss_server_tick := 0;
     ss_bullets := replicate 50 (mkRemoteBullet 0 0 f32_zero f32_zero f32_zero f32_zero 0);
     ss_bullet_count := 0; ss_input_to_send := 0; ss_weapon_type := 0;
     ss_input_sequence := 0; ss_ping_ms := f32_zero;
     ss_packets_received := 0; ss_packets_sent := 0 |}.

Definition sample_player (sock : Z) : ServerPlayer :=
  {| p_active := 1; p_socket := sock; p_name := name_default 0;
     p_addr := 0;
     p_x := f32_lit 1000 1; p_y := f32_lit 4000 1;
     p_vx := f32_zero; p_vy := f32_zero;
     p_health := 100; p_weapon := 0; p_input_flags := 0; p_last_sequence := 0;
     p_fire_cooldown := f32_zero |}.

(** One client connected in slot 0, no projectile in flight. *)
Definition one_player_server : GameServer :=
  {| listen_socket := 3;
     players := sample_player 10 :: replicate 3 zero_player;
     player_count := 1; tick := 0;
     bullets := replicate MAX_SERVER_BULLETS zero_bullet;
     bullet_count := 0 |}.

Definition input_with_sequence (q : Z) : PlayerInputMsg :=
  {| pi_player_id := 0; pi_input_flags := INPUT_FIRE; pi_weapon_type := WEAPON_TYPE_RAPID;
     pi_sequence := q |}.

(** A connect attempt announcing protocol version 2. *)
Definition stale_client : Incoming :=
  {| inc_socket := 11; inc_addr := 0;
     inc_header := (3, {| h_type := MSG_CONNECT; h_length := 17 |});
     inc_connect := (17, {| cm_version := 2; cm_name := replicate 16 0 |}) |}.

(** How far each counter is from the number of occupied slots of its
    table. The counters are right when both distances are zero. *)
Definition player_excess (s : GameServer) : Z :=
  player_count s - Z.of_nat (count_if p_occupied (players s)).

Definition bullet_excess (s : GameServer) : Z :=
  bullet_count s - Z.of_nat (count_if b_occupied (bullets s)).

(** What a spawn attempt may do to the server: the player table is left
    alone, occupied projectile slots stay occupied, a projectile appears
    when a slot is free, and nothing happens when none is. *)
Definition spawn_like (s s' : GameServer) : Prop :=
  players s' = players s /\
  player_count s' = player_count s /\
  (server_wf s -> server_wf s') /\
  (server_wf s -> bullet_excess s' = bullet_excess s) /\
  (forall k, b_occupied (bullet_at s k) = true -> b_occupied (bullet_at s' k) = true) /\
  (server_wf s -> has_free_bullet s -> spawned s s') /\
  (server_wf s -> ~ has_free_bullet s -> s' = s).

(** A client in slot 0 holding the fire button with the rapid weapon. *)
Definition rapid_fire_server : GameServer :=
  {| listen_socket := 3;
     players := p_store_input (input_with_sequence 1) (sample_player 10)
                :: replicate 3 zero_player;
     player_count := 1; tick := 0;
     bullets := replicate MAX_SERVER_BULLETS zero_bullet;
     bullet_count := 0 |}.

Definition live_bullet (y lifetime : f32) : ServerBullet :=
  {| b_active := 1; b_owner_id := 0;
     b_x := f32_lit 1000 1; b_y := y;
     b_vx := f32_zero; b_vy := f32_neg RAPID_BULLET_SPEED;
     b_weapon_type := WEAPON_TYPE_RAPID; b_lifetime := lifetime |}.

(** The same client when every projectile slot is taken. *)
Definition crowded_server : GameServer :=
  {| listen_socket := 3;
     players := p_store_input (input_with_sequence 1) (sample_player 10)
                :: replicate 3 zero_player;
     player_count := 1; tick := 0;
     bullets := replicate MAX_SERVER_BULLETS (live_bullet (f32_lit 3000 1) (f32_lit 10 1));
     bullet_count := 200 |}.

(** A libm stand-in for closed examples that never reach the spread fan. *)
Definition no_trig (x : f32) : f32 := x.

(** An operation keeps the array lengths and moves each counter together
    with its table. *)
Definition preserves (s s' : GameServer) : Prop :=
  (server_wf s -> server_wf s') /\
  (server_wf s -> player_excess s' = player_excess s) /\
  (server_wf s -> bullet_excess s' = bullet_excess s).

(** The copy of the snapshot addressed to the client in slot [i]. *)
Definition recipient_message (bo : byte_order) (s : GameServer) (i : nat) : list Z :=
  snapshot_message bo s (p_last_sequence (player_at s i)).

(** The send to the client in slot [i] fails. *)
Definition send_failed (bo : byte_order) (send_result : Z -> list Z -> Z)
    (s : GameServer) (i : nat) : bool :=
  p_occupied (player_at s i) &&
  (send_result (p_socket (player_at s i)) (recipient_message bo s i) <? 0).

(** What the broadcast does for slot [i]. *)
Definition broadcast_slot_events (bo : byte_order) (send_result : Z -> list Z -> Z)
    (s : GameServer) (i : nat) : list event :=
  if p_occupied (player_at s i) then
    EvSend (p_socket (player_at s i)) (recipient_message bo s i) ::
    (if send_result (p_socket (player_at s i)) (recipient_message bo s i) <? 0
     then [EvPrintf "Failed to send state to player %d, disconnecting" [PInt (Z.of_nat i)];
           EvClose (p_socket (player_at s i))]
     else [])
  else [].

Definition broadcast_events (bo : byte_order) (send_result : Z -> list Z -> Z)
    (s : GameServer) : list event :=
  flat_map (broadcast_slot_events bo send_result s) (seq 0 MAX_PLAYERS).

(** The slot a failed send leaves behind. *)
Definition after_send (bo : byte_order) (send_result : Z -> list Z -> Z)
    (s : GameServer) (i : nat) (p : ServerPlayer) : ServerPlayer :=
  if send_failed bo send_result s i then p_set_active 0 p else p.

(** Two clients connected, in slots 0 and 1, on sockets 10 and 11. *)
Definition two_player_server : GameServer :=
  {| listen_socket := 3;
     players := sample_player 10 :: sample_player 11 :: replicate 2 zero_player;
     player_count := 2; tick := 7;
     bullets := replicate MAX_SERVER_BULLETS zero_bullet;
     bullet_count := 0 |}.

(** A network on which every send to socket 10 fails. *)
Definition socket_10_broken (sock : Z) (msg : list Z) : Z :=
  if sock =? 10 then -1 else Z.of_nat (length msg).

(** Fifty-one projectiles in flight in slots 0 to 50; the one in slot 0
    is about to leave through the top of the playfield. *)
Definition fifty_one_in_flight : GameServer :=
  {| listen_socket := 3;
     players := p_store_input (input_with_sequence 1) (sample_player 10)
                :: replicate 3 zero_player;
     player_count := 1; tick := 0;
     bullets := live_bullet (f32_lit 50 1) (f32_lit 15 1)
                :: replicate 50 (live_bullet (f32_lit 3000 1) (f32_lit 10 1))
                ++ replicate 149 zero_bullet;
     bullet_count := 51 |}.

(** Two ticks later: the projectile of slot 0 has left, and the next shot
    of the client has taken the freed slot. *)
Definition slot_reused : GameServer :=
  server_update_bullets
    (server_handle_firing no_trig no_trig
       (server_update_bullets fifty_one_in_flight tick_dt) tick_dt)
    tick_dt.

(** Oldest-first truncation: no projectile left out of the snapshot is
    older than one that is in it. *)
Definition oldest_first_truncation (s : GameServer) : Prop :=
  forall i j,
    In i (synced_bullet_slots s) ->
    In j (occupied_bullet_slots s) -> ~ In j (synced_bullet_slots s) ->
    older (bullet_at s j) (bullet_at s i) = false.

(** Storage of the [GameServer] local of [main] that holds leftovers in
    the projectile table. *)
Definition stale_stack : GameServer :=
  {| listen_socket := 0;
     players := replicate MAX_PLAYERS zero_player;
     player_count := 0; tick := 0;
     bullets := live_bullet (f32_lit 3000 1) (f32_lit 10 1)
                :: replicate 199 zero_bullet;
     bullet_count := 0 |}.


(* ===================================================================== *)
(** * Vocabulary of the further properties of server.c *)
(* ===================================================================== *)



(** What [server_update_physics] does to one slot. *)
Definition moved_slot (powf : f32 -> f32 -> f32) (dt : f32) (p : ServerPlayer)
  : ServerPlayer :=
  if p_occupied p then move_player powf dt p else p.

(** A position inside the playing field as the clamps of
    [server_update_physics] test it: none of the four comparisons that
    trigger a clamp holds. *)
Definition inside_field (x y : f32) : Prop :=
  f32_ltb x (f32_of_Z 32) = false /\ f32_gt x (f32_of_Z 768) = false /\
  f32_ltb y (f32_of_Z 32) = false /\ f32_gt y (f32_of_Z 568) = false.

(** The outcomes of the header [recv] for which
    [server_handle_client_message] gives the slot up. *)
Definition gives_up_slot (rd : ClientRead) : bool :=
  (rd_bytes rd =? 0) ||
  ((rd_bytes rd <? 0) && negb (errno_would_block (rd_errno rd))) ||
  ((rd_bytes rd =? sizeof_MessageHeader) && (h_type (rd_header rd) =? MSG_DISCONNECT)).

(** A connect attempt whose header and payload arrived whole and that
    announces the server's protocol version. *)
Definition valid_connect (inc : Incoming) : Prop :=
  inc_socket inc <> INVALID_SOCKET /\
  fst (inc_header inc) = sizeof_MessageHeader /\
  h_type (snd (inc_header inc)) = MSG_CONNECT /\
  fst (inc_connect inc) = sizeof_ConnectMsg /\
  cm_version (snd (inc_connect inc)) = PROTOCOL_VERSION.

(** The slot contents [server_accept_new_client] writes for a client
    admitted to slot [slot]. *)
Definition joined_player (slot : nat) (inc : Incoming) : ServerPlayer :=
  {| p_active := 1; p_socket := inc_socket inc;
     p_name := if negb (default 0 (cm_name (snd (inc_connect inc)) !! 0%nat) =? 0)
               then name_from_connect (cm_name (snd (inc_connect inc)))
               else name_default (Z.of_nat slot);
     p_addr := inc_addr inc;
     p_x := f32_add (f32_lit 1000 1)
                    (f32_mul (f32_of_Z (Z.of_nat slot)) (f32_lit 1500 1));
     p_y := f32_lit 4000 1;
     p_vx := f32_zero; p_vy := f32_zero;
     p_health := 100; p_weapon := 0;
     p_input_flags := 0; p_last_sequence := 0;
     p_fire_cooldown := f32_zero |}.

(** A well-formed connect request of a client that calls itself
    ["Player"]. *)
Definition player_connect (sock : Z) : Incoming :=
  {| inc_socket := sock; inc_addr := 0;
     inc_header := (3, {| h_type := MSG_CONNECT; h_length := 17 |});
     inc_connect := (17, {| cm_version := PROTOCOL_VERSION;
                            cm_name := [80; 108; 97; 121; 101; 114] ++ replicate 10 0 |}) |}.

(** Four clients connected, no projectile in flight. *)
Definition full_server : GameServer :=
  {| listen_socket := 3;
     players := [sample_player 10; sample_player 11; sample_player 12; sample_player 13];
     player_count := 4; tick := 0;
     bullets := replicate MAX_SERVER_BULLETS zero_bullet;
     bullet_count := 0 |}.

(** What the environment contributes to a turn in which nothing happens
    on the network: no connection attempt, no data from any client, a
    zero-filled block from [malloc], every send accepted whole. *)
Definition quiet_turn : TurnInput :=
  {| ti_incoming := {| inc_socket := INVALID_SOCKET; inc_addr := 0;
                       inc_header := (0, {| h_type := 0; h_length := 0 |});
                       inc_connect := (0, {| cm_version := 0; cm_name := [] |}) |};
     ti_reads := fun _ => {| rd_bytes := -1; rd_errno := EAGAIN;
                             rd_header := {| h_type := 0; h_length := 0 |};
                             rd_input := (0, input_with_sequence 0);
                             rd_ping := (0, {| ping_timestamp := 0 |}) |};
     ti_heap := Some (fun _ => 0);
     ti_send_result := fun _ msg => Z.of_nat (length msg) |}.

(** A turn in which a client connects on socket 10 and nothing else
    happens. *)
Definition joining_turn : TurnInput :=
  {| ti_incoming := player_connect 10;
     ti_reads := ti_reads quiet_turn;
     ti_heap := ti_heap quiet_turn;
     ti_send_result := ti_send_result quiet_turn |}.

(** The server on a little-endian host after start-up on [mem] and the
    given turns, with stand-ins for the three functions of [libm]. *)
Fixpoint run_turns (turns : list TurnInput) (st : GameServer * list Z)
  : option (GameServer * list Z) :=
  match turns with
  | [] => Some st
  | inp :: rest =>
      match main_turn LittleEndian (fun x => x) (fun x => x) (fun x _ => x)
                      (fst st) (snd st) inp with
      | Some (server', last_flags', _) => run_turns rest (server', last_flags')
      | None => None
      end
  end.

Definition started_on (mem : GameServer) : GameServer * list Z :=
  (fst (server_init mem SERVER_PORT 3), replicate MAX_PLAYERS 0).

(** The five tests of [server_update_bullets] that remove a projectile,
    on its lifetime and position. *)
Definition bullet_gone (lifetime x y : f32) : bool :=
  f32_leb lifetime (f32_of_Z 0) ||
  f32_ltb x (f32_of_Z 0) || f32_gt x (f32_of_Z GAME_WIDTH) ||
  f32_ltb y (f32_of_Z 0) || f32_gt y (f32_of_Z GAME_HEIGHT).

(** What [server_update_bullets] does to one slot. *)
Definition advance_bullet (dt : f32) (b : ServerBullet) : ServerBullet :=
  if b_occupied b then
    let x := f32_add (b_x b) (f32_mul (b_vx b) dt) in
    let y := f32_add (b_y b) (f32_mul (b_vy b) dt) in
    let lifetime := f32_sub (b_lifetime b) dt in
    {| b_active := if bullet_gone lifetime x y then 0 else b_active b;
       b_owner_id := b_owner_id b; b_x := x; b_y := y;
       b_vx := b_vx b; b_vy := b_vy b;
       b_weapon_type := b_weapon_type b; b_lifetime := lifetime |}
  else b.


(** A read that delivers a whole header of type [MSG_DISCONNECT]. *)
Definition disconnect_read : ClientRead :=
  {| rd_bytes := sizeof_MessageHeader; rd_errno := EOTHER 0;
     rd_header := {| h_type := MSG_DISCONNECT; h_length := 0 |};
     rd_input := (0, input_with_sequence 0);
     rd_ping := (0, {| ping_timestamp := 0 |}) |}.

(* ===================================================================== *)
(** * network.c: the partial-read loop *)
(* ===================================================================== *)

(** What the successive calls of [recv] on a socket meet, in order: bytes
    that have arrived, a signal that interrupts the call, nothing there
    yet, the orderly shutdown of the peer, a failure. *)
Inductive arrival :=
| Arrived (bytes : list Z)
| Interrupt
| NothingYet
| PeerClosed
| RecvError (code : Z).

(** One call [recv(socket, buf, n, 0)] for [n] at least one: the return
    value, the [errno] left behind, the bytes stored at [buf], and what
    later calls will meet. Bytes that arrived together and exceed [n]
    stay queued. When nothing is left to meet, a non-blocking socket
    answers would-block; on a blocking one the call does not return,
    which is [None]. *)
Fixpoint recv (nonblocking : bool) (pending : list arrival) (n : nat)
  : option (Z * errno * list Z * list arrival) :=
  match pending with
  | [] => if nonblocking then Some (-1, EAGAIN, [], []) else None
  | Arrived [] :: rest => recv nonblocking rest n
  | Arrived bytes :: rest =>
      if (length bytes <=? n)%nat
      then Some (Z.of_nat (length bytes), EOTHER 0, bytes, rest)
      else Some (Z.of_nat n, EOTHER 0, take n bytes, Arrived (drop n bytes) :: rest)
  | Interrupt :: rest => Some (-1, EINTR, [], rest)
  | NothingYet :: rest => Some (-1, EAGAIN, [], rest)
  | PeerClosed :: rest => Some (0, EOTHER 0, [], PeerClosed :: rest)
  | RecvError code :: rest => Some (-1, EOTHER code, [], rest)
  end.

(** The [while (total_received < length)] loop. [got] is what has been
    stored in the buffer from its start on. One unit of [fuel] is one
    iteration. *)
Fixpoint net_recv_all_loop (fuel : nat) (nonblocking : bool) (pending : list arrival)
    (length : Z) (total_received : Z) (got : list Z)
  : option (Z * list Z * list arrival) :=
  if total_received <? length then
    match fuel with
    | O => None
    | S fuel' =>
        match recv nonblocking pending (Z.to_nat (length - total_received)) with
        | None => None
        | Some (bytes_received, err, data, pending') =>
            if bytes_received <? 0 then
              if errno_is_EINTR err
              then net_recv_all_loop fuel' nonblocking pending' length total_received got
              else if errno_would_block err then Some (total_received, got, pending')
              else Some (-1, got, pending')
            else if bytes_received =? 0 then Some (total_received, got, pending')
            else net_recv_all_loop fuel' nonblocking pending' length
                   (total_received + bytes_received) (got ++ data)
        end
    end
  else Some (total_received, got, pending).

(** [net_recv_all(socket, buffer, length)]: the return value, the bytes
    stored at the start of [buffer], and what is left for later calls.
    Every iteration that does not end the loop uses up one arrival, so the
    loop is given one iteration more than there are arrivals; [None] is a
    call that never returns because the socket blocks. *)
Definition net_recv_all (nonblocking : bool) (pending : list arrival) (length : Z)
  : option (Z * list Z * list arrival) :=
  net_recv_all_loop (S (List.length pending)) nonblocking pending length 0 [].

(** A buffer that held [stale] before [got] was stored at its start. *)
Definition filled (stale got : list Z) : list Z :=
  got ++ drop (length got) stale.

(** The bytes a series of arrivals carries. *)
Definition bytes_of (pending : list arrival) : list Z :=
  flat_map (fun a => match a with Arrived bytes => bytes | _ => [] end) pending.

(** Arrivals that are data or interruptions only. *)
Definition flowing (pending : list arrival) : Prop :=
  Forall (fun a => match a with Arrived _ | Interrupt => True | _ => False end) pending.

(** A transport that never claims more than it was offered. *)
Definition honest (send : send_fn) : Prop :=
  forall call offered, fst (send call offered) <= Z.of_nat (length offered).

(** A transport that takes two bytes, then breaks. *)
Definition send_two_then_fail : send_fn :=
  fun call offered => match call with
                      | O => (Z.of_nat (Nat.min 2 (length offered)), EOTHER 0)
                      | _ => (-1, EOTHER 32)
                      end.

(* ===================================================================== *)
(** * Reading the packed structures back *)
(* ===================================================================== *)

(** The [float] whose object representation is the 32-bit pattern [b]. *)
Definition f32_of_bits (b : Z) : f32 :=
  let s := 2147483648 <=? b in
  let e := (b / 8388608) mod 256 in
  let m := b mod 8388608 in
  if e =? 0 then
    if m =? 0 then S754_zero s else S754_finite s (Z.to_pos m) (-149)
  else if e =? 255 then
    if m =? 0 then S754_infinity s else S754_nan
  else S754_finite s (Z.to_pos (m + 8388608)) (e - 150).

Definition load_f32 (bo : byte_order) (bs : list Z) : f32 :=
  f32_of_bits (load_int bo bs).

Definition GameStateMsg_of_bytes (bo : byte_order) (bs : list Z) : GameStateMsg :=
  {| gs_tick := load_int bo (take 4 bs);
     gs_your_sequence := load_int bo (take 4 (drop 4 bs));
     gs_player_count := load_int bo (take 1 (drop 8 bs));
     gs_bullet_count := load_int bo (take 1 (drop 9 bs)) |}.

Definition PlayerState_of_bytes (bo : byte_order) (bs : list Z) : PlayerState :=
  {| ps_player_id := load_int bo (take 1 bs);
     ps_x := load_f32 bo (take 4 (drop 1 bs));
     ps_y := load_f32 bo (take 4 (drop 5 bs));
     ps_vx := load_f32 bo (take 4 (drop 9 bs));
     ps_vy := load_f32 bo (take 4 (drop 13 bs));
     ps_health := i16 (load_int bo (take 2 (drop 17 bs)));
     ps_weapon := load_int bo (take 1 (drop 19 bs));
     ps_flags := load_int bo (take 1 (drop 20 bs)) |}.

Definition BulletState_of_bytes (bo : byte_order) (bs : list Z) : BulletState :=
  {| bs_owner_id := load_int bo (take 1 bs);
     bs_x := load_f32 bo (take 4 (drop 1 bs));
     bs_y := load_f32 bo (take 4 (drop 5 bs));
     bs_vx := load_f32 bo (take 4 (drop 9 bs));
     bs_vy := load_f32 bo (take 4 (drop 13 bs));
     bs_weapon_type := load_int bo (take 1 (drop 17 bs)) |}.

Definition ConnectMsg_of_bytes (bo : byte_order) (bs : list Z) : ConnectMsg :=
  {| cm_version := load_int bo (take 1 bs);
     cm_name := take 16 (drop 1 bs) |}.

Definition ConnectAckMsg_of_bytes (bo : byte_order) (bs : list Z) : ConnectAckMsg :=
  {| ack_success := load_int bo (take 1 bs);
     ack_player_id := load_int bo (take 1 (drop 1 bs));
     ack_reason := load_int bo (take 1 (drop 2 bs)) |}.


(* ===================================================================== *)
(** * shared_state.c: the remaining operations *)
(* ===================================================================== *)

Definition with_status (status : NetworkStatus) (message : string) (state : SharedState)
  : SharedState :=
  {| ss_status := status; ss_status_message := message;
     ss_my_id := ss_my_id state; ss_players := ss_players state;
     ss_player_count := ss_player_count state; ss_server_tick := ss_server_tick state;
     ss_bullets := ss_bullets state; ss_bullet_count := ss_bullet_count state;
     ss_input_to_send := ss_input_to_send state; ss_weapon_type := ss_weapon_type state;
     ss_input_sequence := ss_input_sequence state; ss_ping_ms := ss_ping_ms state;
     ss_packets_received := ss_packets_received state;
     ss_packets_sent := ss_packets_sent state |}.

Definition with_my_id (id : Z) (state : SharedState) : SharedState :=
  {| ss_status := ss_status state; ss_status_message := ss_status_message state;
     ss_my_id := id; ss_players := ss_players state;
     ss_player_count := ss_player_count state; ss_server_tick := ss_server_tick state;
     ss_bullets := ss_bullets state; ss_bullet_count := ss_bullet_count state;
     ss_input_to_send := ss_input_to_send state; ss_weapon_type := ss_weapon_type state;
     ss_input_sequence := ss_input_sequence state; ss_ping_ms := ss_ping_ms state;
     ss_packets_received := ss_packets_received state;
     ss_packets_sent := ss_packets_sent state |}.

Definition with_remote_bullets (bs : list RemoteBullet) (count : Z) (state : SharedState)
  : SharedState :=
  {| ss_status := ss_status state; ss_status_message := ss_status_message state;
     ss_my_id := ss_my_id state; ss_players := ss_players state;
     ss_player_count := ss_player_count state; ss_server_tick := ss_server_tick state;
     ss_bullets := bs; ss_bullet_count := count;
     ss_input_to_send := ss_input_to_send state; ss_weapon_type := ss_weapon_type state;
     ss_input_sequence := ss_input_sequence state; ss_ping_ms := ss_ping_ms state;
     ss_packets_received := ss_packets_received state;
     ss_packets_sent := ss_packets_sent state |}.

Definition zero_remote_player : RemotePlayer :=
  {| rp_active := 0; rp_id := 0; rp_x := f32_zero; rp_y := f32_zero;
     rp_vx := f32_zero; rp_vy := f32_zero; rp_health := 0; rp_weapon := 0 |}.

Definition zero_remote_bullet : RemoteBullet :=
  {| rb_active := 0; rb_owner_id := 0; rb_x := f32_zero; rb_y := f32_zero;
     rb_vx := f32_zero; rb_vy := f32_zero; rb_weapon_type := 0 |}.

(** [shared_state_init(state)] on a structure that exists: [memset] to
    zero, the mutex, the initial status. [mutex_ok] tells whether
    [pthread_mutex_init] succeeded. Returns the structure and the
    status. *)
Definition shared_state_init (mutex_ok : bool) : SharedState * Z :=
  let zeroed :=
    {| ss_status := NET_DISCONNECTED; ss_status_message := "";
       ss_my_id := 0;
       ss_players := replicate MAX_PLAYERS zero_remote_player;
       ss_player_count := 0; ss_server_tick := 0;
       ss_bullets := replicate MAX_REMOTE_BULLETS zero_remote_bullet;
       ss_bullet_count := 0;
       ss_input_to_send := 0; ss_weapon_type := 0; ss_input_sequence := 0;
       ss_ping_ms := f32_zero; ss_packets_received := 0; ss_packets_sent := 0 |} in
  if mutex_ok then (with_status NET_DISCONNECTED "Not connected" zeroed, 0)
  else (zeroed, -1).

(** [shared_state_set_status(state, status, message)]: [message = None]
    is the NULL pointer. [strncpy] takes at most 63 characters and the
    last byte of the 64-byte field is set to zero. *)
Definition shared_state_set_status (state : SharedState) (status : NetworkStatus)
    (message : option string) : SharedState :=
  with_status status
    match message with
    | Some m => substring 0 63 m
    | None => ss_status_message state
    end state.

Definition remote_player_at (state : SharedState) (i : nat) : RemotePlayer :=
  default zero_remote_player (ss_players state !! i).

(** [shared_state_get_my_position(state, &x, &y, &vx, &vy)] with four
    non-NULL pointers: the return value and the contents of the four
    variables afterwards, [out] being their contents before. *)
Definition shared_state_get_my_position (state : SharedState) (out : f32 * f32 * f32 * f32)
  : Z * (f32 * f32 * f32 * f32) :=
  let my_id := ss_my_id state in
  match first_free (fun i => truthy (rp_active (remote_player_at state i)) &&
                             (rp_id (remote_player_at state i) =? my_id))
                   0 MAX_PLAYERS with
  | Some i =>
      let p := remote_player_at state i in
      (1, (rp_x p, rp_y p, rp_vx p, rp_vy p))
  | None => (0, out)
  end.

Definition rb_set_active (v : Z) (b : RemoteBullet) : RemoteBullet :=
  {| rb_active := v; rb_owner_id := rb_owner_id b; rb_x := rb_x b; rb_y := rb_y b;
     rb_vx := rb_vx b; rb_vy := rb_vy b; rb_weapon_type := rb_weapon_type b |}.

(** [state->bullets[i].active = v]; the slot must exist. *)
Definition bullets_set_active (i : nat) (v : Z) (bs : list RemoteBullet)
  : option (list RemoteBullet) :=
  match bs !! i with
  | Some b => array_set bs i (rb_set_active v b)
  | None => None
  end.

(** [state->bullets[i] = bullets[i]; state->bullets[i].active = 1]. *)
Definition bullets_copy_in (src : list RemoteBullet) (i : nat) (bs : list RemoteBullet)
  : option (list RemoteBullet) :=
  match src !! i with
  | Some b => array_set bs i (rb_set_active 1 b)
  | None => None
  end.

(** [shared_state_update_bullets(state, bullets, count)] on a state that
    exists; [bullets = None] is the NULL pointer; [None] as a result is
    an access outside an array. *)
Definition shared_state_update_bullets (state : SharedState)
    (bullets : option (list RemoteBullet)) (count : Z) : option SharedState :=
  match bullets with
  | None => Some state
  | Some src =>
      cleared ← for_from_opt (fun i => bullets_set_active i 0) 0 MAX_REMOTE_BULLETS
                             (ss_bullets state);
      let copied := if count >? Z.of_nat MAX_REMOTE_BULLETS
                    then Z.of_nat MAX_REMOTE_BULLETS else count in
      bs ← for_from_opt (bullets_copy_in src) 0 (Z.to_nat copied) cleared;
      Some (with_remote_bullets bs copied state)
  end.

Definition shared_state_copy_bullets (state : SharedState) : list RemoteBullet * Z :=
  (ss_bullets state, ss_bullet_count state).

(* ===================================================================== *)
(** * network_client.c: the network thread *)
(* ===================================================================== *)

(** The characters of a string as [printf] gets them for [%s]. *)
Fixpoint chars (s : string) : list Z :=
  match s with
  | EmptyString => []
  | String a r => Z.of_N (Ascii.N_of_ascii a) :: chars r
  end.

Record NetworkClient := mkNetworkClient {
  nc_running : Z;        (* volatile int *)
  nc_socket : Z;         (* int *)
  nc_host : string;      (* char[64] *)
  nc_port : Z;           (* uint16_t *)
  nc_player_id : Z       (* uint8_t *)
}.

Definition stopped (socket : Z) (client : NetworkClient) : NetworkClient :=
  {| nc_running := 0; nc_socket := socket; nc_host := nc_host client;
     nc_port := nc_port client; nc_player_id := nc_player_id client |}.

Definition RemotePlayer_of_state (ps : PlayerState) : RemotePlayer :=
  {| rp_active := 1; rp_id := ps_player_id ps;
     rp_x := ps_x ps; rp_y := ps_y ps; rp_vx := ps_vx ps; rp_vy := ps_vy ps;
     rp_health := ps_health ps; rp_weapon := ps_weapon ps |}.

Definition RemoteBullet_of_state (bs : BulletState) : RemoteBullet :=
  {| rb_active := 1; rb_owner_id := bs_owner_id bs;
     rb_x := bs_x bs; rb_y := bs_y bs; rb_vx := bs_vx bs; rb_vy := bs_vy bs;
     rb_weapon_type := bs_weapon_type bs |}.

Section NetworkThread.

(** Byte order of the machine the client runs on. *)
Variable host : byte_order.

(** One [recv] on the socket once it is non-blocking: such a call always
    returns. *)
Definition recv_now (pending : list arrival) (n : nat) : Z * errno * list Z * list arrival :=
  default (-1, EAGAIN, [], []) (recv true pending n).

(** The loop that receives the player records: [count] iterations unless
    a record does not arrive whole, which clears [all_received] and
    leaves the loop. [players] are the entries of the local array filled
    so far; the entries behind them are indeterminate. *)
Fixpoint receive_players (count : nat) (pending : list arrival) (players : list RemotePlayer)
  : bool * list RemotePlayer * list arrival :=
  match count with
  | O => (true, players, pending)
  | S k =>
      let '(ps_bytes, _, data, pending') := recv_now pending (Z.to_nat sizeof_PlayerState) in
      if ps_bytes =? sizeof_PlayerState
      then receive_players k pending'
             (players ++ [RemotePlayer_of_state (PlayerState_of_bytes host data)])
      else (false, players, pending')
  end.

Fixpoint receive_bullets (count : nat) (pending : list arrival) (bullets : list RemoteBullet)
  : bool * list RemoteBullet * list arrival :=
  match count with
  | O => (true, bullets, pending)
  | S k =>
      let '(bs_bytes, _, data, pending') := recv_now pending (Z.to_nat sizeof_BulletState) in
      if bs_bytes =? sizeof_BulletState
      then receive_bullets k pending'
             (bullets ++ [RemoteBullet_of_state (BulletState_of_bytes host data)])
      else (false, bullets, pending')
  end.

(** The [case MSG_GAME_STATE] of the receive switch: the bridge
    afterwards, what is left on the socket, and what was printed. [None]
    is an access outside an array. *)
Definition receive_game_state (shared : SharedState) (pending : list arrival)
  : option (SharedState * list arrival * list event) :=
  let '(state_bytes, _, data, pending1) :=
    recv_now pending (Z.to_nat sizeof_GameStateMsg) in
  if negb (state_bytes =? sizeof_GameStateMsg) then
    Some (shared, pending1,
          if state_bytes >? 0
          then [EvPrintf "DEBUG: Partial GameStateMsg: got %d, expected %lu"
                         [PInt state_bytes; PInt sizeof_GameStateMsg]]
          else [])
  else
    let state_hdr := GameStateMsg_of_bytes host data in
    let player_count := if gs_player_count state_hdr >? Z.of_nat MAX_PLAYERS
                        then Z.of_nat MAX_PLAYERS else gs_player_count state_hdr in
    let '(all_received, players, pending2) :=
      receive_players (Z.to_nat player_count) pending1 [] in
    let bullet_count := if gs_bullet_count state_hdr >? Z.of_nat MAX_REMOTE_BULLETS
                        then Z.of_nat MAX_REMOTE_BULLETS else gs_bullet_count state_hdr in
    let '(all_received, bullets, pending3) :=
      if all_received then receive_bullets (Z.to_nat bullet_count) pending2 []
      else (false, [], pending2) in
    if all_received then
      shared1 ← shared_state_update_players shared (Some players) player_count
                                            (gs_tick state_hdr);
      shared2 ← shared_state_update_bullets shared1 (Some bullets) bullet_count;
      Some (shared2, pending3, [])
    else Some (shared, pending3, []).

(** One turn of [while (client->running)]: receive, then, unless the loop
    was left, send the input and sleep. *)
Definition network_turn (client : NetworkClient) (shared : SharedState)
    (pending : list arrival)
  : option (NetworkClient * SharedState * list arrival * list event) :=
  let '(bytes, err, data, pending1) := recv_now pending (Z.to_nat sizeof_MessageHeader) in
  if bytes =? sizeof_MessageHeader then
    let msg_header := MessageHeader_of_bytes host data in
    '(shared1, pending2, ev1) ←
      (if h_type msg_header =? MSG_GAME_STATE then receive_game_state shared pending1
       else if (0 <? h_length msg_header) && (h_length msg_header <? BUFFER_SIZE) then
         let '(_, _, _, pending2) := recv_now pending1 (Z.to_nat (h_length msg_header)) in
         Some (shared, pending2, [])
       else Some (shared, pending1, []));
    let '(shared2, ev2) :=
      thread_send_input host (nc_socket client) (nc_player_id client) shared1 in
    Some (client, shared2, pending2, ev1 ++ ev2)
  else if bytes =? 0 then
    Some (stopped (nc_socket client) client,
          shared_state_set_status shared NET_DISCONNECTED (Some "Server closed"%string),
          pending1,
          [EvPrintf "DEBUG: Server closed connection (recv returned 0)" []])
  else if (bytes <? 0) && negb (errno_would_block err) then
    Some (stopped (nc_socket client) client,
          shared_state_set_status shared NET_ERROR (Some "Connection error"%string),
          pending1,
          [EvPrintf "DEBUG: recv error: %s (errno=%d)" [PErrno err; PErrno err]])
  else
    let '(shared2, ev2) :=
      thread_send_input host (nc_socket client) (nc_player_id client) shared in
    Some (client, shared2, pending1, ev2).

(** What stops the thread during the handshake: the status and message
    left on the bridge, the socket closed when there is one. *)
Definition hang_up (client : NetworkClient) (shared : SharedState) (message : string)
    (pending : list arrival) (evs : list event)
  : NetworkClient * SharedState * list arrival * list event :=
  (stopped (-1) client, shared_state_set_status shared NET_ERROR (Some message),
   pending, evs ++ [EvClose (nc_socket client)]).

(** [network_thread_func] up to its main loop. [socket] is what
    [net_connect_to_server] returns, [sent1] and [sent2] what the two
    [net_send_all] calls of the connect request return, [stale_header]
    and [stale_ack] what the two receive buffers hold before they are
    written, [pending] what arrives on the still blocking socket.
    [None] is a read that never returns. *)
Definition network_connect (client : NetworkClient) (shared : SharedState)
    (socket sent1 sent2 : Z) (stale_header stale_ack : list Z) (pending : list arrival)
  : option (NetworkClient * SharedState * list arrival * list event) :=
  let log0 := [EvPrintf "DEBUG: Network thread starting, connecting to %s:%d"
                        [PStr (chars (nc_host client)); PInt (nc_port client)]] in
  let shared := shared_state_set_status shared NET_CONNECTING (Some "Connecting..."%string) in
  if socket <? 0 then
    Some ({| nc_running := 0; nc_socket := socket; nc_host := nc_host client;
             nc_port := nc_port client; nc_player_id := nc_player_id client |},
          shared_state_set_status shared NET_ERROR (Some "Failed to connect"%string),
          pending,
          log0 ++ [EvPrintf "DEBUG: Failed to connect to server" []])
  else
    let client := {| nc_running := nc_running client; nc_socket := socket;
                     nc_host := nc_host client; nc_port := nc_port client;
                     nc_player_id := nc_player_id client |} in
    let log1 :=
      log0 ++ [EvPrintf "DEBUG: TCP connection established, socket=%d" [PInt socket];
               EvPrintf "DEBUG: Sending MSG_CONNECT (header=%lu bytes, payload=%lu bytes)"
                        [PInt sizeof_MessageHeader; PInt sizeof_ConnectMsg]]
           ++ send_connect_request host socket
           ++ [EvPrintf "DEBUG: Sent header=%d, payload=%d" [PInt sent1; PInt sent2]] in
    if (sent1 <? 0) || (sent2 <? 0) then
      Some (hang_up client shared "Failed to send connect"%string pending
                    (log1 ++ [EvPrintf "DEBUG: Failed to send connect message" []]))
    else
      let log2 := log1 ++ [EvPrintf "DEBUG: Waiting for MSG_CONNECT_ACK..." []] in
      '(recv_bytes, got, pending1) ← net_recv_all false pending sizeof_MessageHeader;
      let ack_header := MessageHeader_of_bytes host (filled stale_header got) in
      let log3 :=
        log2 ++ [EvPrintf "DEBUG: Received ack_header: %d bytes (expected %lu), type=%d"
                          [PInt recv_bytes; PInt sizeof_MessageHeader;
                           PInt (h_type ack_header)]] in
      if negb (recv_bytes =? sizeof_MessageHeader) then
        Some (hang_up client shared "No response from server"%string pending1
                      (log3 ++ [EvPrintf "DEBUG: Failed to receive ack header" []]))
      else if negb (h_type ack_header =? MSG_CONNECT_ACK) then
        Some (hang_up client shared "Unexpected response"%string pending1
                      (log3 ++ [EvPrintf "DEBUG: Unexpected message type: %d (expected %d)"
                                         [PInt (h_type ack_header); PInt MSG_CONNECT_ACK]]))
      else
        '(recv_bytes, got, pending2) ← net_recv_all false pending1 sizeof_ConnectAckMsg;
        let ack := ConnectAckMsg_of_bytes host (filled stale_ack got) in
        let log4 :=
          log3 ++ [EvPrintf
                     "DEBUG: Received ack payload: %d bytes (expected %lu), success=%d, player_id=%d"
                     [PInt recv_bytes; PInt sizeof_ConnectAckMsg;
                      PInt (ack_success ack); PInt (ack_player_id ack)]] in
        if negb (recv_bytes =? sizeof_ConnectAckMsg) then
          Some (hang_up client shared "Incomplete ACK"%string pending2
                        (log4 ++ [EvPrintf "DEBUG: Failed to receive ack payload" []]))
        else if negb (truthy (ack_success ack)) then
          let reason := if ack_reason ack =? 0 then "Server full"%string
                        else "Version mismatch"%string in
          Some (hang_up client shared reason pending2
                        (log4 ++ [EvPrintf "DEBUG: Connection rejected: %s"
                                           [PStr (chars reason)]]))
        else
          let client := {| nc_running := nc_running client; nc_socket := socket;
                           nc_host := nc_host client; nc_port := nc_port client;
                           nc_player_id := ack_player_id ack |} in
          let shared := with_my_id (ack_player_id ack) shared in
          let shared := shared_state_set_status shared NET_CONNECTED (Some "Connected!"%string) in
          Some (client, shared, pending2,
                log4 ++ [EvPrintf "DEBUG: Successfully connected as player %d"
                                  [PInt (ack_player_id ack)]]).

End NetworkThread.

(* ===================================================================== *)
(** * server.c: the reads of the intake, on a stream *)
(* ===================================================================== *)

Section ServerReads.

Variable host : byte_order.

(** The two [net_recv_all] calls of [server_accept_new_client] on the
    accepted socket, on which [pending] arrives: the second one is made
    only when the first delivered a whole header of type [MSG_CONNECT].
    A buffer counts only when it was filled whole. [None] is a read that
    never returns. *)
Definition accept_reads (nonblocking : bool) (socket addr : Z) (pending : list arrival)
  : option (Incoming * list arrival) :=
  '(n_header, got, pending1) ← net_recv_all nonblocking pending sizeof_MessageHeader;
  let connect_header := MessageHeader_of_bytes host got in
  if (n_header =? sizeof_MessageHeader) && (h_type connect_header =? MSG_CONNECT) then
    '(n_connect, got, pending2) ← net_recv_all nonblocking pending1 sizeof_ConnectMsg;
    Some ({| inc_socket := socket; inc_addr := addr;
             inc_header := (n_header, connect_header);
             inc_connect := (n_connect, ConnectMsg_of_bytes host got) |}, pending2)
  else
    Some ({| inc_socket := socket; inc_addr := addr;
             inc_header := (n_header, connect_header);
             inc_connect := (0, ConnectMsg_of_bytes host []) |}, pending1).

(** [server_accept_new_client] when [net_accept_client] returns [socket]
    and [pending] arrives on it; nothing is read when no client was
    waiting. *)
Definition server_accept_on (nonblocking : bool) (server : GameServer) (socket addr : Z)
    (pending : list arrival) : option (GameServer * list event * list arrival) :=
  if socket =? INVALID_SOCKET then Some (server, [], pending)
  else
    '(inc, pending') ← accept_reads nonblocking socket addr pending;
    let '(server', evs) := server_accept_new_client host server inc in
    Some (server', evs, pending').



End ServerReads.

(* ===================================================================== *)
(** * client.c: the command-line client *)
(* ===================================================================== *)

Record ClientState := mkClientState {
  cl_socket : Z;                   (* Socket *)
  cl_player_id : Z;                (* uint8_t *)
  cl_sequence : Z;                 (* uint32_t *)
  cl_players : list PlayerState;   (* PlayerState[MAX_CLIENTS] *)
  cl_player_count : Z;             (* int *)
  cl_last_tick : Z;                (* uint32_t *)
  cl_input_flags : Z               (* uint8_t *)
}.

(** One pass of the [switch] of [client_handle_input] for the character
    [c]: the flags gathered so far and [g_running]. *)
Definition key_pressed (st : Z * bool) (c : Z) : Z * bool :=
  let '(new_flags, running) := st in
  if (c =? 119) || (c =? 87) then (Z.lor new_flags INPUT_UP, running)
  else if (c =? 115) || (c =? 83) then (Z.lor new_flags INPUT_DOWN, running)
  else if (c =? 97) || (c =? 65) then (Z.lor new_flags INPUT_LEFT, running)
  else if (c =? 100) || (c =? 68) then (Z.lor new_flags INPUT_RIGHT, running)
  else if c =? 32 then (Z.lor new_flags INPUT_FIRE, running)
  else if (c =? 113) || (c =? 81) then (new_flags, false)
  else if c =? 27 then (new_flags, false)
  else (new_flags, running).

(** [client_handle_input] when the terminal holds the characters [keys]:
    the new [input_flags] and [g_running]. *)
Definition client_handle_input (keys : list Z) (running : bool) : Z * bool :=
  fold_left key_pressed keys (0, running).

Section CommandLineClient.

Variable host : byte_order.

(** The loop of [client_receive_state] over the player records, from
    index [i] on for [n] iterations: each record is read into its slot of
    [players], over what the slot held (a slot into which no byte was
    stored is left alone); a read that returns nothing or fails ends the
    function with -1. *)
Fixpoint receive_states (n i : nat) (players : list PlayerState) (pending : list arrival)
  : option (bool * list PlayerState * list arrival) :=
  match n with
  | O => Some (true, players, pending)
  | S k =>
      '(r, got, pending') ← net_recv_all true pending sizeof_PlayerState;
      old ← players !! i;
      let players' :=
        match got with
        | [] => players
        | _ => <[i := PlayerState_of_bytes host
                         (filled (bytes_of_PlayerState host old) got)]> players
        end in
      if r <=? 0 then Some (false, players', pending')
      else receive_states k (S i) players' pending'
  end.

(** [client_receive_state(client)]: [readable] is the verdict of
    [select]; [stale_header] and [stale_state] are what the two local
    buffers hold before they are written. Returns the client and the
    return value. *)
Definition client_receive_state (client : ClientState) (readable : bool)
    (stale_header stale_state : list Z) (pending : list arrival)
  : option (ClientState * Z * list arrival * list event) :=
  if negb readable then Some (client, 0, pending, [])
  else
    '(bytes, got, pending1) ← net_recv_all true pending sizeof_MessageHeader;
    if bytes <=? 0 then
      Some (client, -1, pending1, [EvPrintf "Server disconnected" []])
    else
      let header := MessageHeader_of_bytes host (filled stale_header got) in
      if h_type header =? MSG_GAME_STATE then
        '(n, got, pending2) ← net_recv_all true pending1 sizeof_GameStateMsg;
        if n <=? 0 then Some (client, -1, pending2, [])
        else
          let state_header := GameStateMsg_of_bytes host (filled stale_state got) in
          let count := Z.min (gs_player_count state_header) MAX_CLIENTS in
          '(ok, players, pending3) ←
            receive_states (Z.to_nat count) 0 (cl_players client) pending2;
          let client' :=
            {| cl_socket := cl_socket client; cl_player_id := cl_player_id client;
               cl_sequence := cl_sequence client;
               cl_players := players;
               cl_player_count := gs_player_count state_header;
               cl_last_tick := gs_tick state_header;
               cl_input_flags := cl_input_flags client |} in
          Some (client', if (ok : bool) then 1 else -1, pending3, [])
      else Some (client, 0, pending1, []).

End CommandLineClient.

(* ===================================================================== *)
(** * Vocabulary of the further properties of the clients *)
(* ===================================================================== *)

(** A specification float that is a binary32 value. *)
Definition is_f32 (x : f32) : Prop := valid_binary f32_prec f32_emax x = true.

(** Fields that hold values of their C types. *)
Definition is_u8 (z : Z) : Prop := 0 <= z < 256.
Definition is_u16 (z : Z) : Prop := 0 <= z < 65536.
Definition is_u32 (z : Z) : Prop := 0 <= z < 4294967296.
Definition is_i16 (z : Z) : Prop := -32768 <= z < 32768.

Definition PlayerState_typed (p : PlayerState) : Prop :=
  is_u8 (ps_player_id p) /\ is_f32 (ps_x p) /\ is_f32 (ps_y p) /\
  is_f32 (ps_vx p) /\ is_f32 (ps_vy p) /\ is_i16 (ps_health p) /\
  is_u8 (ps_weapon p) /\ is_u8 (ps_flags p).

Definition BulletState_typed (b : BulletState) : Prop :=
  is_u8 (bs_owner_id b) /\ is_f32 (bs_x b) /\ is_f32 (bs_y b) /\
  is_f32 (bs_vx b) /\ is_f32 (bs_vy b) /\ is_u8 (bs_weapon_type b).

Definition GameStateMsg_typed (g : GameStateMsg) : Prop :=
  is_u32 (gs_tick g) /\ is_u32 (gs_your_sequence g) /\
  is_u8 (gs_player_count g) /\ is_u8 (gs_bullet_count g).

Definition ServerPlayer_typed (p : ServerPlayer) : Prop :=
  is_f32 (p_x p) /\ is_f32 (p_y p) /\ is_f32 (p_vx p) /\ is_f32 (p_vy p) /\
  is_u8 (p_weapon p).

Definition ServerBullet_typed (b : ServerBullet) : Prop :=
  is_u8 (b_owner_id b) /\ is_f32 (b_x b) /\ is_f32 (b_y b) /\
  is_f32 (b_vx b) /\ is_f32 (b_vy b) /\ is_u8 (b_weapon_type b).

(** Data that has arrived in one piece. *)
Definition at_once (bytes : list Z) : list arrival :=
  match bytes with
  | [] => []
  | _ => [Arrived bytes]
  end.

(** The arrays of the bridge have their declared lengths. *)
Definition shared_wf (state : SharedState) : Prop :=
  length (ss_players state) = MAX_PLAYERS /\
  length (ss_bullets state) = MAX_REMOTE_BULLETS.

(** What the client makes of the server's player in slot [i] and of a
    projectile of the server. *)
Definition seen_player (i : nat) (p : ServerPlayer) : RemotePlayer :=
  {| rp_active := 1; rp_id := Z.of_nat i;
     rp_x := p_x p; rp_y := p_y p; rp_vx := p_vx p; rp_vy := p_vy p;
     rp_health := i16 (p_health p); rp_weapon := p_weapon p |}.

Definition seen_bullet (b : ServerBullet) : RemoteBullet :=
  {| rb_active := 1; rb_owner_id := b_owner_id b;
     rb_x := b_x b; rb_y := b_y b; rb_vx := b_vx b; rb_vy := b_vy b;
     rb_weapon_type := b_weapon_type b |}.

(** The players and projectiles of a snapshot as the client should see
    them: one entry per occupied player slot, one per projectile slot
    that goes into the snapshot, in slot order. *)
Definition seen_players (s : GameServer) : list RemotePlayer :=
  map (fun i => seen_player i (player_at s i)) (occupied_player_slots s).

Definition seen_bullets (s : GameServer) : list RemoteBullet :=
  map (fun i => seen_bullet (bullet_at s i)) (synced_bullet_slots s).

(** A server state whose numeric fields hold values of their C types
    wherever the snapshot reads them. *)
Definition server_typed (s : GameServer) : Prop :=
  is_u32 (tick s) /\
  (forall i, p_occupied (player_at s i) = true ->
             ServerPlayer_typed (player_at s i) /\ is_u32 (p_last_sequence (player_at s i))) /\
  (forall i, b_occupied (bullet_at s i) = true -> ServerBullet_typed (bullet_at s i)).

(** A client of the network thread connected on socket 10 as player 1. *)
Definition sample_client : NetworkClient :=
  {| nc_running := 1; nc_socket := 10; nc_host := "127.0.0.1"; nc_port := 8080;
     nc_player_id := 1 |}.

(** Two clients connected and one projectile of the first in flight in
    slot 3. *)
Definition skirmish : GameServer :=
  {| listen_socket := 3;
     players := sample_player 10 :: sample_player 11 :: replicate 2 zero_player;
     player_count := 2; tick := 7;
     bullets := replicate 3 zero_bullet ++
                [live_bullet (f32_lit 3000 1) (f32_lit 10 1)] ++
                replicate 196 zero_bullet;
     bullet_count := 1 |}.



(* ===================================================================== *)
(** * Proofs *)
(* ===================================================================== *)

(* ===================================================================== *)
(** * Generic facts about loops, counting and byte strings *)
(* ===================================================================== *)

Lemma for_from_invariant {St : Type} (P : St -> Prop) (body : nat -> St -> St) :
  forall n lo s,
    P s ->
    (forall i t, (lo <= i < lo + n)%nat -> P t -> P (body i t)) ->
    P (for_from body lo n s).
Proof.
  induction n as [|n IH]; intros lo s Hs Hbody; simpl; [exact Hs|].
  apply IH.
  - apply Hbody; [lia | exact Hs].
  - intros i t Hi Ht. apply Hbody; [lia | exact Ht].
Qed.

Lemma length_le_bytes n v : length (le_bytes n v) = n.
Proof. revert v; induction n as [|n IH]; intros v; simpl; [reflexivity|]. now rewrite IH. Qed.

Lemma length_store_int bo n v : length (store_int bo n v) = n.
Proof. destruct bo; simpl; [|rewrite length_rev]; apply length_le_bytes. Qed.

Lemma le_value_le_bytes n v :
  0 <= v < 256 ^ Z.of_nat n -> le_value (le_bytes n v) = v.
Proof.
  revert v; induction n as [|n IH]; intros v Hv.
  - simpl in *. lia.
  - cbn [le_bytes le_value].
    rewrite IH.
    + pose proof (Z.div_mod v 256). lia.
    + rewrite Nat2Z.inj_succ, Z.pow_succ_r in Hv by lia.
      split; [apply Z.div_pos; lia | apply Z.div_lt_upper_bound; lia].
Qed.

Lemma load_store_int bo n v :
  0 <= v < 256 ^ Z.of_nat n -> load_int bo (store_int bo n v) = v.
Proof.
  intros Hv. destruct bo; simpl.
  - now apply le_value_le_bytes.
  - rewrite rev_involutive. now apply le_value_le_bytes.
Qed.

(** ** Reliable transport *)

Lemma net_send_all_loop_complete (send : send_fn) (data : list Z) (e : nat) :
  well_behaved send -> quiet_from e send ->
  forall fuel call total_sent,
    0 <= total_sent <= Z.of_nat (length data) ->
    (Z.to_nat (Z.of_nat (length data) - total_sent) + (e - call) <= fuel)%nat ->
    net_send_all_loop fuel send call data (Z.of_nat (length data)) total_sent
                      (take (Z.to_nat total_sent) data)
    = Some (Z.of_nat (length data), data).
Proof.
  intros Hwb Hquiet.
  induction fuel as [|fuel IH]; intros call total_sent Hrange Hfuel.
  - assert (total_sent = Z.of_nat (length data)) as -> by lia.
    cbn [net_send_all_loop]. rewrite Z.ltb_irrefl.
    now rewrite Nat2Z.id, firstn_all.
  - cbn [net_send_all_loop].
    destruct (total_sent <? Z.of_nat (length data)) eqn:Hlt.
    2:{ apply Z.ltb_ge in Hlt.
        assert (total_sent = Z.of_nat (length data)) as -> by lia.
        now rewrite Nat2Z.id, firstn_all. }
    apply Z.ltb_lt in Hlt.
    set (offered := take _ (drop _ data)).
    assert (Hlen : length offered = Z.to_nat (Z.of_nat (length data) - total_sent)).
    { unfold offered. rewrite length_take, length_drop. lia. }
    assert (Hne : offered <> []).
    { intros Heq. rewrite Heq in Hlen. simpl in Hlen. lia. }
    specialize (Hwb call offered Hne).
    destruct (send call offered) as [bytes_sent err] eqn:Hsend.
    cbn [fst snd] in Hwb.
    destruct Hwb as [Hok | [Hneg ->]].
    + assert ((bytes_sent <? 0) = false) as -> by lia.
      assert ((bytes_sent =? 0) = false) as -> by lia.
      replace (take (Z.to_nat total_sent) data ++ take (Z.to_nat bytes_sent) offered)
        with (take (Z.to_nat (total_sent + bytes_sent)) data).
      * apply IH; lia.
      * unfold offered. rewrite take_take.
        replace (Z.to_nat bytes_sent `min` Z.to_nat (Z.of_nat (length data) - total_sent))%nat
          with (Z.to_nat bytes_sent) by lia.
        rewrite take_take_drop. f_equal. lia.
    + assert ((bytes_sent <? 0) = true) as -> by lia.
      cbn [errno_is_EINTR].
      assert (call < e)%nat.
      { destruct (Nat.lt_ge_cases call e) as [|Hge]; [assumption|].
        specialize (Hquiet call offered Hge). rewrite Hsend in Hquiet.
        cbn in Hquiet. lia. }
      apply IH; lia.
Qed.

(** C4, amended. For a transport that on every call takes between one and
    all of the offered bytes or fails with [EINTR], and that stops being
    interrupted from some call on, [net_send_all] returns the full
    length and has put exactly the given bytes on the wire, once the
    fuel covers the bytes and the interrupted calls. *)
Theorem net_send_all_sends_everything (send : send_fn) (data : list Z) (e fuel : nat) :
  well_behaved send -> quiet_from e send ->
  (length data + e <= fuel)%nat ->
  net_send_all fuel send data (Z.of_nat (length data))
  = Some (Z.of_nat (length data), data).
Proof.
  intros Hwb Hquiet Hfuel. unfold net_send_all.
  apply (net_send_all_loop_complete send data e Hwb Hquiet fuel 0%nat 0); lia.
Qed.

Lemma send_at_most_well_behaved k : (0 < k)%nat -> well_behaved (send_at_most k).
Proof.
  intros Hk call offered Hne. left. unfold send_at_most; cbn [fst].
  destruct offered; [congruence|]. cbn [length]. lia.
Qed.

Lemma net_send_all_three_at_a_time :
  well_behaved (send_at_most 3) /\ quiet_from 0 (send_at_most 3) /\
  net_send_all 10 (send_at_most 3) [1; 2; 3; 4; 5; 6; 7; 8; 9; 10] 10
  = Some (10, [1; 2; 3; 4; 5; 6; 7; 8; 9; 10]).
Proof.
  assert (Hwb : well_behaved (send_at_most 3)) by (apply send_at_most_well_behaved; lia).
  assert (Hq : quiet_from 0 (send_at_most 3)).
  { intros call offered _. unfold send_at_most; cbn [fst]. lia. }
  split; [exact Hwb|]. split; [exact Hq|].
  apply (net_send_all_sends_everything (send_at_most 3)
           [1; 2; 3; 4; 5; 6; 7; 8; 9; 10] 0 10 Hwb Hq).
  simpl. lia.
Defined.

Lemma net_send_all_interrupted_forever fuel b data :
  net_send_all fuel send_interrupted (b :: data) (Z.of_nat (length (b :: data))) = None.
Proof.
  unfold net_send_all. generalize 0%nat as call.
  assert (Hpos : (0 <? Z.of_nat (length (b :: data))) = true)
    by (apply Z.ltb_lt; rewrite length_cons; lia).
  induction fuel as [|fuel IH]; intros call; cbn [net_send_all_loop]; rewrite Hpos.
  - reflexivity.
  - cbn. apply IH.
Qed.

Lemma net_send_all_never_returns_when_always_interrupted :
  (forall call offered,
      (fst (send_interrupted call offered) < 0) /\
      (snd (send_interrupted call offered) = EINTR)) /\
  well_behaved send_interrupted /\
  ~ exists fuel result,
      net_send_all fuel send_interrupted [1; 2; 3] 3 = Some result.
Proof.
  split; [intros; split; reflexivity|].
  split.
  - intros call offered _. right. split; reflexivity.
  - intros (fuel & result & Hrun).
    pose proof (net_send_all_interrupted_forever fuel 1 [2; 3]) as Hnone.
    change (Z.of_nat (length [1; 2; 3])) with 3 in Hnone.
    rewrite Hnone in Hrun. discriminate.
Qed.

(** ** Shared-state bridge *)

Lemma array_set_Some {A : Type} (a : list A) (i : nat) (x : A) :
  (i < length a)%nat -> array_set a i x = Some (<[i:=x]> a).
Proof.
  intros Hi. unfold array_set.
  destruct (i <? length a)%nat eqn:E; [reflexivity|].
  apply Nat.ltb_ge in E. lia.
Qed.

Lemma clear_players_loop :
  forall n lo (ps : list RemotePlayer),
    (lo + n <= length ps)%nat ->
    exists ps',
      for_from_opt (fun i => players_set_active i 0) lo n ps = Some ps' /\
      length ps' = length ps /\
      forall i, ps' !! i = if decide (lo <= i < lo + n)%nat
                           then rp_set_active 0 <$> ps !! i else ps !! i.
Proof.
  induction n as [|n IH]; intros lo ps Hlen.
  - exists ps. split; [reflexivity|]. split; [reflexivity|].
    intros i. destruct (decide _); [lia | reflexivity].
  - cbn [for_from_opt]. unfold players_set_active at 1.
    destruct (lookup_lt_is_Some_2 ps lo ltac:(lia)) as [p Hp].
    rewrite Hp, array_set_Some by lia.
    destruct (IH (S lo) (<[lo:=rp_set_active 0 p]> ps)) as (ps' & Hrun & Hl & Hget).
    { rewrite length_insert. lia. }
    exists ps'. split; [exact Hrun|]. split; [now rewrite Hl, length_insert|].
    intros i. rewrite Hget.
    destruct (decide (S lo <= i < S lo + n)%nat) as [Hin|Hout].
    + rewrite list_lookup_insert_ne by lia.
      destruct (decide _); [reflexivity | lia].
    + destruct (decide (i = lo)) as [->|Hne].
      * rewrite list_lookup_insert_eq by lia.
        destruct (decide _); [now rewrite Hp | lia].
      * rewrite list_lookup_insert_ne by lia.
        destruct (decide _); [lia | reflexivity].
Qed.

Lemma copy_players_loop (src : list RemotePlayer) :
  forall n lo (ps : list RemotePlayer),
    (lo + n <= length ps)%nat -> (lo + n <= length src)%nat ->
    exists ps',
      for_from_opt (players_copy_in src) lo n ps = Some ps' /\
      length ps' = length ps /\
      forall i, ps' !! i = if decide (lo <= i < lo + n)%nat
                           then rp_set_active 1 <$> src !! i else ps !! i.
Proof.
  induction n as [|n IH]; intros lo ps Hlen Hsrc.
  - exists ps. split; [reflexivity|]. split; [reflexivity|].
    intros i. destruct (decide _); [lia | reflexivity].
  - cbn [for_from_opt]. unfold players_copy_in at 1.
    destruct (lookup_lt_is_Some_2 src lo ltac:(lia)) as [p Hp].
    rewrite Hp, array_set_Some by lia.
    destruct (IH (S lo) (<[lo:=rp_set_active 1 p]> ps)) as (ps' & Hrun & Hl & Hget).
    { rewrite length_insert. lia. }
    { lia. }
    exists ps'. split; [exact Hrun|]. split; [now rewrite Hl, length_insert|].
    intros i. rewrite Hget.
    destruct (decide (S lo <= i < S lo + n)%nat) as [Hin|Hout].
    + destruct (decide _); [reflexivity | lia].
    + destruct (decide (i = lo)) as [->|Hne].
      * rewrite list_lookup_insert_eq by lia.
        destruct (decide _); [now rewrite Hp | lia].
      * rewrite list_lookup_insert_ne by lia.
        destruct (decide _); [lia | reflexivity].
Qed.

(** C9. For a non-negative [count] and a source array holding at least
    [min(count, 4)] entries, [shared_state_update_players] completes
    without touching anything outside the two arrays; the first
    [min(count, 4)] entries of the state are the source entries marked
    active, the remaining entries keep their contents and are marked
    inactive, the stored count is [min(count, 4)], and
    [shared_state_copy_players] returns that count. *)
Theorem shared_state_update_players_clamps
    (st : SharedState) (src : list RemotePlayer) (count server_tick : Z) :
  0 <= count ->
  length (ss_players st) = MAX_PLAYERS ->
  (Z.to_nat (Z.min count 4) <= length src)%nat ->
  exists st',
    shared_state_update_players st (Some src) count server_tick = Some st' /\
    length (ss_players st') = MAX_PLAYERS /\
    (forall i, (i < Z.to_nat (Z.min count 4))%nat ->
       exists p, src !! i = Some p /\
                 ss_players st' !! i = Some (rp_set_active 1 p)) /\
    (forall i, (Z.to_nat (Z.min count 4) <= i < MAX_PLAYERS)%nat ->
       exists q, ss_players st !! i = Some q /\
                 ss_players st' !! i = Some (rp_set_active 0 q)) /\
    (forall i p, ss_players st' !! i = Some p ->
       (truthy (rp_active p) = true <-> (i < Z.to_nat (Z.min count 4))%nat)) /\
    ss_player_count st' = Z.min count 4 /\
    snd (shared_state_copy_players st') = Z.min count 4.
Proof.
  intros Hcount Hlen Hsrc.
  unfold shared_state_update_players.
  destruct (clear_players_loop MAX_PLAYERS 0 (ss_players st)) as (cl & Hcl & Hcl_len & Hcl_get).
  { rewrite Hlen. lia. }
  rewrite Hcl.
  set (copied := if count >? Z.of_nat MAX_PLAYERS then Z.of_nat MAX_PLAYERS else count).
  assert (Hcopied : copied = Z.min count 4).
  { unfold copied, MAX_PLAYERS. rewrite Z.gtb_ltb. destruct (Z.ltb_spec (Z.of_nat 4) count); lia. }
  assert (Hm : (Z.to_nat copied <= 4)%nat) by lia.
  destruct (copy_players_loop src (Z.to_nat copied) 0 cl) as (ps & Hps & Hps_len & Hps_get).
  { rewrite Hcl_len, Hlen. unfold MAX_PLAYERS. lia. }
  { rewrite Hcopied. lia. }
  rewrite Hps. eexists. split; [reflexivity|]. cbn [ss_players ss_player_count
    shared_state_copy_players snd].
  rewrite <- Hcopied.
  assert (Hin : forall i, (i < Z.to_nat copied)%nat ->
            exists p, src !! i = Some p /\ ps !! i = Some (rp_set_active 1 p)).
  { intros i Hi. destruct (lookup_lt_is_Some_2 src i ltac:(lia)) as [p Hp].
    exists p. split; [exact Hp|]. rewrite Hps_get.
    destruct (decide _); [now rewrite Hp | lia]. }
  assert (Hout : forall i, (Z.to_nat copied <= i < MAX_PLAYERS)%nat ->
            exists q, ss_players st !! i = Some q /\ ps !! i = Some (rp_set_active 0 q)).
  { intros i Hi. destruct (lookup_lt_is_Some_2 (ss_players st) i ltac:(lia)) as [q Hq].
    exists q. split; [exact Hq|]. rewrite Hps_get.
    destruct (decide _); [lia|]. rewrite Hcl_get.
    destruct (decide _); [now rewrite Hq | lia]. }
  split; [now rewrite Hps_len, Hcl_len|].
  split; [exact Hin|]. split; [exact Hout|].
  split; [|split; reflexivity].
  intros i p Hp.
  assert (i < MAX_PLAYERS)%nat.
  { apply lookup_lt_Some in Hp. rewrite Hps_len, Hcl_len, Hlen in Hp. exact Hp. }
  destruct (Nat.lt_ge_cases i (Z.to_nat copied)) as [Hlt|Hge].
  - destruct (Hin i Hlt) as (p' & _ & Hp'). rewrite Hp in Hp'.
    injection Hp' as ->. cbn. split; [intros _; exact Hlt | reflexivity].
  - destruct (Hout i ltac:(lia)) as (q & _ & Hq). rewrite Hp in Hq.
    injection Hq as ->. cbn. split; [discriminate | lia].
Qed.

Lemma shared_state_update_players_clamps_six :
  exists st',
    shared_state_update_players sample_shared
      (Some (map sample_remote [0; 1; 2; 3; 4; 5])) 6 17 = Some st' /\
    ss_player_count st' = 4 /\
    snd (shared_state_copy_players st') = 4.
Proof.
  destruct (shared_state_update_players_clamps sample_shared
              (map sample_remote [0; 1; 2; 3; 4; 5]) 6 17)
    as (st' & Hrun & _ & _ & _ & _ & Hcount & Hcopy).
  - lia.
  - reflexivity.
  - simpl. lia.
  - exists st'. split; [exact Hrun|]. split; [exact Hcount | exact Hcopy].
Defined.

(** ** Handshake *)

(** C6. When the handshake delivers a complete [ConnectMsg] whose version
    differs from [PROTOCOL_VERSION], the server state is returned
    unchanged, the only messages sent are the [MSG_CONNECT_ACK] header
    and an acknowledgement with success 0 and reason 1 (version
    mismatch), and the last action is closing the client's socket. *)
Theorem version_mismatch_consumes_no_slot
    (host : byte_order) (server : GameServer) (inc : Incoming) :
  inc_socket inc <> INVALID_SOCKET ->
  fst (inc_header inc) = sizeof_MessageHeader ->
  h_type (snd (inc_header inc)) = MSG_CONNECT ->
  fst (inc_connect inc) = sizeof_ConnectMsg ->
  cm_version (snd (inc_connect inc)) <> PROTOCOL_VERSION ->
  fst (server_accept_new_client host server inc) = server /\
  sends (snd (server_accept_new_client host server inc)) =
    [(inc_socket inc,
      bytes_of_MessageHeader host
        {| h_type := MSG_CONNECT_ACK; h_length := sizeof_ConnectAckMsg |});
     (inc_socket inc,
      bytes_of_ConnectAckMsg host
        {| ack_success := 0; ack_player_id := 0; ack_reason := 1 |})] /\
  bytes_of_ConnectAckMsg host
    {| ack_success := 0; ack_player_id := 0; ack_reason := 1 |} = [0; 0; 1] /\
  last (snd (server_accept_new_client host server inc)) = Some (EvClose (inc_socket inc)).
Proof.
  intros Hsock Hn Hty Hm Hver.
  unfold server_accept_new_client.
  destruct (inc_header inc) as [n_header connect_header].
  destruct (inc_connect inc) as [n_connect connect_msg].
  cbn [fst snd] in *. subst n_header n_connect.
  rewrite (proj2 (Z.eqb_neq _ _) Hsock).
  rewrite Z.eqb_refl, Hty, Z.eqb_refl. cbn [negb].
  rewrite Z.eqb_refl. cbn [negb].
  rewrite (proj2 (Z.eqb_neq _ _) Hver). cbn [negb fst snd].
  split; [reflexivity|]. split; [reflexivity|].
  split; [destruct host; reflexivity | reflexivity].
Qed.

Lemma version_mismatch_consumes_no_slot_example :
  fst (server_accept_new_client LittleEndian one_player_server stale_client)
  = one_player_server /\
  sends (snd (server_accept_new_client LittleEndian one_player_server stale_client))
  = [(11, [2; 3; 0]); (11, [0; 0; 1])].
Proof.
  destruct (version_mismatch_consumes_no_slot LittleEndian one_player_server stale_client)
    as (Hsame & Hsends & _ & _).
  - discriminate.
  - reflexivity.
  - reflexivity.
  - reflexivity.
  - discriminate.
  - split; [exact Hsame | exact Hsends].
Defined.

(** ** Slots *)

Lemma player_at_occupied s i :
  p_occupied (player_at s i) = true -> players s !! i = Some (player_at s i).
Proof.
  unfold player_at. destruct (players s !! i) as [p|]; [reflexivity|].
  cbn. discriminate.
Qed.

Lemma player_at_set_player_eq s i p :
  (i < length (players s))%nat -> player_at (set_player i p s) i = p.
Proof.
  intros Hi. unfold player_at, set_player. cbn [players with_players].
  now rewrite list_lookup_insert_eq.
Qed.




(** ** Input intake *)







(** ** Counting occupied slots *)

Lemma count_if_insert {A : Type} (f : A -> bool) (l : list A) (i : nat) (x y : A) :
  l !! i = Some y ->
  (count_if f (<[i:=x]> l) + (if f y then 1 else 0) =
   count_if f l + (if f x then 1 else 0))%nat.
Proof.
  revert i; induction l as [|z l IH]; intros i Hi; [discriminate|].
  destruct i as [|i]; cbn in Hi.
  - injection Hi as ->. clear IH. cbn. destruct (f x), (f y); cbn; lia.
  - specialize (IH i Hi).
    change (<[S i:=x]> (z :: l)) with (z :: <[i:=x]> l). cbn [count_if].
    destruct (f x), (f y), (f z); cbv iota in IH |- *; lia.
Qed.

Lemma count_if_insert_same {A : Type} (f : A -> bool) (l : list A) (i : nat) (x y : A) :
  l !! i = Some y -> f x = f y -> count_if f (<[i:=x]> l) = count_if f l.
Proof.
  intros Hi Hxy. pose proof (count_if_insert f l i x y Hi) as H.
  rewrite Hxy in H. destruct (f y); cbv iota in H; lia.
Qed.

Lemma count_if_insert_gain {A : Type} (f : A -> bool) (l : list A) (i : nat) (x y : A) :
  l !! i = Some y -> f y = false -> f x = true ->
  count_if f (<[i:=x]> l) = S (count_if f l).
Proof.
  intros Hi Hy Hx. pose proof (count_if_insert f l i x y Hi) as H.
  rewrite Hx, Hy in H. lia.
Qed.

Lemma count_if_insert_loss {A : Type} (f : A -> bool) (l : list A) (i : nat) (x y : A) :
  l !! i = Some y -> f y = true -> f x = false ->
  S (count_if f (<[i:=x]> l)) = count_if f l.
Proof.
  intros Hi Hy Hx. pose proof (count_if_insert f l i x y Hi) as H.
  rewrite Hx, Hy in H. lia.
Qed.

Lemma first_free_Some free :
  forall n lo i, first_free free lo n = Some i ->
    (lo <= i < lo + n)%nat /\ free i = true /\
    forall j, (lo <= j < i)%nat -> free j = false.
Proof.
  induction n as [|n IH]; intros lo i H; cbn in H; [discriminate|].
  destruct (free lo) eqn:E.
  - injection H as <-. repeat split; [lia | lia | exact E | intros; lia].
  - destruct (IH _ _ H) as (Hr & Hf & Hb). repeat split; [lia | lia | exact Hf |].
    intros j Hj. destruct (decide (j = lo)) as [->|]; [exact E | apply Hb; lia].
Qed.

Lemma first_free_None free :
  forall n lo, first_free free lo n = None ->
    forall j, (lo <= j < lo + n)%nat -> free j = false.
Proof.
  induction n as [|n IH]; intros lo H j Hj; [lia|].
  cbn in H. destruct (free lo) eqn:E; [discriminate|].
  destruct (decide (j = lo)) as [->|]; [exact E | apply (IH _ H); lia].
Qed.

(** ** Slots of the projectile table *)

Lemma bullet_at_occupied s i :
  b_occupied (bullet_at s i) = true -> bullets s !! i = Some (bullet_at s i).
Proof.
  unfold bullet_at. destruct (bullets s !! i) as [b|]; [reflexivity|].
  cbn. discriminate.
Qed.

Lemma bullet_at_lookup s i b : bullets s !! i = Some b -> bullet_at s i = b.
Proof. unfold bullet_at. now intros ->. Qed.

Lemma player_at_lookup s i p : players s !! i = Some p -> player_at s i = p.
Proof. unfold player_at. now intros ->. Qed.

Lemma bullet_at_in_range s i :
  (i < length (bullets s))%nat -> bullets s !! i = Some (bullet_at s i).
Proof.
  intros Hi. destruct (lookup_lt_is_Some_2 _ _ Hi) as [b Hb].
  now rewrite (bullet_at_lookup _ _ _ Hb).
Qed.

Lemma player_at_in_range s i :
  (i < length (players s))%nat -> players s !! i = Some (player_at s i).
Proof.
  intros Hi. destruct (lookup_lt_is_Some_2 _ _ Hi) as [p Hp].
  now rewrite (player_at_lookup _ _ _ Hp).
Qed.

(** ** How the elementary updates move the counters *)

Lemma set_player_excess s i p :
  players s !! i = Some (player_at s i) ->
  p_occupied p = p_occupied (player_at s i) ->
  player_excess (set_player i p s) = player_excess s.
Proof.
  intros Hi Hocc. unfold player_excess, set_player.
  cbn [players player_count with_players].
  now rewrite (count_if_insert_same p_occupied (players s) i p _ Hi Hocc).
Qed.

Lemma drop_player_excess s i :
  p_occupied (player_at s i) = true ->
  player_excess (drop_player i s) = player_excess s.
Proof.
  intros Hocc. unfold player_excess, drop_player, set_player.
  cbn [players player_count with_players with_player_count].
  pose proof (count_if_insert_loss p_occupied (players s) i
                (p_set_active 0 (player_at s i)) _ (player_at_occupied _ _ Hocc)
                Hocc eq_refl) as Hins.
  lia.
Qed.

Lemma drop_player_wf s i : server_wf s -> server_wf (drop_player i s).
Proof.
  intros [Hp Hb]. split; cbn; [now rewrite length_insert | exact Hb].
Qed.

Lemma set_player_wf s i p : server_wf s -> server_wf (set_player i p s).
Proof.
  intros [Hp Hb]. split; cbn; [now rewrite length_insert | exact Hb].
Qed.

Lemma set_bullet_wf s i b : server_wf s -> server_wf (set_bullet i b s).
Proof.
  intros [Hp Hb]. split; cbn; [exact Hp | now rewrite length_insert].
Qed.

(** ** [server_init] *)

Lemma server_init_players mem port listen :
  length (bullets mem) = MAX_SERVER_BULLETS ->
  server_wf (fst (server_init mem port listen)) /\
  players_counted (fst (server_init mem port listen)).
Proof.
  intros Hb. unfold server_init.
  destruct (listen =? INVALID_SOCKET); cbn [fst]; (split; [split; cbn; [reflexivity | exact Hb] | reflexivity]).
Qed.

Lemma server_init_bullets_kept mem port listen :
  bullets (fst (server_init mem port listen)) = bullets mem /\
  bullet_count (fst (server_init mem port listen)) = bullet_count mem.
Proof. unfold server_init. destruct (listen =? INVALID_SOCKET); split; reflexivity. Qed.

(** ** Operations that keep lengths and counters *)

Lemma players_counted_excess s : players_counted s <-> player_excess s = 0.
Proof. unfold players_counted, player_excess. lia. Qed.

Lemma bullets_counted_excess s : bullets_counted s <-> bullet_excess s = 0.
Proof. unfold bullets_counted, bullet_excess. lia. Qed.

Lemma preserves_refl s : preserves s s.
Proof. unfold preserves. tauto. Qed.

Lemma preserves_trans s1 s2 s3 : preserves s1 s2 -> preserves s2 s3 -> preserves s1 s3.
Proof.
  intros (W & P & B) (W' & P' & B').
  split; [auto|]. split; intros Hwf; [rewrite P' | rewrite B']; auto.
Qed.

Lemma preserves_players_counted s s' :
  preserves s s' -> server_wf s -> players_counted s -> players_counted s'.
Proof.
  intros (_ & P & _) Hwf H. apply players_counted_excess.
  rewrite P by exact Hwf. now apply players_counted_excess.
Qed.

Lemma preserves_bullets_counted s s' :
  preserves s s' -> server_wf s -> bullets_counted s -> bullets_counted s'.
Proof.
  intros (_ & _ & B) Hwf H. apply bullets_counted_excess.
  rewrite B by exact Hwf. now apply bullets_counted_excess.
Qed.

Lemma for_from_preserves (body : nat -> GameServer -> GameServer) :
  (forall i t, preserves t (body i t)) ->
  forall n lo s, preserves s (for_from body lo n s).
Proof.
  intros Hbody. induction n as [|n IH]; intros lo s; cbn [for_from].
  - apply preserves_refl.
  - eapply preserves_trans; [apply Hbody | apply IH].
Qed.

Lemma preserves_same_tables s s' :
  players s' = players s -> player_count s' = player_count s ->
  bullets s' = bullets s -> bullet_count s' = bullet_count s ->
  preserves s s'.
Proof.
  intros Hp Hpc Hb Hbc. unfold preserves, server_wf, player_excess, bullet_excess.
  rewrite Hp, Hpc, Hb, Hbc. tauto.
Qed.

Lemma set_player_preserves s i p :
  p_occupied (player_at s i) = true ->
  p_occupied p = true ->
  preserves s (set_player i p s).
Proof.
  intros Hocc Hp. split; [apply set_player_wf|].
  split; [|intros _; reflexivity].
  intros _. apply set_player_excess; [now apply player_at_occupied | congruence].
Qed.

Lemma drop_player_preserves s i :
  p_occupied (player_at s i) = true -> preserves s (drop_player i s).
Proof.
  intros Hocc. split; [apply drop_player_wf|].
  split; [intros _; now apply drop_player_excess | intros _; reflexivity].
Qed.

(** ** [server_accept_new_client] *)

Lemma server_accept_new_client_preserves host s inc :
  preserves s (fst (server_accept_new_client host s inc)).
Proof.
  unfold server_accept_new_client.
  destruct (inc_socket inc =? INVALID_SOCKET); [apply preserves_refl|].
  destruct (inc_header inc) as [n_header connect_header].
  destruct (negb (n_header =? _)); [apply preserves_refl|].
  destruct (negb (h_type connect_header =? _)); [apply preserves_refl|].
  destruct (inc_connect inc) as [n_connect connect_msg].
  destruct (negb (n_connect =? _)); [apply preserves_refl|].
  destruct (negb (cm_version connect_msg =? _)); [apply preserves_refl|].
  unfold server_find_free_slot.
  destruct (first_free _ 0 MAX_PLAYERS) as [i|] eqn:Hfree; [|apply preserves_refl].
  destruct (Z.ltb_spec (Z.of_nat i) 0); [lia|]. cbn [fst].
  rewrite Nat2Z.id.
  apply first_free_Some in Hfree. destruct Hfree as (Hi & Hfr & _).
  apply negb_true_iff in Hfr.
  split; [|split].
  - intros [Hlp Hlb]. split; cbn; [now rewrite length_insert | exact Hlb].
  - intros [Hlp _].
    assert (Hslot : players s !! i = Some (player_at s i))
      by (apply player_at_in_range; lia).
    unfold player_excess. cbn.
    match goal with |- context [<[i:=?p]> _] =>
      rewrite (count_if_insert_gain p_occupied (players s) i p _ Hslot Hfr eq_refl)
    end.
    lia.
  - intros _. reflexivity.
Qed.

(** ** [server_handle_client_message] *)

Lemma server_handle_client_message_preserves host s lf pid rd :
  preserves s (fst (fst (server_handle_client_message host s lf pid rd))).
Proof.
  unfold server_handle_client_message.
  destruct (truthy (p_active (player_at s pid))) eqn:Hact; cbn [negb];
    [|apply preserves_refl].
  pose proof (drop_player_preserves s pid Hact) as Hdrop.
  destruct (rd_bytes rd =? 0); [exact Hdrop|].
  destruct (rd_bytes rd <? 0).
  { destruct (errno_would_block _); [apply preserves_refl | exact Hdrop]. }
  destruct (negb _); [apply preserves_refl|].
  destruct (h_type (rd_header rd) =? MSG_PLAYER_INPUT).
  { destruct (rd_input rd) as [n input].
    destruct (n <=? 0); [apply preserves_refl|].
    destruct (_ <=? _); [apply preserves_refl|]. cbn [fst].
    apply set_player_preserves; [exact Hact | exact Hact]. }
  destruct (h_type (rd_header rd) =? MSG_DISCONNECT); [exact Hdrop|].
  destruct (h_type (rd_header rd) =? MSG_PING).
  { destruct (rd_ping rd) as [n ping]. destruct (n >? 0); apply preserves_refl. }
  apply preserves_refl.
Qed.

(** ** Spawning *)

Lemma has_free_bullet_slot s :
  server_wf s ->
  has_free_bullet s <->
  exists j, (j < MAX_SERVER_BULLETS)%nat /\ b_occupied (bullet_at s j) = false.
Proof.
  intros [_ Hlb]. split.
  - intros (j & b & Hj & Hb). exists j. split.
    + apply lookup_lt_Some in Hj. lia.
    + now rewrite (bullet_at_lookup _ _ _ Hj).
  - intros (j & Hj & Hb). exists j, (bullet_at s j). split; [|exact Hb].
    apply bullet_at_in_range. lia.
Qed.

Lemma spawned_not_self s : ~ spawned s s.
Proof. intros (j & _ & H0 & H1). congruence. Qed.

Lemma spawn_like_trans s1 s2 s3 :
  spawn_like s1 s2 -> spawn_like s2 s3 -> spawn_like s1 s3.
Proof.
  intros (Hp & Hc & Hwf & Hbc & Hkeep & Hnew & Hnone)
         (Hp' & Hc' & Hwf' & Hbc' & Hkeep' & Hnew' & Hnone').
  split; [congruence|]. split; [congruence|].
  split; [auto|]. split; [intros W; rewrite Hbc'; auto|]. split; [auto|].
  split.
  - intros W F. destruct (Hnew W F) as (j & Hj & H0 & H1).
    exists j. split; [exact Hj|]. split; [exact H0 | auto].
  - intros W F. rewrite (Hnone' (Hwf W)); [now apply Hnone|].
    rewrite (Hnone W F). exact F.
Qed.

Lemma server_spawn_single_bullet_spawn_like s pid x y vx vy w :
  spawn_like s (server_spawn_single_bullet s pid x y vx vy w).
Proof.
  unfold server_spawn_single_bullet, server_find_free_bullet.
  destruct (first_free _ 0 MAX_SERVER_BULLETS) as [j|] eqn:Hfree.
  - destruct (Z.ltb_spec (Z.of_nat j) 0); [lia|]. rewrite Nat2Z.id.
    apply first_free_Some in Hfree. destruct Hfree as (Hj & Hfr & _).
    apply negb_true_iff in Hfr. fold (b_occupied (bullet_at s j)) in Hfr.
    set (bullet := mkServerBullet _ _ _ _ _ _ _ _).
    split; [reflexivity|]. split; [reflexivity|].
    split.
    { intros [Hlp Hlb]. split; cbn; [exact Hlp | now rewrite length_insert]. }
    split.
    { intros [_ Hlb]. unfold bullet_excess. cbn.
      rewrite (count_if_insert_gain b_occupied (bullets s) j bullet (bullet_at s j));
        [lia | apply bullet_at_in_range; lia | exact Hfr | reflexivity]. }
    split.
    { intros k Hk. destruct (decide (j = k)) as [->|Hne]; [congruence|].
      unfold bullet_at in *. cbn. now rewrite list_lookup_insert_ne. }
    split.
    { intros [_ Hlb] _. exists j. split; [lia|]. split; [exact Hfr|].
      unfold bullet_at. cbn. rewrite list_lookup_insert_eq by lia. reflexivity. }
    intros W F. exfalso. apply F. apply has_free_bullet_slot; [exact W|].
    exists j. split; [lia | exact Hfr].
  - change (-1 <? 0) with true. cbv iota.
    split; [reflexivity|]. split; [reflexivity|].
    split; [auto|]. split; [auto|]. split; [auto|].
    split; [|reflexivity].
    intros W F. apply (has_free_bullet_slot s W) in F. destruct F as (j & Hj & Hfr).
    pose proof (first_free_None _ _ _ Hfree j ltac:(lia)) as Hocc.
    cbv beta in Hocc. apply negb_false_iff in Hocc.
    unfold b_occupied in Hfr. congruence.
Qed.

Lemma server_spawn_bullet_spawn_like sinf cosf s pid x y :
  spawn_like s (server_spawn_bullet sinf cosf s pid x y).
Proof.
  unfold server_spawn_bullet.
  destruct (_ =? WEAPON_TYPE_SPREAD).
  { cbn [for_from].
    eapply spawn_like_trans; [|apply server_spawn_single_bullet_spawn_like].
    eapply spawn_like_trans; apply server_spawn_single_bullet_spawn_like. }
  destruct (_ =? WEAPON_TYPE_RAPID); [apply server_spawn_single_bullet_spawn_like|].
  destruct (_ =? WEAPON_TYPE_LASER); apply server_spawn_single_bullet_spawn_like.
Qed.

(** ** Firing *)

Lemma fire_player_unoccupied sinf cosf dt i s :
  p_occupied (player_at s i) = false -> fire_player sinf cosf dt i s = s.
Proof. intros H. unfold fire_player. unfold p_occupied in H. now rewrite H. Qed.

Lemma fire_player_refused sinf cosf dt i s :
  p_occupied (player_at s i) = true ->
  may_fire (p_input_flags (player_at s i))
           (cooled dt (p_fire_cooldown (player_at s i))) = false ->
  fire_player sinf cosf dt i s =
  set_player i (p_set_fire_cooldown (cooled dt (p_fire_cooldown (player_at s i)))
                                    (player_at s i)) s.
Proof.
  intros H Hno. unfold fire_player. unfold p_occupied in H. rewrite H. cbn [negb].
  now rewrite Hno.
Qed.

Lemma fire_player_fired sinf cosf dt i s :
  p_occupied (player_at s i) = true ->
  may_fire (p_input_flags (player_at s i))
           (cooled dt (p_fire_cooldown (player_at s i))) = true ->
  exists s1 s2,
    s1 = set_player i (p_set_fire_cooldown (cooled dt (p_fire_cooldown (player_at s i)))
                                           (player_at s i)) s /\
    s2 = server_spawn_bullet sinf cosf s1 i (p_x (player_at s i)) (p_y (player_at s i)) /\
    fire_player sinf cosf dt i s =
    set_player i (p_set_fire_cooldown (get_weapon_cooldown (p_weapon (player_at s i)))
                                      (player_at s2 i)) s2.
Proof.
  intros H Hyes. unfold fire_player. unfold p_occupied in H. rewrite H. cbn [negb].
  rewrite Hyes. eauto.
Qed.

Lemma spawn_like_preserves s s' : spawn_like s s' -> preserves s s'.
Proof.
  intros (Hp & Hc & Hwf & Hbc & _). split; [exact Hwf|]. split; [|exact Hbc].
  intros _. unfold player_excess. now rewrite Hp, Hc.
Qed.

Lemma fire_player_preserves sinf cosf dt i s :
  preserves s (fire_player sinf cosf dt i s).
Proof.
  destruct (p_occupied (player_at s i)) eqn:Hocc.
  2:{ rewrite fire_player_unoccupied by exact Hocc. apply preserves_refl. }
  set (c := cooled dt (p_fire_cooldown (player_at s i))).
  set (s1 := set_player i (p_set_fire_cooldown c (player_at s i)) s).
  assert (H1 : preserves s s1) by now apply set_player_preserves.
  destruct (may_fire (p_input_flags (player_at s i)) c) eqn:Hfire.
  - destruct (fire_player_fired sinf cosf dt i s Hocc Hfire) as (s1' & s2 & -> & -> & ->).
    fold c. fold s1.
    pose proof (server_spawn_bullet_spawn_like sinf cosf s1 i
                  (p_x (player_at s i)) (p_y (player_at s i))) as Hlike.
    set (s2 := server_spawn_bullet sinf cosf s1 i _ _) in *.
    assert (Hocc2 : p_occupied (player_at s2 i) = true).
    { destruct Hlike as (Hp & _).
      assert (Heq : player_at s2 i = player_at s1 i) by (unfold player_at; now rewrite Hp).
      rewrite Heq. unfold s1. rewrite player_at_set_player_eq; [exact Hocc|].
      apply (lookup_lt_Some _ _ _ (player_at_occupied _ _ Hocc)). }
    eapply preserves_trans; [exact H1|].
    eapply preserves_trans; [apply spawn_like_preserves, Hlike|].
    apply set_player_preserves; [exact Hocc2 | exact Hocc2].
  - rewrite fire_player_refused by assumption. exact H1.
Qed.

Lemma server_handle_firing_preserves sinf cosf dt s :
  preserves s (server_handle_firing sinf cosf s dt).
Proof.
  unfold server_handle_firing. apply for_from_preserves.
  intros i t. apply fire_player_preserves.
Qed.

(** ** Projectile step *)

Lemma update_bullet_preserves dt i s : preserves s (update_bullet dt i s).
Proof.
  unfold update_bullet.
  destruct (truthy (b_active (bullet_at s i))) eqn:Hocc; cbn [negb];
    [|apply preserves_refl].
  pose proof (bullet_at_occupied s i Hocc) as Hslot.
  set (gone := (_ || _)%bool).
  set (moved := mkServerBullet _ _ _ _ _ _ _ _).
  destruct gone eqn:Hgone.
  - split; [apply set_bullet_wf|]. split; [intros _; reflexivity|].
    intros _. unfold bullet_excess. cbn.
    pose proof (count_if_insert_loss b_occupied (bullets s) i moved _ Hslot Hocc eq_refl).
    lia.
  - split; [apply set_bullet_wf|]. split; [intros _; reflexivity|].
    intros _. unfold bullet_excess. cbn.
    rewrite (count_if_insert_same b_occupied (bullets s) i moved _ Hslot); reflexivity.
Qed.

Lemma server_update_bullets_preserves dt s :
  preserves s (server_update_bullets s dt).
Proof.
  unfold server_update_bullets. apply for_from_preserves.
  intros i t. apply update_bullet_preserves.
Qed.

(** ** Movement *)

Lemma move_player_occupied powf dt p :
  p_occupied (move_player powf dt p) = p_occupied p.
Proof.
  unfold move_player. cbv zeta.
  repeat match goal with
         | |- context [match (if ?b then _ else _) with pair _ _ => _ end] => destruct b
         end.
  all: reflexivity.
Qed.

Lemma server_update_physics_preserves powf dt s :
  preserves s (server_update_physics powf s dt).
Proof.
  unfold server_update_physics. apply for_from_preserves.
  intros i t.
  destruct (truthy (p_active (player_at t i))) eqn:Hocc; cbn [negb];
    [|apply preserves_refl].
  apply set_player_preserves; [exact Hocc|].
  rewrite move_player_occupied. exact Hocc.
Qed.

Lemma spawned_bullets s1 s1' s2 s2' :
  bullets s1 = bullets s1' -> bullets s2 = bullets s2' ->
  spawned s1 s2 -> spawned s1' s2'.
Proof.
  intros H1 H2 (j & Hj & H0 & H). exists j. unfold bullet_at in *.
  rewrite <- H1, <- H2. auto.
Qed.

Lemma has_free_bullet_bullets s s' :
  bullets s = bullets s' -> has_free_bullet s -> has_free_bullet s'.
Proof. intros H (j & b & Hj & Hb). exists j, b. now rewrite <- H. Qed.

Lemma get_weapon_cooldown_rapid :
  get_weapon_cooldown WEAPON_TYPE_RAPID = f32_div (f32_of_Z 1) (f32_of_Z 10).
Proof. reflexivity. Qed.

(** C7, amended. In the firing step of an occupied slot, with the cooldown
    first lowered by [dt] when it was positive: a projectile appears
    exactly when the input carries the fire flag, the cooldown is at or
    below zero and a projectile slot is free; whenever the flag is set
    and the cooldown has elapsed the cooldown is reset to one over the
    weapon's fire rate; otherwise the cooldown keeps its lowered value
    and the projectile table is unchanged. *)
Theorem firing_step_spawns_when_slot_free
    (sinf cosf : f32 -> f32) (dt : f32) (i : nat) (s : GameServer) :
  server_wf s ->
  p_occupied (player_at s i) = true ->
  let p := player_at s i in
  let c := cooled dt (p_fire_cooldown p) in
  let s' := fire_player sinf cosf dt i s in
  (spawned s s' <-> may_fire (p_input_flags p) c = true /\ has_free_bullet s) /\
  (may_fire (p_input_flags p) c = true ->
     p_fire_cooldown (player_at s' i) = get_weapon_cooldown (p_weapon p)) /\
  (may_fire (p_input_flags p) c = false ->
     p_fire_cooldown (player_at s' i) = c /\ bullets s' = bullets s).
Proof.
  intros Hwf Hocc p c s'.
  pose proof (player_at_occupied _ _ Hocc) as Hslot.
  assert (Hi : (i < length (players s))%nat) by now apply lookup_lt_Some in Hslot.
  set (s1 := set_player i (p_set_fire_cooldown c p) s).
  assert (Hwf1 : server_wf s1) by now apply set_player_wf.
  destruct (may_fire (p_input_flags p) c) eqn:Hfire.
  - destruct (fire_player_fired sinf cosf dt i s Hocc Hfire) as (s1' & s2 & -> & -> & Hs').
    fold p c s1 s' in Hs'.
    pose proof (server_spawn_bullet_spawn_like sinf cosf s1 i (p_x p) (p_y p)) as Hlike.
    set (s2 := server_spawn_bullet sinf cosf s1 i (p_x p) (p_y p)) in *.
    destruct Hlike as (Hp & _ & _ & _ & _ & Hnew & _).
    assert (Hb' : bullets s' = bullets s2) by now rewrite Hs'.
    split; [split|split].
    + intros Hsp. split; [reflexivity|].
      apply has_free_bullet_slot; [exact Hwf|].
      destruct Hsp as (j & Hj & H0 & _). eauto.
    + intros [_ Hfree].
      apply (spawned_bullets s1 s s2 s'); [reflexivity | now rewrite Hb' |].
      apply Hnew; [exact Hwf1|].
      now apply (has_free_bullet_bullets s s1).
    + intros _. rewrite Hs'. rewrite player_at_set_player_eq; [reflexivity|].
      rewrite Hp. cbn. now rewrite length_insert.
    + discriminate.
  - assert (Hs' : s' = s1) by (now apply fire_player_refused).
    split; [split|split].
    + intros Hsp. exfalso. apply (spawned_not_self s).
      apply (spawned_bullets s s s' s); [reflexivity | now rewrite Hs' | exact Hsp].
    + intros [Hcontra _]. discriminate.
    + discriminate.
    + intros _. rewrite Hs'. split; [|reflexivity].
      unfold s1. now rewrite player_at_set_player_eq.
Qed.

Lemma rapid_fire_at_twenty_hertz :
  let dt := f32_lit 5 2 in
  let s1 := server_handle_firing no_trig no_trig rapid_fire_server dt in
  let s2 := server_handle_firing no_trig no_trig s1 dt in
  let s3 := server_handle_firing no_trig no_trig s2 dt in
  spawned rapid_fire_server (fire_player no_trig no_trig dt 0 rapid_fire_server) /\
  bullet_count s1 = 1 /\
  p_fire_cooldown (player_at s1 0) = f32_div (f32_of_Z 1) (f32_of_Z 10) /\
  bullet_count s2 = 1 /\ bullets s2 = bullets s1 /\
  bullet_count s3 = 2.
Proof.
  cbv zeta. split.
  - apply (firing_step_spawns_when_slot_free no_trig no_trig (f32_lit 5 2) 0
             rapid_fire_server).
    + split; reflexivity.
    + reflexivity.
    + split; [reflexivity|].
      exists 0%nat, zero_bullet. split; reflexivity.
  - vm_compute. repeat split; reflexivity.
Defined.

Lemma firing_with_full_table_spawns_nothing :
  let dt := f32_div (f32_of_Z 1) (f32_of_Z TICK_RATE) in
  let p := player_at crowded_server 0 in
  let s' := fire_player no_trig no_trig dt 0 crowded_server in
  server_wf crowded_server /\ server_inv crowded_server /\
  p_occupied p = true /\
  may_fire (p_input_flags p) (cooled dt (p_fire_cooldown p)) = true /\
  ~ spawned crowded_server s' /\
  bullets s' = bullets crowded_server /\
  p_fire_cooldown (player_at s' 0) = get_weapon_cooldown WEAPON_TYPE_RAPID.
Proof.
  cbv zeta.
  split; [split; reflexivity|].
  split; [split; reflexivity|].
  split; [reflexivity|].
  split; [reflexivity|].
  split.
  - intros (j & Hj & H0 & _).
    unfold bullet_at, crowded_server in H0. cbn [bullets] in H0.
    rewrite lookup_replicate_2 in H0 by exact Hj. discriminate.
  - split; vm_compute; reflexivity.
Qed.

(** ** Sizes of the object representations *)

Lemma length_bytes_of_MessageHeader bo h : length (bytes_of_MessageHeader bo h) = 3%nat.
Proof. unfold bytes_of_MessageHeader. now rewrite length_app, !length_store_int. Qed.

Lemma length_bytes_of_GameStateMsg bo g : length (bytes_of_GameStateMsg bo g) = 10%nat.
Proof. unfold bytes_of_GameStateMsg. now rewrite !length_app, !length_store_int. Qed.

Lemma length_bytes_of_PlayerState bo p : length (bytes_of_PlayerState bo p) = 21%nat.
Proof.
  unfold bytes_of_PlayerState, store_f32. now rewrite !length_app, !length_store_int.
Qed.

Lemma length_bytes_of_BulletState bo b : length (bytes_of_BulletState bo b) = 18%nat.
Proof.
  unfold bytes_of_BulletState, store_f32. now rewrite !length_app, !length_store_int.
Qed.

Lemma length_flat_map_const {A B : Type} (f : A -> list B) (k : nat) (l : list A) :
  (forall x, length (f x) = k) -> length (flat_map f l) = (k * length l)%nat.
Proof.
  intros Hf. induction l as [|x l IH]; cbn; [lia|].
  rewrite length_app, Hf, IH. lia.
Qed.

(** ** Writing into the message buffer *)

Lemma buf_write_after (pre rest src : list Z) :
  (length src <= length rest)%nat ->
  buf_write (pre ++ rest) (length pre) src
  = Some ((pre ++ src) ++ drop (length src) rest).
Proof.
  intros Hlen. unfold buf_write.
  rewrite length_app.
  destruct (Nat.leb_spec (length pre + length src) (length pre + length rest)); [|lia].
  f_equal. rewrite take_app_length.
  rewrite drop_app_ge by lia.
  rewrite <- app_assoc. do 2 f_equal. f_equal. lia.
Qed.

Lemma buf_write_at (pre rest src : list Z) (off : nat) :
  off = length pre ->
  (length src <= length rest)%nat ->
  buf_write (pre ++ rest) off src
  = Some ((pre ++ src) ++ drop (length src) rest).
Proof. intros ->. apply buf_write_after. Qed.

Lemma bind_Some {A B : Type} (x : A) (f : A -> option B) : (Some x ≫= f) = f x.
Proof. reflexivity. Qed.

(** ** Occupied slots in index order *)

Lemma filter_seq_S (f : nat -> bool) lo n :
  List.filter f (seq lo (S n))
  = if f lo then lo :: List.filter f (seq (S lo) n) else List.filter f (seq (S lo) n).
Proof. reflexivity. Qed.

Lemma count_if_filter_seq {A : Type} (f : A -> bool) (d : A) :
  forall (l : list A) lo (g : nat -> A),
    (forall i, (i < length l)%nat -> g (lo + i)%nat = default d (l !! i)) ->
    count_if f l = length (List.filter (fun i => f (g i)) (seq lo (length l))).
Proof.
  induction l as [|x l IH]; intros lo g Hg; [reflexivity|].
  cbn [length count_if]. rewrite filter_seq_S.
  pose proof (Hg 0%nat ltac:(cbn; lia)) as H0. rewrite Nat.add_0_r in H0. cbn in H0.
  rewrite H0.
  rewrite (IH (S lo) g).
  - destruct (f x); reflexivity.
  - intros i Hi. specialize (Hg (S i) ltac:(cbn; lia)).
    change ((x :: l) !! S i) with (l !! i) in Hg.
    rewrite <- Hg. f_equal. lia.
Qed.

Lemma player_count_occupied_slots s :
  server_wf s -> players_counted s ->
  player_count s = Z.of_nat (length (occupied_player_slots s)).
Proof.
  intros [Hlp _] Hpc. rewrite Hpc. f_equal.
  unfold occupied_player_slots. rewrite <- Hlp.
  apply (count_if_filter_seq p_occupied zero_player (players s) 0 (player_at s)).
  intros i _. reflexivity.
Qed.

Lemma length_filter_seq_le (f : nat -> bool) lo n :
  (length (List.filter f (seq lo n)) <= n)%nat.
Proof.
  revert lo; induction n as [|n IH]; intros lo; [cbn; lia|].
  rewrite filter_seq_S. specialize (IH (S lo)). destruct (f lo); cbn; lia.
Qed.

(** ** The counting loop *)

Lemma count_sync_bullets_loop s :
  forall n lo c,
    0 <= c <= MAX_SYNC_BULLETS ->
    for_from (fun i bullet_count =>
                if bullet_count <? MAX_SYNC_BULLETS
                then if truthy (b_active (bullet_at s i))
                     then bullet_count + 1 else bullet_count
                else bullet_count) lo n c
    = Z.min MAX_SYNC_BULLETS
        (c + Z.of_nat (length (List.filter (fun i => b_occupied (bullet_at s i))
                                           (seq lo n)))).
Proof.
  unfold MAX_SYNC_BULLETS.
  induction n as [|n IH]; intros lo c Hc.
  - cbn. lia.
  - cbn [for_from]. rewrite filter_seq_S.
    change (b_occupied (bullet_at s lo)) with (truthy (b_active (bullet_at s lo))).
    destruct (Z.ltb_spec c 50).
    + destruct (truthy (b_active (bullet_at s lo))).
      * rewrite IH by lia. clear IH. rewrite length_cons. lia.
      * rewrite IH by lia. reflexivity.
    + rewrite IH by lia. clear IH.
      destruct (truthy (b_active (bullet_at s lo))); rewrite ?length_cons; lia.
Qed.

Lemma count_sync_bullets_synced s :
  count_sync_bullets s = Z.of_nat (length (synced_bullet_slots s)).
Proof.
  unfold count_sync_bullets. rewrite count_sync_bullets_loop by (unfold MAX_SYNC_BULLETS; lia).
  unfold synced_bullet_slots, occupied_bullet_slots.
  rewrite length_take. unfold MAX_SYNC_BULLETS. lia.
Qed.

Lemma length_synced_bullet_slots s :
  (length (synced_bullet_slots s) <= 50)%nat.
Proof.
  unfold synced_bullet_slots. rewrite length_take.
  change (Z.to_nat MAX_SYNC_BULLETS) with 50%nat. lia.
Qed.

Lemma length_occupied_player_slots s :
  (length (occupied_player_slots s) <= 4)%nat.
Proof. apply (length_filter_seq_le _ 0 4). Qed.

(** ** The record loops *)

Lemma fill_player_loop host s :
  forall n lo pre rest idx,
    length pre = (off_players + idx * 21)%nat ->
    (21 * length (List.filter (fun i => p_occupied (player_at s i)) (seq lo n))
     <= length rest)%nat ->
    for_from_opt (fill_player host s) lo n (pre ++ rest, idx)
    = Some ((pre ++ flat_map (fun i => bytes_of_PlayerState host
                                         (player_state_of i (player_at s i)))
                             (List.filter (fun i => p_occupied (player_at s i)) (seq lo n)))
            ++ drop (21 * length (List.filter (fun i => p_occupied (player_at s i))
                                              (seq lo n))) rest,
            (idx + length (List.filter (fun i => p_occupied (player_at s i))
                                       (seq lo n)))%nat).
Proof.
  induction n as [|n IH]; intros lo pre rest idx Hpre Hrest.
  - cbn. rewrite app_nil_r, Nat.add_0_r. reflexivity.
  - cbn [for_from_opt]. unfold fill_player at 1.
    rewrite filter_seq_S in Hrest |- *.
    change (p_occupied (player_at s lo)) with (truthy (p_active (player_at s lo))) in *.
    destruct (truthy (p_active (player_at s lo))); cbn [negb].
    + change (Z.to_nat sizeof_PlayerState) with 21%nat.
      rewrite <- Hpre.
      cbn [length] in Hrest.
      rewrite buf_write_after by (rewrite length_bytes_of_PlayerState; lia).
      rewrite length_bytes_of_PlayerState.
      rewrite IH; clear IH.
      * cbn [flat_map length]. rewrite drop_drop.
        rewrite <- !app_assoc. f_equal. f_equal; [|lia].
        do 4 f_equal. lia.
      * rewrite length_app, length_bytes_of_PlayerState, Hpre. lia.
      * rewrite length_drop. lia.
    + apply IH; assumption.
Qed.

Lemma fill_bullet_loop host s off (cap : nat) :
  forall n lo pre rest bidx,
    length pre = (off + bidx * 18)%nat ->
    (bidx <= cap)%nat ->
    (18 * length (take (cap - bidx)
                       (List.filter (fun i => b_occupied (bullet_at s i)) (seq lo n)))
     <= length rest)%nat ->
    for_from_opt (fill_bullet host s off (Z.of_nat cap)) lo n (pre ++ rest, bidx)
    = Some ((pre ++ flat_map (fun i => bytes_of_BulletState host
                                         (bullet_state_of (bullet_at s i)))
                             (take (cap - bidx)
                                (List.filter (fun i => b_occupied (bullet_at s i))
                                             (seq lo n))))
            ++ drop (18 * length (take (cap - bidx)
                                    (List.filter (fun i => b_occupied (bullet_at s i))
                                                 (seq lo n)))) rest,
            (bidx + length (take (cap - bidx)
                              (List.filter (fun i => b_occupied (bullet_at s i))
                                           (seq lo n))))%nat).
Proof.
  induction n as [|n IH]; intros lo pre rest bidx Hpre Hcap Hrest.
  - cbn. rewrite take_nil. cbn. rewrite app_nil_r, Nat.add_0_r. reflexivity.
  - cbn [for_from_opt]. unfold fill_bullet at 1.
    rewrite filter_seq_S in Hrest |- *.
    change (b_occupied (bullet_at s lo)) with (truthy (b_active (bullet_at s lo))) in *.
    destruct (Z.ltb_spec (Z.of_nat bidx) (Z.of_nat cap)) as [Hlt|Hge].
    + destruct (truthy (b_active (bullet_at s lo))); cbn [negb].
      * change (Z.to_nat sizeof_BulletState) with 18%nat.
        rewrite <- Hpre.
        replace (cap - bidx)%nat with (S (cap - S bidx)) in Hrest |- * by lia.
        cbn [take length] in Hrest.
        rewrite buf_write_after by (rewrite length_bytes_of_BulletState; lia).
        rewrite length_bytes_of_BulletState.
        rewrite IH; clear IH.
        -- cbn [take flat_map length]. rewrite drop_drop.
           rewrite <- !app_assoc. f_equal. f_equal; [|lia].
           do 4 f_equal. lia.
        -- rewrite length_app, length_bytes_of_BulletState, Hpre. lia.
        -- lia.
        -- rewrite length_drop. lia.
      * apply IH; assumption.
    + assert (Hz : (cap - bidx)%nat = 0%nat) by lia.
      specialize (IH (S lo) pre rest bidx Hpre Hcap).
      rewrite Hz in IH, Hrest |- *.
      rewrite take_0 in IH |- *. apply IH. cbn. lia.
Qed.

(** ** The snapshot buffer *)

Lemma patch_your_sequence bo s q q' :
  buf_write (snapshot_message bo s q) off_your_sequence (store_int bo 4 q')
  = Some (snapshot_message bo s q').
Proof.
  unfold snapshot_message, bytes_of_GameStateMsg. cbn [gs_tick gs_your_sequence
    gs_player_count gs_bullet_count].
  set (hdr := bytes_of_MessageHeader bo _).
  set (tk := store_int bo 4 (tick s)).
  set (tl := store_int bo 1 _ ++ store_int bo 1 _).
  set (recs := flat_map _ _ ++ flat_map _ _).
  assert (Hoff : off_your_sequence = length (hdr ++ tk)).
  { unfold hdr, tk. now rewrite length_app, length_bytes_of_MessageHeader, length_store_int. }
  replace (hdr ++ (tk ++ store_int bo 4 q ++ tl) ++ recs)
    with ((hdr ++ tk) ++ (store_int bo 4 q ++ tl ++ recs))
    by (now rewrite <- !app_assoc).
  rewrite Hoff, buf_write_after.
  - rewrite (drop_app_length' (store_int bo 4 q))
      by (now rewrite !length_store_int).
    now rewrite <- !app_assoc.
  - rewrite length_app, !length_store_int. lia.
Qed.

Lemma build_state_buffer_snapshot host s fresh :
  server_wf s -> players_counted s ->
  build_state_buffer host s fresh = Some (snapshot_message host s 0).
Proof.
  intros Hwf Hpc. unfold build_state_buffer. cbv zeta.
  rewrite count_sync_bullets_synced, (player_count_occupied_slots s Hwf Hpc).
  pose proof (length_synced_bullet_slots s) as HB.
  pose proof (length_occupied_player_slots s) as HP.
  remember (length (occupied_player_slots s)) as np eqn:Enp.
  remember (length (synced_bullet_slots s)) as nb eqn:Enb.
  unfold sizeof_GameStateMsg, sizeof_PlayerState, sizeof_BulletState, sizeof_MessageHeader.
  set (state_size := 4 + 4 + 1 + 1 + Z.of_nat np * _ + Z.of_nat nb * _).
  assert (Hsize : state_size = 10 + 21 * Z.of_nat np + 18 * Z.of_nat nb)
    by (unfold state_size; lia).
  assert (Hu16 : u16 state_size = state_size)
    by (unfold u16; apply Z.mod_small; lia).
  assert (Hu8p : u8 (Z.of_nat np) = Z.of_nat np) by (unfold u8; apply Z.mod_small; lia).
  assert (Hu8b : u8 (Z.of_nat nb) = Z.of_nat nb) by (unfold u8; apply Z.mod_small; lia).
  rewrite Hu16, Hu8p, Hu8b.
  set (hdr := bytes_of_MessageHeader host _).
  set (st := bytes_of_GameStateMsg host _).
  set (buffer0 := map fresh _).
  assert (Hlen0 : length buffer0 = (13 + 21 * np + 18 * nb)%nat).
  { unfold buffer0. rewrite length_map, length_seq. lia. }
  assert (Hhdr : length hdr = 3%nat) by apply length_bytes_of_MessageHeader.
  assert (Hst : length st = 10%nat) by apply length_bytes_of_GameStateMsg.
  (* header *)
  pose proof (buf_write_after [] buffer0 hdr ltac:(lia)) as H1.
  cbn [app length] in H1.
  (* fixed part *)
  assert (Hfit2 : (length st <= length (drop (length hdr) buffer0))%nat)
    by (rewrite length_drop; clearbody buffer0 hdr st; clear - Hlen0 Hhdr Hst; lia).
  pose proof (buf_write_at hdr (drop (length hdr) buffer0) st off_state
                (eq_sym Hhdr) Hfit2) as H2.
  rewrite drop_drop in H2.
  (* player records *)
  pose proof (fill_player_loop host s MAX_PLAYERS 0 (hdr ++ st)
                (drop (length hdr + length st) buffer0) 0) as H3.
  unfold occupied_player_slots in Enp.
  rewrite <- Enp in H3.
  rewrite drop_drop in H3.
  specialize (H3 ltac:(rewrite length_app, Hhdr, Hst; reflexivity)
                 ltac:(rewrite length_drop; lia)).
  set (precs := flat_map _ (List.filter _ (seq 0 MAX_PLAYERS))) in H3.
  assert (Hprecs : length precs = (21 * np)%nat).
  { unfold precs. rewrite Enp. apply length_flat_map_const.
    intros. apply length_bytes_of_PlayerState. }
  (* bullet records *)
  pose proof (fill_bullet_loop host s
                (Z.to_nat (1 + 2 + (4 + 4 + 1 + 1) + Z.of_nat np * (1 + 4 + 4 + 4 + 4 + 2 + 1 + 1)))
                nb MAX_SERVER_BULLETS 0 ((hdr ++ st) ++ precs)
                (drop (length hdr + length st + 21 * np) buffer0) 0) as H4.
  rewrite Nat.sub_0_r in H4.
  assert (Htake : take nb (List.filter (fun i => b_occupied (bullet_at s i))
                                       (seq 0 MAX_SERVER_BULLETS))
                  = synced_bullet_slots s).
  { rewrite Enb. unfold synced_bullet_slots, occupied_bullet_slots.
    generalize (List.filter (fun i => b_occupied (bullet_at s i))
                            (seq 0 MAX_SERVER_BULLETS)) as occ.
    intros occ. generalize (Z.to_nat MAX_SYNC_BULLETS) as cap. intros cap.
    rewrite length_take.
    destruct (Nat.le_ge_cases cap (length occ)) as [Hle|Hge].
    - now rewrite Nat.min_l by exact Hle.
    - rewrite Nat.min_r by exact Hge. now rewrite !take_ge by lia. }
  rewrite Htake in H4. rewrite <- Enb in H4.
  specialize (H4 ltac:(rewrite !length_app, Hhdr, Hst, Hprecs; lia) ltac:(lia)
                 ltac:(rewrite length_drop; lia)).
  rewrite drop_drop in H4.
  assert (Hall : (length buffer0 <= length hdr + length st + 21 * np + 18 * nb)%nat)
    by (clearbody buffer0 hdr st; clear - Hlen0 Hhdr Hst; lia).
  rewrite (drop_ge buffer0 _ Hall) in H4.
  rewrite H1, bind_Some.
  rewrite H2, bind_Some.
  rewrite H3, bind_Some. cbv beta iota.
  rewrite H4, bind_Some. cbv beta iota.
  f_equal.
  unfold snapshot_message. unfold occupied_player_slots at 1 2.
  rewrite <- Enp, <- Enb.
  unfold sizeof_GameStateMsg, sizeof_PlayerState, sizeof_BulletState.
  change (4 + 4 + 1 + 1 + Z.of_nat np * (1 + 4 + 4 + 4 + 4 + 2 + 1 + 1) +
          Z.of_nat nb * (1 + 4 + 4 + 4 + 4 + 1)) with state_size.
  fold hdr st precs.
  rewrite app_nil_r, <- !app_assoc. reflexivity.
Qed.

(** ** The send loop *)

Lemma after_send_not_failed bo send_result s i (o : option ServerPlayer) :
  send_failed bo send_result s i = false ->
  after_send bo send_result s i <$> o = o.
Proof.
  intros H. destruct o as [p|]; [|reflexivity]. cbn. unfold after_send. now rewrite H.
Qed.

Lemma send_loop host send_result s :
  forall n lo t q evs,
    (forall j, (lo <= j)%nat -> players t !! j = players s !! j) ->
    exists t' q',
      for_from_opt (send_to_player host send_result) lo n
                   (t, snapshot_message host s q, evs)
      = Some (t', snapshot_message host s q',
              evs ++ flat_map (broadcast_slot_events host send_result s) (seq lo n)) /\
      (forall j, players t' !! j =
                 if decide (lo <= j < lo + n)%nat
                 then after_send host send_result s j <$> players s !! j
                 else players t !! j) /\
      player_count t' =
        player_count t -
        Z.of_nat (length (List.filter (send_failed host send_result s) (seq lo n))) /\
      bullets t' = bullets t /\ bullet_count t' = bullet_count t /\
      tick t' = tick t /\ listen_socket t' = listen_socket t.
Proof.
  induction n as [|n IH]; intros lo t q evs Hagree.
  - exists t, q. cbn. rewrite app_nil_r. split; [reflexivity|].
    split; [|repeat split; lia].
    intros j. destruct (decide _); [lia | reflexivity].
  - assert (Hat : player_at t lo = player_at s lo).
    { unfold player_at. now rewrite Hagree by lia. }
    assert (Hstep : forall j t1,
               (forall k, k <> lo -> players t1 !! k = players t !! k) ->
               players t1 !! lo = after_send host send_result s lo <$> players s !! lo ->
               (if decide (S lo <= j < S lo + n)%nat
                then after_send host send_result s j <$> players s !! j
                else players t1 !! j)
               = (if decide (lo <= j < lo + S n)%nat
                  then after_send host send_result s j <$> players s !! j
                  else players t !! j)).
    { intros j t1 Hoth Hlo.
      destruct (decide (S lo <= j < S lo + n)%nat).
      - destruct (decide _); [reflexivity | lia].
      - destruct (decide (lo <= j < lo + S n)%nat) as [Hin|Hout].
        + assert (j = lo) as -> by lia. exact Hlo.
        + apply Hoth. lia. }
    change (flat_map (broadcast_slot_events host send_result s) (seq lo (S n)))
      with (broadcast_slot_events host send_result s lo ++
            flat_map (broadcast_slot_events host send_result s) (seq (S lo) n)).
    rewrite filter_seq_S.
    cbn [for_from_opt]. unfold send_to_player at 1. rewrite Hat.
    unfold broadcast_slot_events at 1. unfold send_failed at 1.
    unfold recipient_message.
    change (truthy (p_active (player_at s lo))) with (p_occupied (player_at s lo)).
    destruct (p_occupied (player_at s lo)) eqn:Hocc; cbn [negb andb].
    + rewrite patch_your_sequence.
      assert (Hs_lo : players s !! lo = Some (player_at s lo))
        by now apply player_at_occupied.
      assert (Ht_lo : players t !! lo = Some (player_at s lo))
        by (rewrite Hagree by lia; exact Hs_lo).
      destruct (send_result (p_socket (player_at s lo)) (snapshot_message host s (p_last_sequence (player_at s lo))) <? 0)
        eqn:Hfail.
      * destruct (IH (S lo) (drop_player lo t) (p_last_sequence (player_at s lo))
                     (evs ++ [EvSend (p_socket (player_at s lo)) (snapshot_message host s (p_last_sequence (player_at s lo)));
                              EvPrintf "Failed to send state to player %d, disconnecting"
                                       [PInt (Z.of_nat lo)];
                              EvClose (p_socket (player_at s lo))]))
          as (t' & q' & Hrun & Hget & Hcount & Hb & Hbc & Htk & Hls).
        { intros j Hj. cbn. rewrite list_lookup_insert_ne by lia. apply Hagree. lia. }
        exists t', q'.
        rewrite Hrun. split; [now rewrite <- app_assoc|].
        split.
        { intros j. rewrite Hget. apply Hstep.
          - intros k Hk. cbn. apply list_lookup_insert_ne. congruence.
          - cbn [drop_player players with_player_count set_player with_players].
            rewrite list_lookup_insert_eq by (apply lookup_lt_Some in Ht_lo; exact Ht_lo).
            rewrite Hat, Hs_lo. cbn. unfold after_send, send_failed.
            unfold recipient_message. now rewrite Hocc, Hfail. }
        split.
        { rewrite Hcount. cbn [drop_player player_count with_player_count length].
          rewrite Nat2Z.inj_succ. lia. }
        cbn in Hb, Hbc, Htk, Hls. repeat split; assumption.
      * destruct (IH (S lo) t (p_last_sequence (player_at s lo))
                     (evs ++ [EvSend (p_socket (player_at s lo)) (snapshot_message host s (p_last_sequence (player_at s lo)))]))
          as (t' & q' & Hrun & Hget & Hcount & Hrest).
        { intros j Hj. apply Hagree. lia. }
        exists t', q'.
        rewrite Hrun. split; [now rewrite <- app_assoc|].
        split; [|split; [exact Hcount | exact Hrest]].
        intros j. rewrite Hget. apply Hstep; [reflexivity|].
        rewrite after_send_not_failed; [apply Hagree; lia|].
        unfold send_failed, recipient_message. now rewrite Hocc, Hfail.
    + destruct (IH (S lo) t q evs) as (t' & q' & Hrun & Hget & Hcount & Hrest).
      { intros j Hj. apply Hagree. lia. }
      exists t', q'. rewrite Hrun. split; [reflexivity|].
      split; [|split; [exact Hcount | exact Hrest]].
      intros j. rewrite Hget. apply Hstep; [reflexivity|].
      rewrite after_send_not_failed; [apply Hagree; lia|].
      unfold send_failed. now rewrite Hocc.
Qed.

(** ** The broadcast as a whole *)

Lemma server_send_state_closed host s fresh send_result :
  server_wf s -> players_counted s ->
  exists s',
    server_send_state host s (Some fresh) send_result
    = Some (s', broadcast_events host send_result s) /\
    (forall j, players s' !! j = after_send host send_result s j <$> players s !! j) /\
    player_count s' =
      player_count s -
      Z.of_nat (length (List.filter (send_failed host send_result s) (seq 0 MAX_PLAYERS))) /\
    bullets s' = bullets s /\ bullet_count s' = bullet_count s /\
    tick s' = tick s /\ listen_socket s' = listen_socket s.
Proof.
  intros Hwf Hpc.
  destruct (send_loop host send_result s MAX_PLAYERS 0 s 0 [] ltac:(reflexivity))
    as (s' & q' & Hrun & Hget & Hcount & Hrest).
  exists s'. unfold server_send_state.
  rewrite (build_state_buffer_snapshot host s fresh Hwf Hpc), bind_Some.
  rewrite Hrun, bind_Some. cbv beta iota.
  split; [reflexivity|]. split; [|split; [exact Hcount | exact Hrest]].
  intros j. rewrite Hget. destruct (decide _) as [|Hout]; [reflexivity|].
  destruct Hwf as [Hlp _].
  rewrite (lookup_ge_None_2 (players s) j) by (rewrite Hlp; lia). reflexivity.
Qed.

Lemma sends_app e1 e2 : sends (e1 ++ e2) = sends e1 ++ sends e2.
Proof. unfold sends. apply flat_map_app. Qed.

Lemma sends_broadcast_slots host send_result s :
  forall n lo,
    sends (flat_map (broadcast_slot_events host send_result s) (seq lo n))
    = map (fun i => (p_socket (player_at s i), recipient_message host s i))
          (List.filter (fun i => p_occupied (player_at s i)) (seq lo n)).
Proof.
  induction n as [|n IH]; intros lo; [reflexivity|].
  rewrite filter_seq_S.
  change (flat_map (broadcast_slot_events host send_result s) (seq lo (S n)))
    with (broadcast_slot_events host send_result s lo ++
          flat_map (broadcast_slot_events host send_result s) (seq (S lo) n)).
  rewrite sends_app, IH.
  unfold broadcast_slot_events at 1.
  destruct (p_occupied (player_at s lo)); [|reflexivity].
  destruct (_ <? 0); reflexivity.
Qed.

Lemma sends_broadcast_events host send_result s :
  sends (broadcast_events host send_result s)
  = map (fun i => (p_socket (player_at s i), recipient_message host s i))
        (occupied_player_slots s).
Proof. apply sends_broadcast_slots. Qed.

Lemma for_from_opt_invariant {St : Type} (P : St -> Prop) (body : nat -> St -> option St) :
  (forall i t t', P t -> body i t = Some t' -> P t') ->
  forall n lo s s', P s -> for_from_opt body lo n s = Some s' -> P s'.
Proof.
  intros Hbody. induction n as [|n IH]; intros lo s s' Hs Hrun; cbn in Hrun.
  - now injection Hrun as <-.
  - destruct (body lo s) as [t|] eqn:Hb; [|discriminate].
    apply (IH (S lo) t s'); [now apply (Hbody lo s t) | exact Hrun].
Qed.

Lemma send_to_player_preserves host send_result i st st' :
  send_to_player host send_result i st = Some st' ->
  preserves (fst (fst st)) (fst (fst st')).
Proof.
  destruct st as [[t buffer] evs]. cbn [fst].
  unfold send_to_player.
  destruct (truthy (p_active (player_at t i))) eqn:Hocc; cbn [negb].
  2:{ intros [= <-]. apply preserves_refl. }
  destruct (buf_write _ _ _) as [buffer'|]; [|discriminate].
  destruct (_ <? 0); intros [= <-]; cbn [fst].
  - now apply drop_player_preserves.
  - apply preserves_refl.
Qed.

Lemma server_send_state_preserves host s heap send_result s' evs :
  server_send_state host s heap send_result = Some (s', evs) -> preserves s s'.
Proof.
  unfold server_send_state.
  destruct heap as [fresh|]; [|intros [= <- _]; apply preserves_refl].
  destruct (build_state_buffer host s fresh) as [buffer|]; [|discriminate].
  rewrite bind_Some.
  destruct (for_from_opt _ _ _ _) as [[[t b] e]|] eqn:Hrun; [|discriminate].
  rewrite bind_Some. intros [= <- _].
  apply (for_from_opt_invariant
           (fun st => preserves s (fst (fst st)))
           (send_to_player host send_result)
           (fun i st st' Hst Hstep =>
              preserves_trans _ _ _ Hst
                (send_to_player_preserves host send_result i st st' Hstep))
           MAX_PLAYERS 0%nat (s, buffer, []) (t, b, e));
    [apply preserves_refl | exact Hrun].
Qed.

(** ** Broadcast *)

(** C5. The broadcast runs to completion whatever the sends return. Every
    occupied slot is sent its own copy of the snapshot, in slot order;
    exactly the slots whose send failed have their occupied flag cleared,
    every other slot is as before; the player count drops by the number
    of failed sends; projectiles and tick are untouched. *)
Theorem broadcast_isolates_send_failures
    (host : byte_order) (s : GameServer) (fresh : nat -> Z)
    (send_result : Z -> list Z -> Z) :
  server_wf s -> players_counted s ->
  exists s',
    server_send_state host s (Some fresh) send_result
    = Some (s', broadcast_events host send_result s) /\
    sends (broadcast_events host send_result s)
    = map (fun i => (p_socket (player_at s i), recipient_message host s i))
          (occupied_player_slots s) /\
    (forall i, (i < MAX_PLAYERS)%nat ->
       player_at s' i = if send_failed host send_result s i
                        then p_set_active 0 (player_at s i) else player_at s i) /\
    player_count s' =
      player_count s -
      Z.of_nat (length (List.filter (send_failed host send_result s) (seq 0 MAX_PLAYERS))) /\
    bullets s' = bullets s /\ bullet_count s' = bullet_count s /\ tick s' = tick s.
Proof.
  intros Hwf Hpc.
  destruct (server_send_state_closed host s fresh send_result Hwf Hpc)
    as (s' & Hrun & Hget & Hcount & Hb & Hbc & Htk & _).
  exists s'. split; [exact Hrun|].
  split; [apply sends_broadcast_events|].
  split; [|auto].
  intros i Hi. destruct Hwf as [Hlp _].
  unfold player_at at 1. rewrite Hget.
  rewrite (player_at_in_range s i) by (rewrite Hlp; exact Hi).
  reflexivity.
Qed.

Lemma broadcast_survives_broken_socket :
  exists s',
    server_send_state LittleEndian two_player_server (Some (fun _ => 0)) socket_10_broken
    = Some (s', broadcast_events LittleEndian socket_10_broken two_player_server) /\
    map fst (sends (broadcast_events LittleEndian socket_10_broken two_player_server))
    = [10; 11] /\
    p_active (player_at s' 0) = 0 /\ p_active (player_at s' 1) = 1 /\
    player_count s' = 1.
Proof.
  destruct (broadcast_isolates_send_failures LittleEndian two_player_server
              (fun _ => 0) socket_10_broken)
    as (s' & Hrun & Hsends & Hslots & Hcount & _).
  - split; reflexivity.
  - reflexivity.
  - exists s'. split; [exact Hrun|].
    split; [rewrite Hsends; reflexivity|].
    split; [rewrite (Hslots 0%nat) by (unfold MAX_PLAYERS; lia); reflexivity|].
    split; [rewrite (Hslots 1%nat) by (unfold MAX_PLAYERS; lia); reflexivity|].
    rewrite Hcount. reflexivity.
Defined.

(** ** Framing *)

(** Closes [lo <= c < hi] for a literal [c]. *)
Ltac literal_in_range := cbv; split; [discriminate | reflexivity].

Lemma header_of_bytes bo ty len payload :
  0 <= ty < 256 -> 0 <= len < 65536 ->
  MessageHeader_of_bytes bo
    (take 3 (bytes_of_MessageHeader bo {| h_type := ty; h_length := len |} ++ payload))
  = {| h_type := ty; h_length := len |}.
Proof.
  intros Hty Hlen.
  rewrite take_app_length' by (symmetry; apply length_bytes_of_MessageHeader).
  unfold MessageHeader_of_bytes, bytes_of_MessageHeader. cbn [h_type h_length].
  rewrite take_app_length' by (symmetry; apply length_store_int).
  rewrite drop_app_length' by (symmetry; apply length_store_int).
  rewrite take_ge by (rewrite length_store_int; lia).
  now rewrite !load_store_int by (cbn; lia).
Qed.

Lemma framed_message bo ty len payload :
  0 <= ty < 256 -> 0 <= len < 65536 ->
  len = Z.of_nat (length payload) ->
  framed bo (bytes_of_MessageHeader bo {| h_type := ty; h_length := len |} ++ payload).
Proof.
  intros Hty Hlen Hpay. split.
  - rewrite length_app, length_bytes_of_MessageHeader. lia.
  - rewrite header_of_bytes by assumption. cbn [h_length].
    rewrite length_app, length_bytes_of_MessageHeader. lia.
Qed.

Lemma length_snapshot_payload bo s q :
  Z.of_nat (length (bytes_of_GameStateMsg bo
                      {| gs_tick := tick s; gs_your_sequence := q;
                         gs_player_count := Z.of_nat (length (occupied_player_slots s));
                         gs_bullet_count := Z.of_nat (length (synced_bullet_slots s)) |} ++
                    flat_map (fun i => bytes_of_PlayerState bo
                                         (player_state_of i (player_at s i)))
                             (occupied_player_slots s) ++
                    flat_map (fun i => bytes_of_BulletState bo
                                         (bullet_state_of (bullet_at s i)))
                             (synced_bullet_slots s)))
  = sizeof_GameStateMsg +
    Z.of_nat (length (occupied_player_slots s)) * sizeof_PlayerState +
    Z.of_nat (length (synced_bullet_slots s)) * sizeof_BulletState.
Proof.
  rewrite !length_app, length_bytes_of_GameStateMsg.
  rewrite (length_flat_map_const _ 21) by (intros; apply length_bytes_of_PlayerState).
  rewrite (length_flat_map_const _ 18) by (intros; apply length_bytes_of_BulletState).
  unfold sizeof_GameStateMsg, sizeof_PlayerState, sizeof_BulletState. lia.
Qed.

Lemma framed_snapshot bo s q :
  framed bo (snapshot_message bo s q) /\
  h_length (MessageHeader_of_bytes bo (take 3 (snapshot_message bo s q)))
  = sizeof_GameStateMsg +
    Z.of_nat (length (occupied_player_slots s)) * sizeof_PlayerState +
    Z.of_nat (length (synced_bullet_slots s)) * sizeof_BulletState.
Proof.
  pose proof (length_occupied_player_slots s) as HP.
  pose proof (length_synced_bullet_slots s) as HB.
  pose proof (length_snapshot_payload bo s q) as Hlen.
  unfold snapshot_message. cbv zeta.
  assert (Hrange : 0 <= sizeof_GameStateMsg +
                        Z.of_nat (length (occupied_player_slots s)) * sizeof_PlayerState +
                        Z.of_nat (length (synced_bullet_slots s)) * sizeof_BulletState
                   < 65536).
  { unfold sizeof_GameStateMsg, sizeof_PlayerState, sizeof_BulletState. lia. }
  split.
  - apply framed_message; [literal_in_range | exact Hrange | now rewrite Hlen].
  - rewrite header_of_bytes; [reflexivity | literal_in_range | exact Hrange].
Qed.

Lemma framed_pair bo sock ty len payload :
  0 <= ty < 256 -> 0 <= len < 65536 -> len = Z.of_nat (length payload) ->
  framed bo (sent_to sock
               [EvSend sock (bytes_of_MessageHeader bo {| h_type := ty; h_length := len |});
                EvSend sock payload]).
Proof.
  intros Hty Hlen Hpay. cbn. rewrite Z.eqb_refl, app_nil_r.
  now apply framed_message.
Qed.

Lemma length_bytes_of_ConnectAckMsg bo m : length (bytes_of_ConnectAckMsg bo m) = 3%nat.
Proof. unfold bytes_of_ConnectAckMsg. now rewrite !length_app, !length_store_int. Qed.

Lemma length_bytes_of_PongMsg bo m : length (bytes_of_PongMsg bo m) = 8%nat.
Proof. unfold bytes_of_PongMsg. now rewrite !length_app, !length_store_int. Qed.

Lemma length_bytes_of_PlayerInputMsg bo m : length (bytes_of_PlayerInputMsg bo m) = 7%nat.
Proof. unfold bytes_of_PlayerInputMsg. now rewrite !length_app, !length_store_int. Qed.

Lemma length_bytes_of_name name : length (bytes_of_name name) = 16%nat.
Proof.
  unfold bytes_of_name. rewrite length_take, length_app, length_replicate. lia.
Qed.

Lemma length_bytes_of_ConnectMsg bo m : length (bytes_of_ConnectMsg bo m) = 17%nat.
Proof.
  unfold bytes_of_ConnectMsg.
  now rewrite length_app, length_store_int, length_bytes_of_name.
Qed.

Lemma sent_to_app sock e1 e2 : sent_to sock (e1 ++ e2) = sent_to sock e1 ++ sent_to sock e2.
Proof. unfold sent_to. apply flat_map_app. Qed.

Lemma framed_connect_ack bo sock ack :
  framed bo (sent_to sock (send_connect_ack bo sock ack)).
Proof.
  apply framed_pair; [literal_in_range | literal_in_range |].
  now rewrite length_bytes_of_ConnectAckMsg.
Qed.

Lemma accept_sends_framed host server inc :
  sent_to (inc_socket inc) (snd (server_accept_new_client host server inc)) = [] \/
  framed host (sent_to (inc_socket inc) (snd (server_accept_new_client host server inc))).
Proof.
  unfold server_accept_new_client.
  destruct (inc_socket inc =? INVALID_SOCKET); [now left|].
  destruct (inc_header inc) as [n_header connect_header].
  destruct (negb (n_header =? _)); [now left|].
  destruct (negb (h_type connect_header =? _)); [now left|].
  destruct (inc_connect inc) as [n_connect connect_msg].
  destruct (negb (n_connect =? _)); [now left|].
  destruct (negb (cm_version connect_msg =? _)).
  { right. cbn [snd]. rewrite !sent_to_app. cbn [sent_to flat_map app].
    rewrite app_nil_r. apply framed_connect_ack. }
  destruct (server_find_free_slot server <? 0).
  { right. cbn [snd]. rewrite !sent_to_app. cbn [sent_to flat_map app].
    rewrite app_nil_r. apply framed_connect_ack. }
  right. cbn [snd]. rewrite !sent_to_app. cbn [sent_to flat_map app].
  rewrite app_nil_r. apply framed_connect_ack.
Qed.

Lemma sent_to_flag_prints sock flags : sent_to sock (flag_prints flags) = [].
Proof.
  unfold flag_prints.
  repeat match goal with |- context [if ?b then _ else _] => destruct b end;
    reflexivity.
Qed.

Lemma handle_message_sends_framed host server lf pid rd :
  let sock := p_socket (player_at server pid) in
  let evs := snd (server_handle_client_message host server lf pid rd) in
  sent_to sock evs = [] \/ framed host (sent_to sock evs).
Proof.
  cbv zeta. unfold server_handle_client_message.
  destruct (negb _); [now left|].
  destruct (rd_bytes rd =? 0); [now left|].
  destruct (rd_bytes rd <? 0).
  { destruct (errno_would_block _); now left. }
  destruct (negb _); [now left|].
  destruct (h_type (rd_header rd) =? MSG_PLAYER_INPUT).
  { destruct (rd_input rd) as [n input].
    destruct (n <=? 0); [now left|].
    destruct (_ <=? _); [now left|]. left. cbn [snd].
    destruct (negb _); [|reflexivity].
    rewrite !sent_to_app, sent_to_flag_prints. reflexivity. }
  destruct (h_type (rd_header rd) =? MSG_DISCONNECT); [now left|].
  destruct (h_type (rd_header rd) =? MSG_PING); [|now left].
  destruct (rd_ping rd) as [n ping]. destruct (n >? 0); [|now left].
  right. cbn [snd]. apply framed_pair; [literal_in_range | literal_in_range |].
  now rewrite length_bytes_of_PongMsg.
Qed.

(** C3. Every message handed to the transport is a 3-byte header followed
    by exactly as many bytes as the header's length field announces: the
    snapshots of the broadcast, whose length field is
    [sizeof(GameStateMsg) + p * sizeof(PlayerState) + b * sizeof(BulletState)]
    for the [p] player and [b] projectile records they carry; the
    acknowledgements of the handshake; the pong; the input messages of
    both clients; the connect request and the disconnect notice. *)
Theorem every_message_is_framed (host : byte_order) :
  (forall s fresh send_result,
      server_wf s -> players_counted s ->
      exists s' evs,
        server_send_state host s (Some fresh) send_result = Some (s', evs) /\
        forall sock msg, In (sock, msg) (sends evs) ->
          framed host msg /\
          h_length (MessageHeader_of_bytes host (take 3 msg))
          = sizeof_GameStateMsg +
            Z.of_nat (length (occupied_player_slots s)) * sizeof_PlayerState +
            Z.of_nat (length (synced_bullet_slots s)) * sizeof_BulletState /\
          exists q, msg = snapshot_message host s q) /\
  (forall server inc,
      sent_to (inc_socket inc) (snd (server_accept_new_client host server inc)) = [] \/
      framed host (sent_to (inc_socket inc)
                           (snd (server_accept_new_client host server inc)))) /\
  (forall server last_flags player_id rd,
      let sock := p_socket (player_at server player_id) in
      let evs := snd (server_handle_client_message host server last_flags player_id rd) in
      sent_to sock evs = [] \/ framed host (sent_to sock evs)) /\
  (forall socket player_id shared,
      framed host (sent_to socket (snd (thread_send_input host socket player_id shared)))) /\
  (forall socket player_id input_flags sequence,
      framed host (sent_to socket
                     (snd (client_send_input host socket player_id input_flags sequence)))) /\
  (forall socket, framed host (sent_to socket (send_connect_request host socket))) /\
  (forall socket, framed host (sent_to socket (client_disconnect host socket))).
Proof.
  split.
  { intros s fresh send_result Hwf Hpc.
    destruct (server_send_state_closed host s fresh send_result Hwf Hpc)
      as (s' & Hrun & _).
    exists s', (broadcast_events host send_result s). split; [exact Hrun|].
    intros sock msg Hin. rewrite sends_broadcast_events in Hin.
    apply in_map_iff in Hin. destruct Hin as (i & [= <- <-] & _).
    unfold recipient_message.
    destruct (framed_snapshot host s (p_last_sequence (player_at s i))) as [Hf Hl].
    split; [exact Hf|]. split; [exact Hl|]. eauto. }
  split; [apply accept_sends_framed|].
  split; [apply handle_message_sends_framed|].
  split.
  { intros socket player_id shared. unfold thread_send_input.
    cbn [shared_state_get_input snd].
    apply framed_pair; [literal_in_range | literal_in_range |].
    now rewrite length_bytes_of_PlayerInputMsg. }
  split.
  { intros socket player_id input_flags sequence. unfold client_send_input. cbn [snd].
    apply framed_pair; [literal_in_range | literal_in_range |].
    now rewrite length_bytes_of_PlayerInputMsg. }
  split.
  { intros socket. unfold send_connect_request.
    apply framed_pair; [literal_in_range | literal_in_range |].
    now rewrite length_bytes_of_ConnectMsg. }
  intros socket. unfold client_disconnect. cbn. rewrite Z.eqb_refl, !app_nil_r.
  rewrite <- (app_nil_r (bytes_of_MessageHeader host _)).
  apply framed_message; [literal_in_range | literal_in_range | reflexivity].
Qed.

Lemma snapshot_of_two_players_is_framed :
  exists s' evs,
    server_send_state LittleEndian two_player_server (Some (fun _ => 0)) socket_10_broken
    = Some (s', evs) /\
    forall sock msg, In (sock, msg) (sends evs) ->
      framed LittleEndian msg /\
      h_length (MessageHeader_of_bytes LittleEndian (take 3 msg)) = 10 + 2 * 21 + 0 * 18.
Proof.
  destruct (every_message_is_framed LittleEndian) as [Hsnap _].
  destruct (Hsnap two_player_server (fun _ => 0) socket_10_broken)
    as (s' & evs & Hrun & Hall).
  - split; reflexivity.
  - reflexivity.
  - exists s', evs. split; [exact Hrun|].
    intros sock msg Hin. destruct (Hall sock msg Hin) as (Hf & Hl & _).
    split; [exact Hf|]. rewrite Hl. reflexivity.
Defined.

(** ** Which projectiles the snapshot carries *)

Lemma in_filter_seq (f : nat -> bool) lo n j :
  In j (List.filter f (seq lo n)) -> (lo <= j < lo + n)%nat.
Proof. intros H. apply filter_In in H. destruct H as [H _]. now apply in_seq in H. Qed.

Lemma take_filter_seq_lt (f : nat -> bool) :
  forall n lo k i j,
    In i (take k (List.filter f (seq lo n))) ->
    In j (List.filter f (seq lo n)) ->
    ~ In j (take k (List.filter f (seq lo n))) ->
    (i < j)%nat.
Proof.
  induction n as [|n IH]; intros lo k i j Hi Hj Hnj.
  - cbn in Hj. contradiction.
  - rewrite filter_seq_S in Hi, Hj, Hnj. destruct (f lo).
    + destruct k as [|k]; [cbn in Hi; contradiction|].
      cbn [take] in Hi, Hnj. cbn [In] in Hi, Hj.
      assert (Hjne : lo <> j) by (intros ->; apply Hnj; now left).
      destruct Hj as [Hj|Hj]; [contradiction|].
      destruct Hi as [<-|Hi].
      * apply in_filter_seq in Hj. lia.
      * apply (IH (S lo) k i j Hi Hj). intros Hin. apply Hnj. now right.
    + now apply (IH (S lo) k i j).
Qed.

(** C8, amended. Every snapshot of a broadcast is [snapshot_message]: it
    carries a record for every occupied player slot and for at most 50
    projectiles, namely those of the lowest-numbered occupied projectile
    slots: every slot that is in the snapshot has a smaller index than
    every occupied slot that is left out. *)
Theorem snapshot_truncates_by_slot_index
    (host : byte_order) (s : GameServer) (fresh : nat -> Z)
    (send_result : Z -> list Z -> Z) :
  server_wf s -> players_counted s ->
  exists s' evs,
    server_send_state host s (Some fresh) send_result = Some (s', evs) /\
    (forall sock msg, In (sock, msg) (sends evs) ->
       exists i, In i (occupied_player_slots s) /\
                 msg = snapshot_message host s (p_last_sequence (player_at s i))) /\
    (forall i, (i < MAX_PLAYERS)%nat -> p_occupied (player_at s i) = true ->
       In i (occupied_player_slots s)) /\
    (length (synced_bullet_slots s) <= 50)%nat /\
    length (synced_bullet_slots s)
    = Nat.min 50 (length (occupied_bullet_slots s)) /\
    (forall i j,
       In i (synced_bullet_slots s) ->
       In j (occupied_bullet_slots s) -> ~ In j (synced_bullet_slots s) ->
       (i < j)%nat).
Proof.
  intros Hwf Hpc.
  destruct (server_send_state_closed host s fresh send_result Hwf Hpc)
    as (s' & Hrun & _).
  exists s', (broadcast_events host send_result s). split; [exact Hrun|].
  split.
  { intros sock msg Hin. rewrite sends_broadcast_events in Hin.
    apply in_map_iff in Hin. destruct Hin as (i & [= <- <-] & Hi).
    exists i. split; [exact Hi | reflexivity]. }
  split.
  { intros i Hi Hocc. unfold occupied_player_slots. apply filter_In.
    split; [apply in_seq; lia | exact Hocc]. }
  split; [apply length_synced_bullet_slots|].
  split; [unfold synced_bullet_slots; now rewrite length_take|].
  intros i j. apply take_filter_seq_lt.
Qed.

Lemma snapshot_truncates_by_slot_index_example :
  exists s' evs,
    server_send_state LittleEndian slot_reused (Some (fun _ => 0)) socket_10_broken
    = Some (s', evs) /\
    (length (synced_bullet_slots slot_reused) <= 50)%nat /\
    (forall i j,
       In i (synced_bullet_slots slot_reused) ->
       In j (occupied_bullet_slots slot_reused) ->
       ~ In j (synced_bullet_slots slot_reused) ->
       (i < j)%nat).
Proof.
  destruct (snapshot_truncates_by_slot_index LittleEndian slot_reused (fun _ => 0)
              socket_10_broken)
    as (s' & evs & Hrun & _ & _ & Hcap & _ & Hidx).
  - split; vm_compute; reflexivity.
  - vm_compute. reflexivity.
  - exists s', evs. split; [exact Hrun|]. split; [exact Hcap | exact Hidx].
Defined.

Lemma slot_reuse_breaks_oldest_first :
  server_wf slot_reused /\ server_inv slot_reused /\
  occupied_bullet_slots slot_reused = seq 0 51 /\
  synced_bullet_slots slot_reused = seq 0 50 /\
  older (bullet_at slot_reused 50) (bullet_at slot_reused 0) = true /\
  ~ oldest_first_truncation slot_reused.
Proof.
  assert (Hocc : occupied_bullet_slots slot_reused = seq 0 51) by (vm_compute; reflexivity).
  assert (Hsync : synced_bullet_slots slot_reused = seq 0 50) by (vm_compute; reflexivity).
  assert (Hold : older (bullet_at slot_reused 50) (bullet_at slot_reused 0) = true)
    by (vm_compute; reflexivity).
  split; [split; vm_compute; reflexivity|].
  split; [split; vm_compute; reflexivity|].
  split; [exact Hocc|]. split; [exact Hsync|]. split; [exact Hold|].
  intros Hclaim.
  specialize (Hclaim 0%nat 50%nat).
  rewrite Hocc, Hsync in Hclaim.
  assert (H0 : In 0%nat (seq 0 50)) by (apply in_seq; lia).
  assert (H50 : In 50%nat (seq 0 51)) by (apply in_seq; lia).
  assert (Hout : ~ In 50%nat (seq 0 50)) by (intros Hin; apply in_seq in Hin; lia).
  specialize (Hclaim H0 H50 Hout).
  exact (eq_ind true (fun b : bool => if b then True else False) I false
                (eq_trans (eq_sym Hold) Hclaim)).
Qed.

(** ** Byte order *)

Lemma header_roundtrip bo ty len :
  0 <= ty < 256 -> 0 <= len < 65536 ->
  MessageHeader_of_bytes bo (bytes_of_MessageHeader bo {| h_type := ty; h_length := len |})
  = {| h_type := ty; h_length := len |}.
Proof.
  intros Hty Hlen. pose proof (header_of_bytes bo ty len [] Hty Hlen) as E.
  rewrite app_nil_r in E.
  rewrite take_ge in E by (now rewrite length_bytes_of_MessageHeader).
  exact E.
Qed.





(** ** The counters and the occupied flags *)

Lemma preserves_inv s s' :
  preserves s s' -> server_wf s -> server_inv s -> server_wf s' /\ server_inv s'.
Proof.
  intros H Hwf [Hp Hb]. split; [now apply H|].
  split; [now apply (preserves_players_counted s) | now apply (preserves_bullets_counted s)].
Qed.

Lemma server_operations_preserve_inv (host : byte_order) (sinf cosf : f32 -> f32)
    (s : GameServer) :
  server_wf s -> server_inv s ->
  (forall inc,
      server_wf (fst (server_accept_new_client host s inc)) /\
      server_inv (fst (server_accept_new_client host s inc))) /\
  (forall last_flags player_id rd,
      server_wf (fst (fst (server_handle_client_message host s last_flags player_id rd))) /\
      server_inv (fst (fst (server_handle_client_message host s last_flags player_id rd)))) /\
  (forall player_id x y vx vy weapon_type,
      server_wf (server_spawn_single_bullet s player_id x y vx vy weapon_type) /\
      server_inv (server_spawn_single_bullet s player_id x y vx vy weapon_type)) /\
  (forall dt,
      server_wf (server_handle_firing sinf cosf s dt) /\
      server_inv (server_handle_firing sinf cosf s dt)) /\
  (forall dt,
      server_wf (server_update_bullets s dt) /\ server_inv (server_update_bullets s dt)) /\
  (forall heap send_result s' evs,
      server_send_state host s heap send_result = Some (s', evs) ->
      server_wf s' /\ server_inv s').
Proof.
  intros Hwf Hinv.
  split; [intros; apply (preserves_inv s); auto using server_accept_new_client_preserves|].
  split; [intros; apply (preserves_inv s);
          auto using server_handle_client_message_preserves|].
  split; [intros; apply (preserves_inv s); auto;
          apply spawn_like_preserves, server_spawn_single_bullet_spawn_like|].
  split; [intros; apply (preserves_inv s); auto using server_handle_firing_preserves|].
  split; [intros; apply (preserves_inv s); auto using server_update_bullets_preserves|].
  intros heap send_result s' evs Hrun. apply (preserves_inv s); auto.
  now apply (server_send_state_preserves host s heap send_result s' evs).
Qed.

(** ** The main loop *)

Lemma poll_clients_preserves host reads st :
  preserves (fst (fst st)) (fst (fst (poll_clients host reads st))).
Proof.
  unfold poll_clients.
  generalize 0%nat at 1. generalize MAX_PLAYERS. intros n. revert st.
  induction n as [|n IH]; intros st lo; cbn [for_from]; [apply preserves_refl|].
  eapply preserves_trans; [|apply IH].
  destruct st as [[server last_flags] evs]. cbn [fst].
  destruct (truthy (p_active (player_at server lo))); [|apply preserves_refl].
  pose proof (server_handle_client_message_preserves host server last_flags lo (reads lo)) as H.
  destruct (server_handle_client_message host server last_flags lo (reads lo))
    as [[server' last_flags'] ev]. exact H.
Qed.

Lemma with_tick_preserves t s : preserves s (with_tick t s).
Proof. now apply preserves_same_tables. Qed.

Lemma main_turn_preserves host sinf cosf powf server last_flags inp server' last_flags' evs :
  main_turn host sinf cosf powf server last_flags inp = Some (server', last_flags', evs) ->
  preserves server server'.
Proof.
  unfold main_turn.
  pose proof (server_accept_new_client_preserves host server (ti_incoming inp)) as H1.
  destruct (server_accept_new_client host server (ti_incoming inp)) as [server1 ev1].
  cbn [fst] in H1.
  pose proof (poll_clients_preserves host (ti_reads inp) (server1, last_flags, ev1)) as H2.
  destruct (poll_clients host (ti_reads inp) (server1, last_flags, ev1))
    as [[server2 last_flags2] ev2]. cbn [fst] in H2.
  pose proof (server_update_physics_preserves powf tick_dt server2) as H3.
  set (server3 := server_update_physics powf server2 tick_dt) in *.
  pose proof (server_handle_firing_preserves sinf cosf tick_dt server3) as H4.
  set (server4 := server_handle_firing sinf cosf server3 tick_dt) in *.
  pose proof (server_update_bullets_preserves tick_dt server4) as H5.
  set (server5 := server_update_bullets server4 tick_dt) in *.
  assert (H15 : preserves server server5).
  { eapply preserves_trans; [exact H1|]. eapply preserves_trans; [exact H2|].
    eapply preserves_trans; [exact H3|]. eapply preserves_trans; [exact H4|]. exact H5. }
  clearbody server3 server4 server5.
  destruct (player_count server5 >? 0).
  - destruct (server_send_state host server5 (ti_heap inp) (ti_send_result inp))
      as [[server6 ev6]|] eqn:Hsend; [|discriminate].
    rewrite bind_Some. intros [= <- _ _].
    eapply preserves_trans; [exact H15|].
    eapply preserves_trans; [|apply with_tick_preserves].
    exact (server_send_state_preserves host _ _ _ _ _ Hsend).
  - rewrite bind_Some. intros [= <- _ _].
    eapply preserves_trans; [exact H15 | apply with_tick_preserves].
Qed.


(** Whatever the storage held, the player counter is right from start-up
    on, and every turn completes. *)
Lemma server_runs_players host sinf cosf powf mem port listen server last_flags :
  length (bullets mem) = MAX_SERVER_BULLETS ->
  server_runs host sinf cosf powf mem port listen server last_flags ->
  server_wf server /\ players_counted server.
Proof.
  intros Hlen Hruns. induction Hruns as [Hok | server last_flags inp server' last_flags' evs _ IH Hturn].
  - now apply server_init_players.
  - destruct IH as [Hwf Hpc].
    pose proof (main_turn_preserves _ _ _ _ _ _ _ _ _ _ Hturn) as H.
    split; [now apply H | now apply (preserves_players_counted server)].
Qed.

(** The distance between the projectile counter and its table is, for
    ever, the one found in the storage handed to [server_init]. *)
Lemma server_runs_bullet_excess host sinf cosf powf mem port listen server last_flags :
  length (bullets mem) = MAX_SERVER_BULLETS ->
  server_runs host sinf cosf powf mem port listen server last_flags ->
  bullet_excess server = bullet_excess mem.
Proof.
  intros Hlen Hruns.
  pose proof (server_runs_players _ _ _ _ _ _ _ _ _ Hlen Hruns) as [Hwf' _].
  induction Hruns as [Hok | server last_flags inp server' last_flags' evs Hruns IH Hturn].
  - unfold server_init. destruct (listen =? INVALID_SOCKET); reflexivity.
  - pose proof (server_runs_players _ _ _ _ _ _ _ _ _ Hlen Hruns) as [Hwf _].
    destruct (main_turn_preserves _ _ _ _ _ _ _ _ _ _ Hturn) as (_ & _ & B).
    rewrite B by exact Hwf. now apply IH.
Qed.

Lemma server_runs_bullets host sinf cosf powf mem port listen server last_flags :
  length (bullets mem) = MAX_SERVER_BULLETS ->
  server_runs host sinf cosf powf mem port listen server last_flags ->
  (bullets_counted server <-> bullets_counted mem).
Proof.
  intros Hlen Hruns. rewrite !bullets_counted_excess.
  now rewrite (server_runs_bullet_excess _ _ _ _ _ _ _ _ _ Hlen Hruns).
Qed.

(** C10. [server_init] establishes the player half of the invariant and
    leaves the projectile table and its counter exactly as it found
    them: started on storage that holds one stale occupied projectile
    slot and a zero counter, the initial state has one occupied slot
    against a count of zero, so the invariant does not hold in it; and
    since every turn of the main loop moves the counter together with
    the table, it holds in no state the server reaches from there. *)
Theorem server_init_leaves_projectile_table_as_found :
  let s := fst (server_init stale_stack SERVER_PORT 3) in
  snd (server_init stale_stack SERVER_PORT 3) = 0 /\
  server_wf s /\ players_counted s /\
  bullets s = bullets stale_stack /\ bullet_count s = 0 /\
  count_if b_occupied (bullets s) = 1%nat /\
  ~ bullets_counted s /\ ~ server_inv s /\
  (forall host sinf cosf powf server last_flags,
      server_runs host sinf cosf powf stale_stack SERVER_PORT 3 server last_flags ->
      ~ bullets_counted server).
Proof.
  cbv zeta.
  split; [reflexivity|]. split; [split; reflexivity|]. split; [reflexivity|].
  split; [reflexivity|]. split; [reflexivity|].
  split; [reflexivity|].
  assert (Hno : ~ bullets_counted stale_stack).
  { unfold bullets_counted. vm_compute. discriminate. }
  assert (Hlen : length (bullets stale_stack) = MAX_SERVER_BULLETS) by reflexivity.
  assert (Hall : forall host sinf cosf powf server last_flags,
             server_runs host sinf cosf powf stale_stack SERVER_PORT 3 server last_flags ->
             ~ bullets_counted server).
  { intros host sinf cosf powf server last_flags Hruns Hb. apply Hno.
    now apply (server_runs_bullets _ _ _ _ _ _ _ _ _ Hlen Hruns). }
  assert (Hinit : ~ bullets_counted (fst (server_init stale_stack SERVER_PORT 3))).
  { apply (Hall LittleEndian (fun x => x) (fun x => x) (fun x _ => x) _
             (replicate MAX_PLAYERS 0)).
    now apply runs_init. }
  split; [exact Hinit|]. split; [|exact Hall].
  intros [_ Hb]. exact (Hinit Hb).
Qed.

(* ===================================================================== *)
(** * Further properties of the server, the transport and the clients *)
(* ===================================================================== *)

(* ===================================================================== *)
(** * Further properties of server.c *)
(* ===================================================================== *)

(** ** The main loop *)

Lemma count_if_le_length {A} (f : A -> bool) l : (count_if f l <= length l)%nat.
Proof. induction l as [|x l IH]; cbn [count_if length]; [lia|]. destruct (f x); lia. Qed.

Lemma run_turns_runs turns : forall st mem st',
  server_runs LittleEndian (fun x => x) (fun x => x) (fun x _ => x)
              mem SERVER_PORT 3 (fst st) (snd st) ->
  run_turns turns st = Some st' ->
  server_runs LittleEndian (fun x => x) (fun x => x) (fun x _ => x)
              mem SERVER_PORT 3 (fst st') (snd st').
Proof.
  induction turns as [|inp rest IH]; intros st mem st' Hruns Hrun; cbn [run_turns] in Hrun.
  - now injection Hrun as <-.
  - destruct (main_turn _ _ _ _ (fst st) (snd st) inp) as [[[server' last_flags'] evs]|] eqn:Hturn;
      [|discriminate].
    apply (IH (server', last_flags') mem st'); [|exact Hrun].
    cbn [fst snd]. exact (runs_turn _ _ _ _ _ _ _ _ _ _ _ _ _ Hruns Hturn).
Qed.

Lemma started_on_runs mem :
  server_runs LittleEndian (fun x => x) (fun x => x) (fun x _ => x)
              mem SERVER_PORT 3 (fst (started_on mem)) (snd (started_on mem)).
Proof. unfold started_on. cbn [fst snd]. now apply runs_init. Qed.

(** X1. In every state the server reaches, whatever its storage held at
    start-up, the two tables have their declared lengths and
    [player_count] is the number of occupied player slots, between 0 and
    [MAX_PLAYERS]. *)
Theorem server_always_counts_its_players
    (host : byte_order) (sinf cosf : f32 -> f32) (powf : f32 -> f32 -> f32)
    (mem : GameServer) (port listen : Z) (server : GameServer) (last_flags : list Z) :
  length (bullets mem) = MAX_SERVER_BULLETS ->
  server_runs host sinf cosf powf mem port listen server last_flags ->
  length (players server) = MAX_PLAYERS /\
  length (bullets server) = MAX_SERVER_BULLETS /\
  player_count server = Z.of_nat (count_if p_occupied (players server)) /\
  0 <= player_count server <= Z.of_nat MAX_PLAYERS.
Proof.
  intros Hlen Hruns.
  destruct (server_runs_players _ _ _ _ _ _ _ _ _ Hlen Hruns) as [[Hlp Hlb] Hpc].
  split; [exact Hlp|]. split; [exact Hlb|]. split; [exact Hpc|].
  rewrite Hpc. pose proof (count_if_le_length p_occupied (players server)) as Hle.
  rewrite Hlp in Hle. lia.
Qed.

Lemma server_always_counts_its_players_after_join :
  match run_turns [joining_turn; quiet_turn] (started_on stale_stack) with
  | Some (server, _) =>
      player_count server = 1 /\
      (length (players server) = MAX_PLAYERS /\
       length (bullets server) = MAX_SERVER_BULLETS /\
       player_count server = Z.of_nat (count_if p_occupied (players server)) /\
       0 <= player_count server <= Z.of_nat MAX_PLAYERS)
  | None => False
  end.
Proof.
  pose proof (run_turns_runs [joining_turn; quiet_turn] (started_on stale_stack)
                stale_stack) as Hruns.
  destruct (run_turns [joining_turn; quiet_turn] (started_on stale_stack))
    as [[server last_flags]|] eqn:Hrun; [|vm_compute in Hrun; discriminate].
  split.
  - apply (f_equal (fun o => match o with
                             | Some (s, _) => player_count s
                             | None => 0
                             end)) in Hrun.
    vm_compute in Hrun. symmetry. exact Hrun.
  - apply (server_always_counts_its_players LittleEndian (fun x => x) (fun x => x)
             (fun x _ => x) stale_stack SERVER_PORT 3 server last_flags).
    + reflexivity.
    + exact (Hruns (server, last_flags) (started_on_runs stale_stack) eq_refl).
Defined.

(** ** Movement *)

Lemma for_from_player_slots (upd : ServerPlayer -> ServerPlayer)
    (body : nat -> GameServer -> GameServer) :
  (forall i t j, players (body i t) !! j =
                 if decide (j = i) then upd <$> players t !! j else players t !! j) ->
  forall n lo s j,
    players (for_from body lo n s) !! j =
    if decide (lo <= j < lo + n)%nat then upd <$> players s !! j else players s !! j.
Proof.
  intros Hbody. induction n as [|n IH]; intros lo s j; cbn [for_from].
  - destruct (decide _) as [H|H]; [lia | reflexivity].
  - rewrite IH, Hbody.
    destruct (decide (S lo <= j < S lo + n)%nat) as [H1|H1];
      destruct (decide (j = lo)) as [H2|H2];
      destruct (decide (lo <= j < lo + S n)%nat) as [H3|H3];
      try lia; reflexivity.
Qed.

Lemma physics_body_slot powf dt i t j :
  players (if negb (truthy (p_active (player_at t i))) then t
           else set_player i (move_player powf dt (player_at t i)) t) !! j =
  if decide (j = i) then moved_slot powf dt <$> players t !! j else players t !! j.
Proof.
  unfold moved_slot, p_occupied.
  destruct (truthy (p_active (player_at t i))) eqn:Hocc; cbn [negb].
  - pose proof (player_at_occupied t i Hocc) as Hslot.
    unfold set_player. cbn [players with_players].
    destruct (decide (j = i)) as [->|Hne].
    + rewrite list_lookup_insert_eq by (apply lookup_lt_Some in Hslot; exact Hslot).
      rewrite Hslot. cbn. now rewrite Hocc.
    + now rewrite list_lookup_insert_ne by congruence.
  - destruct (decide (j = i)) as [->|Hne]; [|reflexivity].
    unfold player_at in Hocc.
    destruct (players t !! i) as [p|]; cbn in *; [now rewrite Hocc | reflexivity].
Qed.

Lemma server_update_physics_slot powf dt s j :
  (j < MAX_PLAYERS)%nat ->
  players (server_update_physics powf s dt) !! j = moved_slot powf dt <$> players s !! j.
Proof.
  intros Hj. unfold server_update_physics.
  rewrite (for_from_player_slots (moved_slot powf dt) _ (physics_body_slot powf dt)).
  destruct (decide _) as [H|H]; [reflexivity | lia].
Qed.

Lemma move_player_inside powf dt p :
  inside_field (p_x (move_player powf dt p)) (p_y (move_player powf dt p)).
Proof.
  unfold move_player. cbv zeta.
  change (f32_sub (f32_of_Z GAME_WIDTH) (f32_of_Z 32)) with (f32_of_Z 768).
  change (f32_sub (f32_of_Z GAME_HEIGHT) (f32_of_Z 32)) with (f32_of_Z 568).
  set (x := f32_add (p_x p) _). set (y := f32_add (p_y p) _).
  clearbody x y.
  unfold inside_field, f32_gt.
  assert (H1 : f32_ltb (f32_of_Z 32) (f32_of_Z 32) = false) by reflexivity.
  assert (H2 : f32_ltb (f32_of_Z 768) (f32_of_Z 32) = false) by reflexivity.
  assert (H3 : f32_ltb (f32_of_Z 768) (f32_of_Z 768) = false) by reflexivity.
  assert (H4 : f32_ltb (f32_of_Z 568) (f32_of_Z 32) = false) by reflexivity.
  assert (H5 : f32_ltb (f32_of_Z 568) (f32_of_Z 568) = false) by reflexivity.
  destruct (f32_ltb x (f32_of_Z 32)) eqn:Hx1;
    [rewrite H2 | destruct (f32_ltb (f32_of_Z 768) x) eqn:Hx2];
    (destruct (f32_ltb y (f32_of_Z 32)) eqn:Hy1;
     [rewrite H4 | destruct (f32_ltb (f32_of_Z 568) y) eqn:Hy2]);
    cbn [p_x p_y]; auto.
Qed.

(** X2. After [server_update_physics] every connected player stands inside
    the playing field: none of the four out-of-bounds comparisons of the
    clamp holds for the position. Slots stay occupied or free as they
    were, and free slots are not touched. *)
Theorem server_update_physics_keeps_players_inside
    (powf : f32 -> f32 -> f32) (dt : f32) (s : GameServer) (i : nat) :
  (i < MAX_PLAYERS)%nat ->
  let s' := server_update_physics powf s dt in
  p_occupied (player_at s' i) = p_occupied (player_at s i) /\
  (p_occupied (player_at s i) = true ->
   inside_field (p_x (player_at s' i)) (p_y (player_at s' i))) /\
  (p_occupied (player_at s i) = false -> player_at s' i = player_at s i).
Proof.
  intros Hi s'.
  assert (Heq : player_at s' i = moved_slot powf dt (player_at s i)).
  { unfold player_at at 1. unfold s'. rewrite server_update_physics_slot by exact Hi.
    unfold player_at. destruct (players s !! i) as [p|]; reflexivity. }
  rewrite Heq. unfold moved_slot.
  destruct (p_occupied (player_at s i)) eqn:Hocc.
  - split; [now rewrite move_player_occupied|].
    split; [intros _; apply move_player_inside | discriminate].
  - split; [exact Hocc|]. split; [discriminate | reflexivity].
Qed.

Lemma server_update_physics_keeps_players_inside_example :
  let s := set_player 0 {| p_active := 1; p_socket := 10; p_name := name_default 0;
                           p_addr := 0;
                           p_x := f32_of_Z 33; p_y := f32_of_Z 567;
                           p_vx := f32_neg (f32_of_Z 300); p_vy := f32_of_Z 300;
                           p_health := 100; p_weapon := 0;
                           p_input_flags := Z.lor INPUT_LEFT INPUT_DOWN;
                           p_last_sequence := 1; p_fire_cooldown := f32_zero |}
                      one_player_server in
  let s' := server_update_physics (fun x _ => x) s tick_dt in
  (p_x (player_at s' 0) = f32_of_Z 32 /\ p_y (player_at s' 0) = f32_of_Z 568) /\
  p_occupied (player_at s' 0) = p_occupied (player_at s 0) /\
  (p_occupied (player_at s 0) = true ->
   inside_field (p_x (player_at s' 0)) (p_y (player_at s' 0))) /\
  (p_occupied (player_at s 0) = false -> player_at s' 0 = player_at s 0).
Proof.
  intros s s'. split.
  - vm_compute. split; reflexivity.
  - apply (server_update_physics_keeps_players_inside (fun x _ => x) tick_dt s 0).
    unfold MAX_PLAYERS. lia.
Defined.

(** ** Projectiles *)

Lemma for_from_bullet_slots (upd : ServerBullet -> ServerBullet)
    (body : nat -> GameServer -> GameServer) :
  (forall i t j, bullets (body i t) !! j =
                 if decide (j = i) then upd <$> bullets t !! j else bullets t !! j) ->
  forall n lo s j,
    bullets (for_from body lo n s) !! j =
    if decide (lo <= j < lo + n)%nat then upd <$> bullets s !! j else bullets s !! j.
Proof.
  intros Hbody. induction n as [|n IH]; intros lo s j; cbn [for_from].
  - destruct (decide _) as [H|H]; [lia | reflexivity].
  - rewrite IH, Hbody.
    destruct (decide (S lo <= j < S lo + n)%nat) as [H1|H1];
      destruct (decide (j = lo)) as [H2|H2];
      destruct (decide (lo <= j < lo + S n)%nat) as [H3|H3];
      try lia; reflexivity.
Qed.

Lemma update_bullet_slot dt i t j :
  bullets (update_bullet dt i t) !! j =
  if decide (j = i) then advance_bullet dt <$> bullets t !! j else bullets t !! j.
Proof.
  unfold update_bullet, advance_bullet, b_occupied, bullet_gone.
  destruct (truthy (b_active (bullet_at t i))) eqn:Hocc; cbn [negb].
  - pose proof (bullet_at_occupied t i Hocc) as Hslot.
    assert (Hi : (i < length (bullets t))%nat) by (apply lookup_lt_Some in Hslot; exact Hslot).
    destruct (decide (j = i)) as [->|Hne].
    + rewrite Hslot. cbn [fmap option_fmap option_map]. rewrite Hocc.
      match goal with |- context [if ?g then with_bullet_count _ _ else _] =>
        destruct g end;
        unfold set_bullet; cbn [bullets with_bullets with_bullet_count];
        now rewrite list_lookup_insert_eq by exact Hi.
    + match goal with |- context [if ?g then with_bullet_count _ _ else _] =>
        destruct g end;
        unfold set_bullet; cbn [bullets with_bullets with_bullet_count];
        now rewrite list_lookup_insert_ne by congruence.
  - destruct (decide (j = i)) as [->|Hne]; [|reflexivity].
    unfold bullet_at in Hocc.
    destruct (bullets t !! i) as [b|]; cbn in *; [now rewrite Hocc | reflexivity].
Qed.

Lemma server_update_bullets_slot dt s j :
  (j < MAX_SERVER_BULLETS)%nat ->
  bullets (server_update_bullets s dt) !! j = advance_bullet dt <$> bullets s !! j.
Proof.
  intros Hj. unfold server_update_bullets.
  rewrite (for_from_bullet_slots (advance_bullet dt) _ (update_bullet_slot dt)).
  destruct (decide _) as [H|H]; [reflexivity | lia].
Qed.

Lemma update_bullet_players dt i t : players (update_bullet dt i t) = players t.
Proof.
  unfold update_bullet. destruct (negb _); [reflexivity|].
  match goal with |- context [if ?g then _ else _] => destruct g end; reflexivity.
Qed.

Lemma for_from_players_kept (body : nat -> GameServer -> GameServer) :
  (forall i t, players (body i t) = players t) ->
  forall n lo s, players (for_from body lo n s) = players s.
Proof.
  intros Hbody. induction n as [|n IH]; intros lo s; cbn [for_from]; [reflexivity|].
  now rewrite IH, Hbody.
Qed.

(** X3. [server_update_bullets] never creates a projectile and never touches
    a player: a free slot is left as it is, and a projectile still in
    flight after the step was in flight before it, has moved by its
    velocity times [dt], has lost [dt] of its lifetime, keeps owner,
    velocity and weapon type, and fails all five removal tests. *)
Theorem server_update_bullets_only_moves_and_removes
    (dt : f32) (s : GameServer) (i : nat) :
  (i < MAX_SERVER_BULLETS)%nat ->
  let s' := server_update_bullets s dt in
  let b := bullet_at s i in
  let b' := bullet_at s' i in
  players s' = players s /\
  (b_occupied b = false -> b' = b) /\
  (b_occupied b' = true ->
   b_occupied b = true /\
   b_x b' = f32_add (b_x b) (f32_mul (b_vx b) dt) /\
   b_y b' = f32_add (b_y b) (f32_mul (b_vy b) dt) /\
   b_lifetime b' = f32_sub (b_lifetime b) dt /\
   b_owner_id b' = b_owner_id b /\ b_vx b' = b_vx b /\ b_vy b' = b_vy b /\
   b_weapon_type b' = b_weapon_type b /\
   bullet_gone (b_lifetime b') (b_x b') (b_y b') = false).
Proof.
  intros Hi s' b b'.
  split; [apply (for_from_players_kept _ (update_bullet_players dt))|].
  assert (Heq : b' = advance_bullet dt b).
  { unfold b', bullet_at at 1. unfold s'. rewrite server_update_bullets_slot by exact Hi.
    unfold b, bullet_at. destruct (bullets s !! i) as [x|]; reflexivity. }
  rewrite Heq. unfold advance_bullet.
  destruct (b_occupied b) eqn:Hocc.
  - split; [discriminate|].
    destruct (bullet_gone _ _ _) eqn:Hgone;
      cbn [b_x b_y b_lifetime b_owner_id b_vx b_vy b_weapon_type];
      unfold b_occupied at 1; cbn [b_active].
    + change (truthy 0) with false. discriminate.
    + intros _. repeat split; reflexivity.
  - split; [reflexivity|]. rewrite Hocc. discriminate.
Qed.

Lemma server_update_bullets_only_moves_and_removes_example :
  let s := stale_stack in
  let s' := server_update_bullets s tick_dt in
  let b := bullet_at s 0 in
  let b' := bullet_at s' 0 in
  b_occupied b' = true /\
  (players s' = players s /\
   (b_occupied b = false -> b' = b) /\
   (b_occupied b' = true ->
    b_occupied b = true /\
    b_x b' = f32_add (b_x b) (f32_mul (b_vx b) tick_dt) /\
    b_y b' = f32_add (b_y b) (f32_mul (b_vy b) tick_dt) /\
    b_lifetime b' = f32_sub (b_lifetime b) tick_dt /\
    b_owner_id b' = b_owner_id b /\ b_vx b' = b_vx b /\ b_vy b' = b_vy b /\
    b_weapon_type b' = b_weapon_type b /\
    bullet_gone (b_lifetime b') (b_x b') (b_y b') = false)).
Proof.
  intros s s' b b'. split.
  - vm_compute. reflexivity.
  - apply (server_update_bullets_only_moves_and_removes tick_dt stale_stack 0).
    unfold MAX_SERVER_BULLETS. lia.
Defined.

(** ** Spawning *)





(** ** Admission *)

Lemma player_at_set_player_ne s i j p :
  i <> j -> player_at (set_player i p s) j = player_at s j.
Proof.
  intros Hne. unfold player_at, set_player. cbn [players with_players].
  now rewrite list_lookup_insert_ne.
Qed.

Lemma find_free_slot_full server :
  (forall i, (i < MAX_PLAYERS)%nat -> p_occupied (player_at server i) = true) ->
  server_find_free_slot server = -1.
Proof.
  intros Hfull. unfold server_find_free_slot.
  destruct (first_free _ 0 MAX_PLAYERS) as [i|] eqn:Hfree; [|reflexivity].
  apply first_free_Some in Hfree. destruct Hfree as (Hi & Hfr & _).
  apply negb_true_iff in Hfr. unfold p_occupied in Hfull.
  rewrite Hfull in Hfr by lia. discriminate.
Qed.

Lemma find_free_slot_lowest server i :
  (i < MAX_PLAYERS)%nat ->
  p_occupied (player_at server i) = false ->
  (forall j, (j < i)%nat -> p_occupied (player_at server j) = true) ->
  server_find_free_slot server = Z.of_nat i.
Proof.
  intros Hi Hfr Hlow. unfold server_find_free_slot.
  destruct (first_free _ 0 MAX_PLAYERS) as [k|] eqn:Hfree.
  - apply first_free_Some in Hfree. destruct Hfree as (Hk & Hkfr & Hkl).
    apply negb_true_iff in Hkfr. unfold p_occupied in *.
    destruct (Nat.lt_trichotomy k i) as [Hlt|[->|Hgt]]; [|reflexivity|].
    + rewrite Hlow in Hkfr by exact Hlt. discriminate.
    + specialize (Hkl i ltac:(lia)). cbv beta in Hkl. rewrite Hfr in Hkl. discriminate.
  - pose proof (first_free_None _ _ _ Hfree i ltac:(lia)) as H. cbv beta in H.
    unfold p_occupied in Hfr. rewrite Hfr in H. discriminate.
Qed.

(** X5. A well-formed connect request that finds all four slots occupied
    changes nothing in the server: the client gets the acknowledgement
    [{success = 0, player_id = 0, reason = 0}] and its socket is closed. *)
Theorem full_server_turns_client_away
    (host : byte_order) (server : GameServer) (inc : Incoming) :
  valid_connect inc ->
  (forall i, (i < MAX_PLAYERS)%nat -> p_occupied (player_at server i) = true) ->
  fst (server_accept_new_client host server inc) = server /\
  sent_to (inc_socket inc) (snd (server_accept_new_client host server inc)) =
    bytes_of_MessageHeader host
      {| h_type := MSG_CONNECT_ACK; h_length := sizeof_ConnectAckMsg |} ++ [0; 0; 0] /\
  last (snd (server_accept_new_client host server inc)) = Some (EvClose (inc_socket inc)).
Proof.
  intros (Hsock & Hn & Hty & Hm & Hver) Hfull.
  unfold server_accept_new_client.
  destruct (inc_header inc) as [n_header connect_header].
  destruct (inc_connect inc) as [n_connect connect_msg].
  cbn [fst snd] in *. subst n_header n_connect.
  rewrite (proj2 (Z.eqb_neq _ _) Hsock).
  rewrite Z.eqb_refl, Hty, Z.eqb_refl. cbn [negb].
  rewrite Z.eqb_refl, Hver, Z.eqb_refl. cbn [negb].
  rewrite (find_free_slot_full server Hfull).
  change (-1 <? 0) with true. cbv iota. cbn [fst snd].
  split; [reflexivity|]. split; [|reflexivity].
  cbn [sent_to flat_map app send_connect_ack]. rewrite Z.eqb_refl.
  rewrite app_nil_r. f_equal. destruct host; reflexivity.
Qed.

Lemma full_server_turns_client_away_example :
  fst (server_accept_new_client LittleEndian full_server (player_connect 14)) = full_server /\
  sent_to 14 (snd (server_accept_new_client LittleEndian full_server (player_connect 14))) =
    bytes_of_MessageHeader LittleEndian
      {| h_type := MSG_CONNECT_ACK; h_length := sizeof_ConnectAckMsg |} ++ [0; 0; 0] /\
  last (snd (server_accept_new_client LittleEndian full_server (player_connect 14))) =
    Some (EvClose 14).
Proof.
  apply (full_server_turns_client_away LittleEndian full_server (player_connect 14)).
  - unfold valid_connect. cbn. repeat split; try reflexivity. discriminate.
  - intros i Hi. unfold MAX_PLAYERS in Hi.
    destruct i as [|[|[|[|i]]]]; try reflexivity. lia.
Defined.

(** X6. A well-formed connect request is admitted to the lowest-numbered free
    slot: that slot gets the new player, standing at
    [(100 + 150 * slot, 400)] with 100 health points, every other slot
    and the projectile table stay as they are, [player_count] grows by
    one, and the acknowledgement sent to the client is
    [{success = 1, player_id = slot, reason = 0}]; the socket stays
    open. *)
Theorem newcomer_gets_lowest_free_slot
    (host : byte_order) (server : GameServer) (inc : Incoming) (slot : nat) :
  valid_connect inc ->
  length (players server) = MAX_PLAYERS ->
  (slot < MAX_PLAYERS)%nat ->
  p_occupied (player_at server slot) = false ->
  (forall j, (j < slot)%nat -> p_occupied (player_at server j) = true) ->
  let server' := fst (server_accept_new_client host server inc) in
  let evs := snd (server_accept_new_client host server inc) in
  player_at server' slot = joined_player slot inc /\
  (forall j, j <> slot -> player_at server' j = player_at server j) /\
  player_count server' = player_count server + 1 /\
  bullets server' = bullets server /\ bullet_count server' = bullet_count server /\
  sent_to (inc_socket inc) evs =
    bytes_of_MessageHeader host
      {| h_type := MSG_CONNECT_ACK; h_length := sizeof_ConnectAckMsg |}
    ++ [1; Z.of_nat slot; 0] /\
  ~ In (EvClose (inc_socket inc)) evs.
Proof.
  intros (Hsock & Hn & Hty & Hm & Hver) Hlen Hslot Hfree Hlow. cbv zeta.
  unfold server_accept_new_client, joined_player.
  destruct (inc_header inc) as [n_header connect_header].
  destruct (inc_connect inc) as [n_connect connect_msg].
  cbn [fst snd] in *. subst n_header n_connect.
  rewrite (proj2 (Z.eqb_neq _ _) Hsock).
  rewrite Z.eqb_refl, Hty, Z.eqb_refl. cbn [negb].
  rewrite Z.eqb_refl, Hver, Z.eqb_refl. cbn [negb].
  rewrite (find_free_slot_lowest server slot Hslot Hfree Hlow).
  destruct (Z.ltb_spec (Z.of_nat slot) 0) as [|_]; [lia|].
  rewrite Nat2Z.id. cbn [fst snd].
  split.
  { unfold player_at, set_player.
    cbn [players with_players with_player_count].
    rewrite list_lookup_insert_eq by lia. reflexivity. }
  split.
  { intros j Hj. unfold player_at, set_player.
    cbn [players with_players with_player_count].
    now rewrite list_lookup_insert_ne by congruence. }
  split; [reflexivity|]. split; [reflexivity|]. split; [reflexivity|].
  split.
  - cbn [sent_to flat_map app send_connect_ack]. rewrite Z.eqb_refl.
    rewrite app_nil_r. f_equal.
    unfold bytes_of_ConnectAckMsg. cbn [ack_success ack_player_id ack_reason].
    unfold MAX_PLAYERS in Hslot.
    destruct slot as [|[|[|[|slot]]]]; try lia; destruct host; reflexivity.
  - cbn [In app send_connect_ack]. intros [H|[H|[H|[H|[]]]]]; discriminate.
Qed.

Lemma newcomer_gets_lowest_free_slot_example :
  let server' := fst (server_accept_new_client LittleEndian one_player_server
                                               (player_connect 14)) in
  let evs := snd (server_accept_new_client LittleEndian one_player_server
                                           (player_connect 14)) in
  player_at server' 1 = joined_player 1 (player_connect 14) /\
  (forall j, j <> 1%nat -> player_at server' j = player_at one_player_server j) /\
  player_count server' = player_count one_player_server + 1 /\
  bullets server' = bullets one_player_server /\
  bullet_count server' = bullet_count one_player_server /\
  sent_to 14 evs =
    bytes_of_MessageHeader LittleEndian
      {| h_type := MSG_CONNECT_ACK; h_length := sizeof_ConnectAckMsg |}
    ++ [1; 1; 0] /\
  ~ In (EvClose 14) evs.
Proof.
  apply (newcomer_gets_lowest_free_slot LittleEndian one_player_server
           (player_connect 14) 1).
  - unfold valid_connect. cbn. repeat split; try reflexivity. discriminate.
  - reflexivity.
  - unfold MAX_PLAYERS. lia.
  - reflexivity.
  - intros j Hj. destruct j as [|j]; [reflexivity | lia].
Defined.

(** ** Leaving *)

Lemma player_at_drop_player_eq s i :
  p_occupied (player_at s i) = true ->
  p_occupied (player_at (drop_player i s) i) = false.
Proof.
  intros Hocc. pose proof (player_at_occupied s i Hocc) as Hslot.
  unfold drop_player, player_at, set_player.
  cbn [players with_players with_player_count].
  rewrite list_lookup_insert_eq by (apply lookup_lt_Some in Hslot; exact Hslot).
  reflexivity.
Qed.

Lemma player_at_drop_player_ne s i j :
  i <> j -> player_at (drop_player i s) j = player_at s j.
Proof.
  intros Hne. unfold drop_player, player_at, set_player.
  cbn [players with_players with_player_count].
  now rewrite list_lookup_insert_ne.
Qed.

Ltac settle Hocc Hgone Hothers Hstored :=
  cbn [fst snd negb orb andb];
  split; [first [exact Hgone | exact Hocc | apply Hstored]|];
  split; [first [reflexivity | cbn; lia]|];
  split; [first [discriminate | intros _; reflexivity]|];
  split; [intros j Hj;
          first [reflexivity | now apply Hothers | now apply player_at_set_player_ne]|];
  split; reflexivity.

(** X7. An occupied slot is given up by [server_handle_client_message] in
    exactly three cases: the header [recv] returned 0, it failed with
    something other than would-block, or a whole header of type
    [MSG_DISCONNECT] arrived. Then [player_count] drops by one and the
    socket is closed; in every other case the slot stays occupied and the
    count is unchanged. No other slot and no projectile is ever
    touched. *)
Theorem slot_given_up_exactly_on_disconnect
    (host : byte_order) (server : GameServer) (last_flags : list Z)
    (player_id : nat) (rd : ClientRead) :
  p_occupied (player_at server player_id) = true ->
  let r := server_handle_client_message host server last_flags player_id rd in
  let server' := fst (fst r) in
  p_occupied (player_at server' player_id) = negb (gives_up_slot rd) /\
  player_count server' = player_count server - (if gives_up_slot rd then 1 else 0) /\
  (gives_up_slot rd = true ->
   last (snd r) = Some (EvClose (p_socket (player_at server player_id)))) /\
  (forall j, j <> player_id -> player_at server' j = player_at server j) /\
  bullets server' = bullets server /\ bullet_count server' = bullet_count server.
Proof.
  intros Hocc. cbv zeta.
  pose proof (player_at_drop_player_eq server player_id Hocc) as Hgone.
  pose proof (player_at_drop_player_ne server player_id) as Hothers.
  pose proof (player_at_occupied server player_id Hocc) as Hslot.
  assert (Hin : (player_id < length (players server))%nat)
    by (apply lookup_lt_Some in Hslot; exact Hslot).
  assert (Hstored : forall input,
             p_occupied (player_at (set_player player_id
                                      (p_store_input input (player_at server player_id))
                                      server) player_id) = true).
  { intros input. unfold player_at at 1, set_player. cbn [players with_players].
    rewrite list_lookup_insert_eq by exact Hin. exact Hocc. }
  unfold server_handle_client_message, gives_up_slot.
  unfold p_occupied in Hocc. rewrite Hocc. fold (p_occupied (player_at server player_id)) in Hocc.
  cbn [negb].
  destruct (Z.eqb_spec (rd_bytes rd) 0) as [H0|H0];
    [settle Hocc Hgone Hothers Hstored|].
  destruct (Z.ltb_spec (rd_bytes rd) 0) as [Hneg|Hpos].
  { destruct (Z.eqb_spec (rd_bytes rd) sizeof_MessageHeader) as [H3|_];
      [unfold sizeof_MessageHeader in H3; lia|].
    destruct (errno_would_block (rd_errno rd)); settle Hocc Hgone Hothers Hstored. }
  destruct (Z.eqb_spec (rd_bytes rd) sizeof_MessageHeader) as [H3|H3];
    [|settle Hocc Hgone Hothers Hstored].
  cbn [negb].
  destruct (Z.eqb_spec (h_type (rd_header rd)) MSG_PLAYER_INPUT) as [Hin1|Hin1].
  { rewrite Hin1. change (MSG_PLAYER_INPUT =? MSG_DISCONNECT) with false.
    destruct (rd_input rd) as [n input].
    destruct (n <=? 0); [|destruct (_ <=? _)]; settle Hocc Hgone Hothers Hstored. }
  destruct (Z.eqb_spec (h_type (rd_header rd)) MSG_DISCONNECT) as [Hd|Hd];
    [settle Hocc Hgone Hothers Hstored|].
  destruct (h_type (rd_header rd) =? MSG_PING).
  { destruct (rd_ping rd) as [n ping].
    destruct (n >? 0); settle Hocc Hgone Hothers Hstored. }
  settle Hocc Hgone Hothers Hstored.
Qed.

Lemma slot_given_up_exactly_on_disconnect_example :
  let r := server_handle_client_message LittleEndian one_player_server
                                        (replicate 4 0) 0 disconnect_read in
  let server' := fst (fst r) in
  p_occupied (player_at server' 0) = negb (gives_up_slot disconnect_read) /\
  player_count server' =
    player_count one_player_server - (if gives_up_slot disconnect_read then 1 else 0) /\
  (gives_up_slot disconnect_read = true ->
   last (snd r) = Some (EvClose (p_socket (player_at one_player_server 0)))) /\
  (forall j, j <> 0%nat -> player_at server' j = player_at one_player_server j) /\
  bullets server' = bullets one_player_server /\
  bullet_count server' = bullet_count one_player_server.
Proof.
  apply (slot_given_up_exactly_on_disconnect LittleEndian one_player_server
           (replicate 4 0) 0 disconnect_read).
  reflexivity.
Defined.

(** ** The tick counter *)

















(* ===================================================================== *)
(** * Further properties of network.c *)
(* ===================================================================== *)

(** ** One call of [recv] *)

Lemma flowing_cons a pending :
  flowing (a :: pending) <->
  match a with Arrived _ | Interrupt => True | _ => False end /\ flowing pending.
Proof. unfold flowing. apply Forall_cons. Qed.

(** What a call that returns has done: the bytes it stored are the next
    bytes of the stream, and the outcome is one of: data, end of stream,
    interruption, would-block or failure. *)
Lemma recv_returns nonblocking pending n r err data pending' :
  (1 <= n)%nat ->
  recv nonblocking pending n = Some (r, err, data, pending') ->
  bytes_of pending = data ++ bytes_of pending' /\
  (0 < r /\ r = Z.of_nat (length data) /\ (length data <= n)%nat /\
   (length pending' < length pending \/ length data = n)%nat /\
   (flowing pending <-> flowing pending')
   \/ r = 0 /\ data = [] /\ ~ flowing pending
   \/ r = -1 /\ data = [] /\ err = EINTR /\ (length pending' < length pending)%nat /\
      (flowing pending <-> flowing pending')
   \/ r = -1 /\ data = [] /\ errno_is_EINTR err = false /\
      (errno_would_block err = true ->
       ~ flowing pending \/ nonblocking = true /\ bytes_of pending = []) /\
      (errno_would_block err = false -> ~ flowing pending)).
Proof.
  intros Hn. revert r err data pending'.
  induction pending as [|a rest IH]; intros r err data pending' H; cbn [recv] in H.
  - destruct nonblocking; [|discriminate]. injection H as <- <- <- <-.
    split; [reflexivity|]. right. right. right.
    split; [reflexivity|]. split; [reflexivity|]. split; [reflexivity|].
    split; [intros _; right; now split | discriminate].
  - destruct a as [bytes| | | |code].
    + destruct bytes as [|b bytes].
      * destruct (IH _ _ _ _ H) as (Hb & Hcases). split; [exact Hb|].
        assert (Hfl : flowing (Arrived [] :: rest) <-> flowing rest)
          by (rewrite flowing_cons; tauto).
        cbn [length].
        destruct Hcases as [(H1 & H2 & H3 & H4 & H5)|[(H1 & H2 & H3)|
                            [(H1 & H2 & H3 & H4 & H5)|(H1 & H2 & H3 & H4 & H5)]]].
        -- left. repeat split; try assumption; try tauto; lia.
        -- right. left. repeat split; try assumption. tauto.
        -- right. right. left. repeat split; try assumption; try tauto; lia.
        -- right. right. right. repeat split; try assumption.
           ++ intros Hw. destruct (H4 Hw) as [Hnf|[Hnb Hbs]]; [left; tauto|].
              right. split; [exact Hnb | exact Hbs].
           ++ intros Hw. specialize (H5 Hw). tauto.
      * set (bs := b :: bytes) in *.
        assert (Hpos : (1 <= length bs)%nat) by (cbn; lia).
        destruct (Nat.leb_spec (length bs) n) as [Hle|Hgt];
          injection H as <- <- <- <-.
        -- split; [reflexivity|]. left.
           split; [lia|]. split; [reflexivity|]. split; [exact Hle|].
           split; [left; cbn; lia|]. rewrite flowing_cons. tauto.
        -- split.
           { cbn [bytes_of flat_map]. rewrite app_assoc, take_drop. reflexivity. }
           left. rewrite length_take. split; [lia|]. split; [lia|]. split; [lia|].
           split; [right; lia|]. rewrite !flowing_cons. tauto.
    + injection H as <- <- <- <-. split; [reflexivity|]. right. right. left.
      repeat split; try reflexivity; try (cbn; lia);
        rewrite flowing_cons; tauto.
    + injection H as <- <- <- <-. split; [reflexivity|]. right. right. right.
      split; [reflexivity|]. split; [reflexivity|]. split; [reflexivity|].
      split; [intros _; left; rewrite flowing_cons; tauto | discriminate].
    + injection H as <- <- <- <-. split; [reflexivity|]. right. left.
      split; [reflexivity|]. split; [reflexivity|]. rewrite flowing_cons. tauto.
    + injection H as <- <- <- <-. split; [reflexivity|]. right. right. right.
      split; [reflexivity|]. split; [reflexivity|]. split; [reflexivity|].
      split; [discriminate|]. intros _. rewrite flowing_cons. tauto.
Qed.

(** A call that never returns: a blocking socket on which nothing more
    arrives. *)
Lemma recv_blocks nonblocking pending n :
  recv nonblocking pending n = None ->
  nonblocking = false /\ flowing pending /\ bytes_of pending = [].
Proof.
  induction pending as [|a rest IH]; cbn [recv]; intros H.
  - destruct nonblocking; [discriminate|]. split; [reflexivity|]. split; [constructor | reflexivity].
  - destruct a as [bytes| | | |code]; try discriminate.
    destruct bytes as [|b bytes].
    + destruct (IH H) as (Hnb & Hfl & Hb). split; [exact Hnb|].
      split; [rewrite flowing_cons; tauto | exact Hb].
    + destruct (_ <=? _)%nat; discriminate.
Qed.

(** ** The read loop *)

Lemma bytes_of_app p q : bytes_of (p ++ q) = bytes_of p ++ bytes_of q.
Proof. unfold bytes_of. apply flat_map_app. Qed.

Lemma net_recv_all_loop_spec nonblocking length :
  forall fuel pending total got,
    (List.length pending < fuel)%nat \/ length <= total ->
    total = Z.of_nat (List.length got) ->
    match net_recv_all_loop fuel nonblocking pending length total got with
    | Some (r, got', pending') =>
        got ++ bytes_of pending = got' ++ bytes_of pending' /\
        Z.of_nat (List.length got') <= Z.max length total /\
        (r = Z.of_nat (List.length got') \/ r = -1 /\ ~ flowing pending) /\
        (r = Z.of_nat (List.length got') -> r < length ->
         ~ flowing pending \/ nonblocking = true /\ bytes_of pending' = []) /\
        (flowing pending -> flowing pending')
    | None =>
        nonblocking = false /\ flowing pending /\
        total + Z.of_nat (List.length (bytes_of pending)) < length
    end.
Proof.
  induction fuel as [|fuel IH]; intros pending total got Hfuel Htotal.
  - cbn [net_recv_all_loop].
    destruct (Z.ltb_spec total length) as [Hlt|Hge]; [lia|].
    split; [reflexivity|]. split; [lia|]. split; [left; exact Htotal|].
    split; [intros; lia | tauto].
  - cbn [net_recv_all_loop].
    destruct (Z.ltb_spec total length) as [Hlt|Hge].
    2:{ split; [reflexivity|]. split; [lia|]. split; [left; exact Htotal|].
        split; [intros; lia | tauto]. }
    assert (Hn : (1 <= Z.to_nat (length - total))%nat) by lia.
    destruct (recv nonblocking pending (Z.to_nat (length - total)))
      as [[[[r err] data] pending1]|] eqn:Hrecv.
    2:{ destruct (recv_blocks _ _ _ Hrecv) as (Hnb & Hfl & Hb).
        split; [exact Hnb|]. split; [exact Hfl|]. rewrite Hb. cbn. lia. }
    destruct (recv_returns _ _ _ _ _ _ _ Hn Hrecv) as (Hbytes & Hcases).
    destruct Hcases as [(H1 & H2 & H3 & H4 & H5)|[(H1 & H2 & H3)|
                        [(H1 & H2 & H3 & H4 & H5)|(H1 & H2 & H3 & H4 & H5)]]].
    + destruct (Z.ltb_spec r 0); [lia|]. destruct (Z.eqb_spec r 0); [lia|].
      specialize (IH pending1 (total + r) (got ++ data)).
      assert (Hpre : (List.length pending1 < fuel)%nat \/ length <= total + r) by lia.
      specialize (IH Hpre ltac:(rewrite length_app; lia)).
      destruct (net_recv_all_loop fuel nonblocking pending1 length (total + r) (got ++ data))
        as [[[r' got'] pending']|].
      * destruct IH as (Ha & Hb & Hc & Hd & He).
        split; [rewrite Hbytes, app_assoc; exact Ha|].
        split; [lia|].
        split; [destruct Hc as [Hc|[Hc Hnf]]; [left; exact Hc | right; tauto]|].
        split; [|tauto].
        intros Hr Hlt'. destruct (Hd Hr Hlt') as [Hnf|Hout]; [left; tauto | right; exact Hout].
      * destruct IH as (Ha & Hb & Hc). split; [exact Ha|]. split; [tauto|].
        rewrite Hbytes, length_app. lia.
    + subst r data. cbn [Z.ltb Z.eqb Z.compare].
      rewrite app_nil_l in Hbytes.
      split; [now rewrite Hbytes|]. split; [lia|]. split; [left; exact Htotal|].
      split; [intros; left; exact H3 | tauto].
    + subst r data err. cbn [Z.ltb Z.compare errno_is_EINTR].
      rewrite app_nil_l in Hbytes.
      specialize (IH pending1 total got ltac:(left; lia) Htotal).
      destruct (net_recv_all_loop fuel nonblocking pending1 length total got)
        as [[[r' got'] pending']|].
      * destruct IH as (Ha & Hb & Hc & Hd & He).
        split; [rewrite Hbytes; exact Ha|]. split; [exact Hb|].
        split; [destruct Hc as [Hc|[Hc Hnf]]; [left; exact Hc | right; tauto]|].
        split; [|tauto].
        intros Hr Hlt'. destruct (Hd Hr Hlt') as [Hnf|Hout]; [left; tauto | right; exact Hout].
      * destruct IH as (Ha & Hb & Hc). split; [exact Ha|]. split; [tauto|].
        now rewrite Hbytes.
    + subst r data. cbn [Z.ltb Z.compare]. rewrite H3.
      rewrite app_nil_l in Hbytes.
      destruct (errno_would_block err) eqn:Hwb.
      * split; [now rewrite Hbytes|]. split; [lia|]. split; [left; exact Htotal|].
        split; [|destruct (H4 eq_refl) as [Hnf|[_ Hb]]; [tauto|]].
        -- intros _ _. destruct (H4 eq_refl) as [Hnf|[Hnb Hb]]; [left; exact Hnf|].
           right. split; [exact Hnb|]. now rewrite <- Hbytes.
        -- intros Hfl. assert (Hp1 : bytes_of pending1 = []) by now rewrite <- Hbytes.
           clear - Hrecv Hfl H3 Hwb.
           revert Hrecv. induction pending as [|a rest IHp]; cbn [recv].
           ++ destruct nonblocking; [|discriminate]. intros [= <- <-]. constructor.
           ++ apply flowing_cons in Hfl. destruct Hfl as [Ha Hrest].
              destruct a as [bytes| | | |code]; try contradiction.
              ** destruct bytes as [|b bytes]; [exact (IHp Hrest)|].
                 destruct (_ <=? _)%nat; intros [= ? <-]; lia.
              ** intros [= <-]. discriminate.
      * split; [now rewrite Hbytes|]. split; [lia|].
        split; [right; split; [reflexivity | exact (H5 eq_refl)]|].
        split; [intros Hr; lia|]. intros Hfl. exfalso. exact (H5 eq_refl Hfl).
Qed.

Lemma net_recv_all_whole nonblocking pending length :
  flowing pending ->
  0 <= length <= Z.of_nat (List.length (bytes_of pending)) ->
  exists pending',
    net_recv_all nonblocking pending length =
      Some (length, take (Z.to_nat length) (bytes_of pending), pending') /\
    bytes_of pending' = drop (Z.to_nat length) (bytes_of pending) /\
    flowing pending'.
Proof.
  intros Hfl Hlen. unfold net_recv_all.
  pose proof (net_recv_all_loop_spec nonblocking length (S (List.length pending))
                pending 0 [] ltac:(left; lia) eq_refl) as Hspec.
  destruct (net_recv_all_loop _ _ _ _ _ _) as [[[r got] pending']|].
  2:{ destruct Hspec as (_ & _ & Hshort). lia. }
  destruct Hspec as (Hbytes & Hmax & Hr & Hstop & Hfl').
  rewrite app_nil_l in Hbytes.
  destruct Hr as [Hr|[_ Hnf]]; [|tauto].
  assert (Hfull : r = length).
  { destruct (Z.lt_ge_cases r length) as [Hlt|Hge]; [|lia].
    destruct (Hstop Hr Hlt) as [Hnf|[_ Hout]]; [tauto|].
    rewrite Hout, app_nil_r in Hbytes. rewrite Hbytes in Hlen. lia. }
  exists pending'. subst r.
  assert (Hgot : Z.to_nat length = List.length got) by lia.
  rewrite Hbytes, Hgot, take_app_length, drop_app_length.
  split; [do 3 f_equal; lia|]. split; [reflexivity | exact (Hfl' Hfl)].
Qed.

(** X10. Whatever the chunks in which a message arrives and however often the
    read is interrupted by a signal, [net_recv_all] returns [length]
    with the first [length] bytes of the stream stored in order, and
    leaves the rest of the stream for the next read. *)
Theorem net_recv_all_reassembles
    (nonblocking : bool) (pending : list arrival) (length : Z) :
  flowing pending ->
  0 <= length <= Z.of_nat (List.length (bytes_of pending)) ->
  exists pending',
    net_recv_all nonblocking pending length =
      Some (length, take (Z.to_nat length) (bytes_of pending), pending') /\
    bytes_of pending' = drop (Z.to_nat length) (bytes_of pending) /\
    flowing pending'.
Proof.
  exact (net_recv_all_whole nonblocking pending length).
Qed.

Lemma net_recv_all_reassembles_example :
  exists pending',
    net_recv_all false [Arrived [1; 2]; Interrupt; Arrived [3; 4; 5]; Arrived [6]] 4 =
      Some (4, take (Z.to_nat 4)
                    (bytes_of [Arrived [1; 2]; Interrupt; Arrived [3; 4; 5]; Arrived [6]]),
            pending') /\
    bytes_of pending' =
      drop (Z.to_nat 4)
           (bytes_of [Arrived [1; 2]; Interrupt; Arrived [3; 4; 5]; Arrived [6]]) /\
    flowing pending'.
Proof.
  apply (net_recv_all_reassembles false
           [Arrived [1; 2]; Interrupt; Arrived [3; 4; 5]; Arrived [6]] 4).
  - repeat constructor.
  - cbn. lia.
Defined.

(** X11. [net_recv_all] never loses, repeats or reorders a byte of the stream:
    what it stored followed by what is left to read is the stream it
    found, also when it stops early or fails. It returns the number of
    bytes stored, at most [length], or -1; on a stream of data and
    interruptions only it returns fewer than [length] bytes only on a
    non-blocking socket that has run dry, and it fails to return only on
    a blocking socket on which fewer than [length] bytes arrive. *)
Theorem net_recv_all_loses_no_byte
    (nonblocking : bool) (pending : list arrival) (length : Z) :
  match net_recv_all nonblocking pending length with
  | Some (r, got, pending') =>
      bytes_of pending = got ++ bytes_of pending' /\
      Z.of_nat (List.length got) <= Z.max length 0 /\
      (r = Z.of_nat (List.length got) \/ r = -1) /\
      (flowing pending ->
       r = Z.of_nat (List.length got) /\
       (r < length -> nonblocking = true /\ bytes_of pending' = []))
  | None =>
      nonblocking = false /\ flowing pending /\
      Z.of_nat (List.length (bytes_of pending)) < length
  end.
Proof.
  unfold net_recv_all.
  pose proof (net_recv_all_loop_spec nonblocking length (S (List.length pending))
                pending 0 [] ltac:(left; lia) eq_refl) as Hspec.
  destruct (net_recv_all_loop _ _ _ _ _ _) as [[[r got] pending']|].
  - destruct Hspec as (Hbytes & Hmax & Hr & Hstop & Hfl').
    split; [exact Hbytes|]. split; [exact Hmax|].
    split; [destruct Hr as [Hr|[Hr _]]; [left | right]; exact Hr|].
    intros Hfl. destruct Hr as [Hr|[_ Hnf]]; [|tauto].
    split; [exact Hr|]. intros Hlt. destruct (Hstop Hr Hlt) as [Hnf|Hout]; [tauto | exact Hout].
  - destruct Hspec as (Hnb & Hfl & Hshort). split; [exact Hnb|]. split; [exact Hfl|]. lia.
Qed.

(** ** The write loop *)

Lemma net_send_all_loop_prefix (send : send_fn) (data : list Z) (length : Z) :
  honest send ->
  length <= Z.of_nat (List.length data) ->
  forall fuel call total wire,
    0 <= total <= length ->
    wire = take (Z.to_nat total) data ->
    match net_send_all_loop fuel send call data length total wire with
    | Some (r, wire') =>
        wire' = take (List.length wire') data /\
        Z.of_nat (List.length wire') <= Z.max length total /\
        (List.length wire <= List.length wire')%nat /\
        (r = Z.of_nat (List.length wire') \/ r = -1)
    | None => True
    end.
Proof.
  intros Hhonest Hlen.
  induction fuel as [|fuel IH]; intros call total wire Htotal Hwire.
  - cbn [net_send_all_loop]. destruct (Z.ltb_spec total length) as [Hlt|Hge]; [exact I|].
    assert (Hl : List.length wire = Z.to_nat total)
      by (rewrite Hwire, length_take; lia).
    rewrite Hl. split; [exact Hwire|]. split; [lia|]. split; [lia|]. left. lia.
  - cbn [net_send_all_loop]. destruct (Z.ltb_spec total length) as [Hlt|Hge].
    2:{ assert (Hl : List.length wire = Z.to_nat total)
          by (rewrite Hwire, length_take; lia).
        rewrite Hl. split; [exact Hwire|]. split; [lia|]. split; [lia|]. left. lia. }
    assert (Hl : List.length wire = Z.to_nat total)
      by (rewrite Hwire, length_take; lia).
    set (offered := take (Z.to_nat (length - total)) (drop (Z.to_nat total) data)).
    assert (Hoff : List.length offered = Z.to_nat (length - total)).
    { unfold offered. rewrite length_take, length_drop. lia. }
    pose proof (Hhonest call offered) as Hh.
    destruct (send call offered) as [bytes_sent err]. cbn [fst] in Hh.
    destruct (Z.ltb_spec bytes_sent 0) as [Hneg|Hpos].
    { destruct (errno_is_EINTR err); [now apply IH|].
      rewrite Hl. split; [exact Hwire|]. split; [lia|]. split; [lia|]. right. reflexivity. }
    destruct (Z.eqb_spec bytes_sent 0) as [Hz|Hnz].
    { rewrite Hl. split; [exact Hwire|]. split; [lia|]. split; [lia|]. left. lia. }
    specialize (IH (S call) (total + bytes_sent)
                   (wire ++ take (Z.to_nat bytes_sent) offered) ltac:(lia)).
    assert (Hnew : wire ++ take (Z.to_nat bytes_sent) offered =
                   take (Z.to_nat (total + bytes_sent)) data).
    { unfold offered. rewrite take_take.
      replace (Z.to_nat bytes_sent `min` Z.to_nat (length - total))%nat
        with (Z.to_nat bytes_sent) by lia.
      rewrite Hwire, take_take_drop. f_equal. lia. }
    specialize (IH Hnew).
    destruct (net_send_all_loop fuel send (S call) data length (total + bytes_sent) _)
      as [[r wire']|]; [|exact I].
    destruct IH as (Ha & Hb & Hc & Hd). split; [exact Ha|]. split; [lia|].
    split; [rewrite length_app in Hc; lia | exact Hd].
Qed.

(** X12. What [net_send_all] has put on the wire when it returns is always a
    prefix of the data, at most [length] bytes long, and the value
    returned is the length of that prefix or -1: a failure is reported as
    -1 whatever number of bytes went out before it. *)
Theorem net_send_all_sends_a_prefix
    (fuel : nat) (send : send_fn) (data : list Z) (length : Z) (r : Z) (wire : list Z) :
  honest send ->
  0 <= length <= Z.of_nat (List.length data) ->
  net_send_all fuel send data length = Some (r, wire) ->
  wire = take (List.length wire) data /\
  Z.of_nat (List.length wire) <= length /\
  (r = Z.of_nat (List.length wire) \/ r = -1).
Proof.
  intros Hhonest Hlen Hrun. unfold net_send_all in Hrun.
  pose proof (net_send_all_loop_prefix send data length Hhonest ltac:(lia)
                fuel 0%nat 0 [] ltac:(lia) eq_refl) as Hspec.
  rewrite Hrun in Hspec. destruct Hspec as (Ha & Hb & _ & Hd).
  split; [exact Ha|]. split; [lia | exact Hd].
Qed.

Lemma net_send_all_sends_a_prefix_example :
  net_send_all 5 send_two_then_fail [7; 8; 9; 10] 4 = Some (-1, [7; 8]) /\
  ([7; 8] = take (List.length [7; 8]) [7; 8; 9; 10] /\
   Z.of_nat (List.length [7; 8]) <= 4 /\
   (-1 = Z.of_nat (List.length [7; 8]) \/ -1 = -1)).
Proof.
  split; [reflexivity|].
  apply (net_send_all_sends_a_prefix 5 send_two_then_fail [7; 8; 9; 10] 4 (-1) [7; 8]).
  - intros call offered. destruct call; cbn [send_two_then_fail fst]; lia.
  - cbn. lia.
  - reflexivity.
Defined.

(* ===================================================================== *)
(** * Further properties of protocol.h: reading back what was written *)
(* ===================================================================== *)

(** ** Floats *)

Lemma digits2_pos_size m : digits2_pos m = Pos.size m.
Proof. induction m as [m IH|m IH|]; cbn; [now rewrite IH | now rewrite IH | reflexivity]. Qed.

Lemma size_bounds m :
  2 ^ Z.pos (Pos.size m) <= 2 * Z.pos m /\ Z.pos m < 2 ^ Z.pos (Pos.size m).
Proof.
  pose proof (Pos.size_gt m) as Hgt. pose proof (Pos.size_le m) as Hle.
  rewrite <- Pos2Z.inj_pow. split.
  - change (2 * Z.pos m) with (Z.pos m~0). exact Hle.
  - exact Hgt.
Qed.

Lemma bounded_cases m e :
  bounded f32_prec f32_emax m e = true ->
  Z.pos m < 8388608 /\ e = -149 \/
  8388608 <= Z.pos m < 16777216 /\ -149 <= e <= 104.
Proof.
  unfold bounded, canonical_mantissa, fexp, emin, f32_prec, f32_emax.
  rewrite digits2_pos_size. intros H. apply andb_true_iff in H. destruct H as [Hc He].
  apply Z.eqb_eq in Hc. apply Z.leb_le in He.
  destruct (size_bounds m) as [Hlo Hhi].
  set (d := Z.pos (Pos.size m)) in *.
  assert (Hd : 1 <= d) by (unfold d; lia).
  change (IntDef.Z.max (d + e - 24) (3 - 128 - 24)) with (Z.max (d + e - 24) (-149)) in Hc.
  destruct (Z.max_spec (d + e - 24) (-149)) as [[Hlt Hmax]|[Hge Hmax]];
    rewrite Hmax in Hc.
  - left. subst e. split; [|reflexivity].
    assert (Hd23 : d <= 23) by lia.
    pose proof (Z.pow_le_mono_r 2 d 23 ltac:(lia) Hd23) as Hpow.
    change (2 ^ 23) with 8388608 in Hpow. lia.
  - right. assert (Hd24 : d = 24) by lia. rewrite Hd24 in Hlo, Hhi.
    change (2 ^ 24) with 16777216 in Hlo, Hhi. lia.
Qed.

Lemma bit_fields (sign : bool) (E M : Z) :
  0 <= E < 256 -> 0 <= M < 8388608 ->
  let b := (if sign then 2147483648 else 0) + (E * 8388608 + M) in
  (2147483648 <=? b) = sign /\ (b / 8388608) mod 256 = E /\ b mod 8388608 = M.
Proof.
  intros HE HM b. unfold b. split; [|split].
  - destruct sign; [apply Z.leb_le | apply Z.leb_gt]; lia.
  - destruct sign; Z.div_mod_to_equations; lia.
  - destruct sign; Z.div_mod_to_equations; lia.
Qed.

(** A binary32 value is read back from its 32-bit pattern unchanged. *)
Lemma f32_of_bits_of_f32 x : is_f32 x -> f32_of_bits (bits_of_f32 x) = x.
Proof.
  unfold is_f32. destruct x as [s|s| |s m e]; cbn [valid_binary bits_of_f32].
  - intros _. destruct s; reflexivity.
  - intros _. destruct s; reflexivity.
  - intros _. reflexivity.
  - intros Hb. destruct (bounded_cases m e Hb) as [[Hm He]|[Hm He]].
    + destruct (Z.ltb_spec (Z.pos m) 8388608) as [_|]; [|lia].
      destruct (bit_fields s 0 (Z.pos m) ltac:(lia) ltac:(lia)) as (H1 & H2 & H3).
      cbv zeta in H1, H2, H3. rewrite Z.mul_0_l, Z.add_0_l in H1, H2, H3.
      unfold f32_of_bits. cbv zeta. rewrite H1, H2, H3.
      cbn [Z.eqb]. subst e. reflexivity.
    + destruct (Z.ltb_spec (Z.pos m) 8388608) as [|_]; [lia|].
      destruct (bit_fields s (e + 150) (Z.pos m - 8388608) ltac:(lia) ltac:(lia))
        as (H1 & H2 & H3).
      cbv zeta in H1, H2, H3.
      unfold f32_of_bits. cbv zeta. rewrite H1, H2, H3.
      destruct (Z.eqb_spec (e + 150) 0); [lia|].
      destruct (Z.eqb_spec (e + 150) 255); [lia|].
      replace (Z.pos m - 8388608 + 8388608) with (Z.pos m) by lia.
      replace (e + 150 - 150) with e by lia. reflexivity.
Qed.

Lemma bits_of_f32_range x : is_f32 x -> 0 <= bits_of_f32 x < 4294967296.
Proof.
  unfold is_f32. destruct x as [s|s| |s m e]; cbn [valid_binary bits_of_f32].
  - destruct s; lia.
  - destruct s; lia.
  - lia.
  - intros Hb. destruct (bounded_cases m e Hb) as [[Hm He]|[Hm He]].
    + destruct (Z.ltb_spec (Z.pos m) 8388608) as [_|]; [|lia]. destruct s; lia.
    + destruct (Z.ltb_spec (Z.pos m) 8388608) as [|_]; [lia|]. destruct s; lia.
Qed.

(** ** Structures *)

Lemma list_length_1 {A} (l : list A) : length l = 1%nat -> exists a, l = [a].
Proof. destruct l as [|a [|]]; try discriminate. eauto. Qed.

Lemma list_length_2 {A} (l : list A) : length l = 2%nat -> exists a b, l = [a; b].
Proof. destruct l as [|a [|b [|]]]; try discriminate. eauto. Qed.

Lemma list_length_4 {A} (l : list A) :
  length l = 4%nat -> exists a b c d, l = [a; b; c; d].
Proof. destruct l as [|a [|b [|c [|d [|]]]]]; try discriminate. eauto 6. Qed.

Lemma load_store_u8 bo v : is_u8 v -> load_int bo (store_int bo 1 v) = v.
Proof. intros H. apply load_store_int. exact H. Qed.

Lemma load_store_u16 bo v : is_u16 v -> load_int bo (store_int bo 2 v) = v.
Proof. intros H. apply load_store_int. exact H. Qed.

Lemma load_store_u32 bo v : is_u32 v -> load_int bo (store_int bo 4 v) = v.
Proof. intros H. apply load_store_int. exact H. Qed.

Lemma le_value_le_bytes_mod n v :
  le_value (le_bytes n v) = v mod 256 ^ Z.of_nat n.
Proof.
  revert v; induction n as [|n IH]; intros v.
  - cbn. now rewrite Z.mod_1_r.
  - cbn [le_bytes le_value]. rewrite IH.
    rewrite Nat2Z.inj_succ, Z.pow_succ_r by lia.
    rewrite Z.rem_mul_r by lia. lia.
Qed.

Lemma load_store_int_mod bo n v :
  load_int bo (store_int bo n v) = v mod 256 ^ Z.of_nat n.
Proof.
  destruct bo; cbn [load_int store_int];
    [|rewrite rev_involutive]; apply le_value_le_bytes_mod.
Qed.

Lemma load_store_i16 bo v : is_i16 v -> i16 (load_int bo (store_int bo 2 v)) = v.
Proof.
  intros H. rewrite load_store_int_mod. change (256 ^ Z.of_nat 2) with 65536.
  unfold i16, is_i16 in *. Z.div_mod_to_equations. lia.
Qed.

Lemma load_store_f32 bo x : is_f32 x -> load_f32 bo (store_f32 bo x) = x.
Proof.
  intros H. unfold load_f32, store_f32.
  rewrite load_store_int by (apply bits_of_f32_range; exact H).
  now apply f32_of_bits_of_f32.
Qed.

Ltac expose_field f :=
  let H := fresh "Hf" in
  let L := fresh "Hl" in
  remember f as l eqn:H in |- *;
  match type of H with
  | _ = store_int ?bo 1%nat ?v =>
      assert (L : length l = 1%nat) by (rewrite H; apply length_store_int);
      destruct (list_length_1 l L) as (? & ->)
  | _ = store_int ?bo 2%nat ?v =>
      assert (L : length l = 2%nat) by (rewrite H; apply length_store_int);
      destruct (list_length_2 l L) as (? & ? & ->)
  | _ = store_int ?bo 4%nat ?v =>
      assert (L : length l = 4%nat) by (rewrite H; apply length_store_int);
      destruct (list_length_4 l L) as (? & ? & ? & ? & ->)
  | _ = store_f32 ?bo ?v =>
      assert (L : length l = 4%nat) by (rewrite H; apply length_store_int);
      destruct (list_length_4 l L) as (? & ? & ? & ? & ->)
  end;
  clear L.

Lemma PlayerState_read_back bo p rest :
  PlayerState_typed p ->
  PlayerState_of_bytes bo (bytes_of_PlayerState bo p ++ rest) = p.
Proof.
  intros (H1 & H2 & H3 & H4 & H5 & H6 & H7 & H8).
  destruct p as [pid x y vx vy health weapon flags].
  cbn [ps_player_id ps_x ps_y ps_vx ps_vy ps_health ps_weapon ps_flags] in *.
  unfold PlayerState_of_bytes, bytes_of_PlayerState.
  cbn [ps_player_id ps_x ps_y ps_vx ps_vy ps_health ps_weapon ps_flags].
  expose_field (store_int bo 1 pid). expose_field (store_f32 bo x).
  expose_field (store_f32 bo y). expose_field (store_f32 bo vx).
  expose_field (store_f32 bo vy). expose_field (store_int bo 2 health).
  expose_field (store_int bo 1 weapon). expose_field (store_int bo 1 flags).
  cbn [app take drop]. rewrite ?take_0.
  rewrite Hf, Hf0, Hf1, Hf2, Hf3, Hf4, Hf5, Hf6.
  rewrite !load_store_f32, !load_store_u8, load_store_i16 by assumption.
  reflexivity.
Qed.

Lemma BulletState_read_back bo b rest :
  BulletState_typed b ->
  BulletState_of_bytes bo (bytes_of_BulletState bo b ++ rest) = b.
Proof.
  intros (H1 & H2 & H3 & H4 & H5 & H6).
  destruct b as [owner x y vx vy weapon].
  cbn [bs_owner_id bs_x bs_y bs_vx bs_vy bs_weapon_type] in *.
  unfold BulletState_of_bytes, bytes_of_BulletState.
  cbn [bs_owner_id bs_x bs_y bs_vx bs_vy bs_weapon_type].
  expose_field (store_int bo 1 owner). expose_field (store_f32 bo x).
  expose_field (store_f32 bo y). expose_field (store_f32 bo vx).
  expose_field (store_f32 bo vy). expose_field (store_int bo 1 weapon).
  cbn [app take drop]. rewrite ?take_0.
  rewrite Hf, Hf0, Hf1, Hf2, Hf3, Hf4.
  rewrite !load_store_f32, !load_store_u8 by assumption.
  reflexivity.
Qed.

Lemma GameStateMsg_read_back bo g rest :
  GameStateMsg_typed g ->
  GameStateMsg_of_bytes bo (bytes_of_GameStateMsg bo g ++ rest) = g.
Proof.
  intros (H1 & H2 & H3 & H4).
  destruct g as [tk sq pc bc].
  cbn [gs_tick gs_your_sequence gs_player_count gs_bullet_count] in *.
  unfold GameStateMsg_of_bytes, bytes_of_GameStateMsg.
  cbn [gs_tick gs_your_sequence gs_player_count gs_bullet_count].
  expose_field (store_int bo 4 tk). expose_field (store_int bo 4 sq).
  expose_field (store_int bo 1 pc). expose_field (store_int bo 1 bc).
  cbn [app take drop]. rewrite ?take_0.
  rewrite Hf, Hf0, Hf1, Hf2.
  rewrite !load_store_u32, !load_store_u8 by assumption.
  reflexivity.
Qed.

Lemma ConnectAckMsg_read_back bo a rest :
  is_u8 (ack_success a) -> is_u8 (ack_player_id a) -> is_u8 (ack_reason a) ->
  ConnectAckMsg_of_bytes bo (bytes_of_ConnectAckMsg bo a ++ rest) = a.
Proof.
  intros H1 H2 H3. destruct a as [su pid re].
  cbn [ack_success ack_player_id ack_reason] in *.
  unfold ConnectAckMsg_of_bytes, bytes_of_ConnectAckMsg.
  cbn [ack_success ack_player_id ack_reason].
  expose_field (store_int bo 1 su). expose_field (store_int bo 1 pid).
  expose_field (store_int bo 1 re).
  cbn [app take drop]. rewrite ?take_0.
  rewrite Hf, Hf0, Hf1.
  rewrite !load_store_u8 by assumption.
  reflexivity.
Qed.

Lemma PlayerState_read_back_exact bo p :
  PlayerState_typed p -> PlayerState_of_bytes bo (bytes_of_PlayerState bo p) = p.
Proof.
  intros H. rewrite <- (PlayerState_read_back bo p [] H) at 2. now rewrite app_nil_r.
Qed.

Lemma BulletState_read_back_exact bo b :
  BulletState_typed b -> BulletState_of_bytes bo (bytes_of_BulletState bo b) = b.
Proof.
  intros H. rewrite <- (BulletState_read_back bo b [] H) at 2. now rewrite app_nil_r.
Qed.

Lemma GameStateMsg_read_back_exact bo g :
  GameStateMsg_typed g -> GameStateMsg_of_bytes bo (bytes_of_GameStateMsg bo g) = g.
Proof.
  intros H. rewrite <- (GameStateMsg_read_back bo g [] H) at 2. now rewrite app_nil_r.
Qed.

Lemma ConnectAckMsg_read_back_exact bo a :
  is_u8 (ack_success a) -> is_u8 (ack_player_id a) -> is_u8 (ack_reason a) ->
  ConnectAckMsg_of_bytes bo (bytes_of_ConnectAckMsg bo a) = a.
Proof.
  intros H1 H2 H3. rewrite <- (ConnectAckMsg_read_back bo a [] H1 H2 H3) at 2.
  now rewrite app_nil_r.
Qed.

(* ===================================================================== *)
(** * Further properties of shared_state.c *)
(* ===================================================================== *)

(** ** Projectiles on the bridge *)

Lemma clear_bullets_loop :
  forall n lo (bs : list RemoteBullet),
    (lo + n <= length bs)%nat ->
    exists bs',
      for_from_opt (fun i => bullets_set_active i 0) lo n bs = Some bs' /\
      length bs' = length bs /\
      forall i, bs' !! i = if decide (lo <= i < lo + n)%nat
                           then rb_set_active 0 <$> bs !! i else bs !! i.
Proof.
  induction n as [|n IH]; intros lo bs Hlen.
  - exists bs. split; [reflexivity|]. split; [reflexivity|].
    intros i. destruct (decide _); [lia | reflexivity].
  - cbn [for_from_opt]. unfold bullets_set_active at 1.
    destruct (lookup_lt_is_Some_2 bs lo ltac:(lia)) as [b Hb].
    rewrite Hb, array_set_Some by lia.
    destruct (IH (S lo) (<[lo:=rb_set_active 0 b]> bs)) as (bs' & Hrun & Hl & Hget).
    { rewrite length_insert. lia. }
    exists bs'. split; [exact Hrun|]. split; [now rewrite Hl, length_insert|].
    intros i. rewrite Hget.
    destruct (decide (S lo <= i < S lo + n)%nat) as [Hin|Hout].
    + rewrite list_lookup_insert_ne by lia.
      destruct (decide _); [reflexivity | lia].
    + destruct (decide (i = lo)) as [->|Hne].
      * rewrite list_lookup_insert_eq by lia.
        destruct (decide _); [now rewrite Hb | lia].
      * rewrite list_lookup_insert_ne by lia.
        destruct (decide _); [lia | reflexivity].
Qed.

Lemma copy_bullets_loop (src : list RemoteBullet) :
  forall n lo (bs : list RemoteBullet),
    (lo + n <= length bs)%nat -> (lo + n <= length src)%nat ->
    exists bs',
      for_from_opt (bullets_copy_in src) lo n bs = Some bs' /\
      length bs' = length bs /\
      forall i, bs' !! i = if decide (lo <= i < lo + n)%nat
                           then rb_set_active 1 <$> src !! i else bs !! i.
Proof.
  induction n as [|n IH]; intros lo bs Hlen Hsrc.
  - exists bs. split; [reflexivity|]. split; [reflexivity|].
    intros i. destruct (decide _); [lia | reflexivity].
  - cbn [for_from_opt]. unfold bullets_copy_in at 1.
    destruct (lookup_lt_is_Some_2 src lo ltac:(lia)) as [b Hb].
    rewrite Hb, array_set_Some by lia.
    destruct (IH (S lo) (<[lo:=rb_set_active 1 b]> bs)) as (bs' & Hrun & Hl & Hget).
    { rewrite length_insert. lia. }
    { lia. }
    exists bs'. split; [exact Hrun|]. split; [now rewrite Hl, length_insert|].
    intros i. rewrite Hget.
    destruct (decide (S lo <= i < S lo + n)%nat) as [Hin|Hout].
    + destruct (decide _); [reflexivity | lia].
    + destruct (decide (i = lo)) as [->|Hne].
      * rewrite list_lookup_insert_eq by lia.
        destruct (decide _); [now rewrite Hb | lia].
      * rewrite list_lookup_insert_ne by lia.
        destruct (decide _); [lia | reflexivity].
Qed.

(** X13. [shared_state_update_bullets] stores [min(count, 50)] as the count,
    also when [count] is negative; it copies that many projectiles from
    the caller's array into the first slots and marks them active, marks
    every other slot inactive, stays inside both arrays as long as the
    caller's array holds that many entries, and leaves the players, the
    tick and the packet counters alone. *)
Theorem shared_state_update_bullets_clamps
    (st : SharedState) (src : list RemoteBullet) (count : Z) :
  length (ss_bullets st) = MAX_REMOTE_BULLETS ->
  (Z.to_nat (Z.min count 50) <= length src)%nat ->
  exists st',
    shared_state_update_bullets st (Some src) count = Some st' /\
    length (ss_bullets st') = MAX_REMOTE_BULLETS /\
    (forall i, (i < Z.to_nat (Z.min count 50))%nat ->
       exists b, src !! i = Some b /\
                 ss_bullets st' !! i = Some (rb_set_active 1 b)) /\
    (forall i, (Z.to_nat (Z.min count 50) <= i < MAX_REMOTE_BULLETS)%nat ->
       exists q, ss_bullets st !! i = Some q /\
                 ss_bullets st' !! i = Some (rb_set_active 0 q)) /\
    ss_bullet_count st' = Z.min count 50 /\
    snd (shared_state_copy_bullets st') = Z.min count 50 /\
    ss_players st' = ss_players st /\ ss_player_count st' = ss_player_count st /\
    ss_server_tick st' = ss_server_tick st /\
    ss_packets_received st' = ss_packets_received st.
Proof.
  intros Hlen Hsrc. unfold shared_state_update_bullets.
  destruct (clear_bullets_loop MAX_REMOTE_BULLETS 0 (ss_bullets st))
    as (cl & Hcl & Hcl_len & Hcl_get).
  { rewrite Hlen. lia. }
  rewrite Hcl, bind_Some.
  set (copied := if count >? Z.of_nat MAX_REMOTE_BULLETS
                 then Z.of_nat MAX_REMOTE_BULLETS else count).
  assert (Hcopied : copied = Z.min count 50).
  { unfold copied, MAX_REMOTE_BULLETS. rewrite Z.gtb_ltb.
    destruct (Z.ltb_spec (Z.of_nat 50) count); lia. }
  assert (Hm : (Z.to_nat copied <= 50)%nat) by lia.
  destruct (copy_bullets_loop src (Z.to_nat copied) 0 cl) as (bs & Hbs & Hbs_len & Hbs_get).
  { rewrite Hcl_len, Hlen. unfold MAX_REMOTE_BULLETS. lia. }
  { rewrite Hcopied. lia. }
  rewrite Hbs, bind_Some. eexists. split; [reflexivity|].
  cbn [ss_bullets ss_bullet_count ss_players ss_player_count ss_server_tick
       ss_packets_received with_remote_bullets shared_state_copy_bullets snd].
  rewrite <- Hcopied.
  split; [now rewrite Hbs_len, Hcl_len|].
  split.
  { intros i Hi. destruct (lookup_lt_is_Some_2 src i ltac:(lia)) as [b Hb].
    exists b. split; [exact Hb|]. rewrite Hbs_get.
    destruct (decide _); [now rewrite Hb | lia]. }
  split.
  { intros i Hi. destruct (lookup_lt_is_Some_2 (ss_bullets st) i ltac:(lia)) as [q Hq].
    exists q. split; [exact Hq|]. rewrite Hbs_get.
    destruct (decide _); [lia|]. rewrite Hcl_get.
    destruct (decide _); [now rewrite Hq | lia]. }
  repeat split; reflexivity.
Qed.

Lemma shared_state_update_bullets_clamps_example :
  exists st',
    shared_state_update_bullets sample_shared
      (Some (replicate 60 (mkRemoteBullet 0 2 f32_zero f32_zero f32_zero f32_zero 1))) 60
    = Some st' /\
    ss_bullet_count st' = 50 /\
    ss_bullets st' !! 49%nat =
      Some (mkRemoteBullet 1 2 f32_zero f32_zero f32_zero f32_zero 1).
Proof.
  destruct (shared_state_update_bullets_clamps sample_shared
              (replicate 60 (mkRemoteBullet 0 2 f32_zero f32_zero f32_zero f32_zero 1)) 60)
    as (st' & Hrun & _ & Hin & _ & Hcount & _).
  - reflexivity.
  - rewrite length_replicate. lia.
  - exists st'. split; [exact Hrun|]. split; [exact Hcount|].
    destruct (Hin 49%nat ltac:(lia)) as (b & Hb & Hst).
    rewrite Hst. cbn in Hb. injection Hb as <-. reflexivity.
Defined.

(** ** The local player's position *)

(** X14. [shared_state_get_my_position] reports the first active entry of the
    player array whose id is the client's own: it returns 1 with that
    entry's position and velocity, or returns 0 and leaves the four
    variables as they were when no active entry carries the id. *)
Theorem shared_state_get_my_position_finds_first
    (st : SharedState) (out : f32 * f32 * f32 * f32) :
  let mine := fun i => truthy (rp_active (remote_player_at st i)) &&
                       (rp_id (remote_player_at st i) =? ss_my_id st) in
  let r := shared_state_get_my_position st out in
  (fst r = 1 /\
   exists i, (i < MAX_PLAYERS)%nat /\ mine i = true /\
             (forall j, (j < i)%nat -> mine j = false) /\
             snd r = (rp_x (remote_player_at st i), rp_y (remote_player_at st i),
                      rp_vx (remote_player_at st i), rp_vy (remote_player_at st i)))
  \/
  (fst r = 0 /\ snd r = out /\ forall i, (i < MAX_PLAYERS)%nat -> mine i = false).
Proof.
  cbv zeta. unfold shared_state_get_my_position.
  destruct (first_free _ 0 MAX_PLAYERS) as [i|] eqn:Hfind.
  - left. split; [reflexivity|]. exists i.
    apply first_free_Some in Hfind. destruct Hfind as (Hi & Hm & Hfirst).
    split; [lia|]. split; [exact Hm|]. split; [|reflexivity].
    intros j Hj. apply Hfirst. lia.
  - right. split; [reflexivity|]. split; [reflexivity|].
    intros i Hi. exact (first_free_None _ _ _ Hfind i ltac:(lia)).
Qed.

(* ===================================================================== *)
(** * Further properties of network_client.c *)
(* ===================================================================== *)

(** ** Reading from data that arrived in one piece *)

Lemma lookup_map {A B} (f : A -> B) (l : list A) (i : nat) :
  map f l !! i = f <$> l !! i.
Proof.
  revert i. induction l as [|x l IH]; intros [|i]; try reflexivity. apply IH.
Qed.

Lemma recv_now_at_once (a b : list Z) :
  a <> [] ->
  recv_now (at_once (a ++ b)) (length a) = (Z.of_nat (length a), EOTHER 0, a, at_once b).
Proof.
  intros Ha. unfold recv_now, at_once.
  destruct a as [|x a]; [contradiction|].
  cbn [app recv].
  change (x :: a ++ b) with ((x :: a) ++ b).
  destruct (Nat.leb_spec (length ((x :: a) ++ b)) (length (x :: a))) as [Hle|Hgt].
  - rewrite length_app in Hle. assert (Hb : b = []) by (destruct b; [reflexivity | cbn in Hle; lia]).
    subst b. rewrite app_nil_r. reflexivity.
  - rewrite take_app_length, drop_app_length.
    destruct b as [|y b]; [rewrite length_app in Hgt; cbn in Hgt; lia|]. reflexivity.
Qed.

Lemma recv_now_nothing n : recv_now [] n = (-1, EAGAIN, [], []).
Proof. reflexivity. Qed.

Lemma receive_players_whole host (ps : list PlayerState) (rest : list Z) :
  Forall PlayerState_typed ps ->
  forall acc,
    receive_players host (length ps)
                    (at_once (flat_map (bytes_of_PlayerState host) ps ++ rest)) acc =
    (true, acc ++ map RemotePlayer_of_state ps, at_once rest).
Proof.
  induction 1 as [|p ps Hp Hps IH]; intros acc.
  - cbn. now rewrite app_nil_r.
  - cbn [length receive_players flat_map]. rewrite <- app_assoc.
    change (Z.to_nat sizeof_PlayerState) with 21%nat.
    rewrite <- (length_bytes_of_PlayerState host p).
    rewrite recv_now_at_once.
    2:{ intros E. apply (f_equal length) in E.
        rewrite length_bytes_of_PlayerState in E. discriminate. }
    rewrite length_bytes_of_PlayerState. change (Z.of_nat 21 =? sizeof_PlayerState) with true.
    cbv iota. rewrite IH.
    rewrite PlayerState_read_back_exact by exact Hp.
    now rewrite <- app_assoc.
Qed.

Lemma receive_bullets_whole host (bs : list BulletState) (rest : list Z) :
  Forall BulletState_typed bs ->
  forall acc,
    receive_bullets host (length bs)
                    (at_once (flat_map (bytes_of_BulletState host) bs ++ rest)) acc =
    (true, acc ++ map RemoteBullet_of_state bs, at_once rest).
Proof.
  induction 1 as [|b bs Hb Hbs IH]; intros acc.
  - cbn. now rewrite app_nil_r.
  - cbn [length receive_bullets flat_map]. rewrite <- app_assoc.
    change (Z.to_nat sizeof_BulletState) with 18%nat.
    rewrite <- (length_bytes_of_BulletState host b).
    rewrite recv_now_at_once.
    2:{ intros E. apply (f_equal length) in E.
        rewrite length_bytes_of_BulletState in E. discriminate. }
    rewrite length_bytes_of_BulletState. change (Z.of_nat 18 =? sizeof_BulletState) with true.
    cbv iota. rewrite IH.
    rewrite BulletState_read_back_exact by exact Hb.
    now rewrite <- app_assoc.
Qed.

(** ** What the two updates leave on the bridge *)

Lemma update_players_result (st : SharedState) (src : list RemotePlayer) (server_tick : Z) :
  length (ss_players st) = MAX_PLAYERS ->
  (length src <= MAX_PLAYERS)%nat ->
  exists st',
    shared_state_update_players st (Some src) (Z.of_nat (length src)) server_tick = Some st' /\
    length (ss_players st') = MAX_PLAYERS /\
    (forall i, ss_players st' !! i =
               if decide (i < length src)%nat then rp_set_active 1 <$> src !! i
               else rp_set_active 0 <$> ss_players st !! i) /\
    ss_player_count st' = Z.of_nat (length src) /\
    ss_server_tick st' = server_tick /\
    ss_bullets st' = ss_bullets st /\ ss_bullet_count st' = ss_bullet_count st /\
    ss_my_id st' = ss_my_id st /\ ss_status st' = ss_status st /\
    ss_status_message st' = ss_status_message st /\
    ss_input_to_send st' = ss_input_to_send st /\
    ss_weapon_type st' = ss_weapon_type st /\
    ss_input_sequence st' = ss_input_sequence st /\
    ss_packets_sent st' = ss_packets_sent st /\
    ss_packets_received st' = ss_packets_received st + 1.
Proof.
  intros Hlen Hsrc. unfold shared_state_update_players.
  destruct (clear_players_loop MAX_PLAYERS 0 (ss_players st)) as (cl & Hcl & Hcl_len & Hcl_get).
  { rewrite Hlen. lia. }
  rewrite Hcl.
  destruct (Z.gtb_spec (Z.of_nat (length src)) (Z.of_nat MAX_PLAYERS)) as [Hgt|_]; [lia|].
  rewrite Nat2Z.id.
  destruct (copy_players_loop src (length src) 0 cl) as (ps & Hps & Hps_len & Hps_get).
  { rewrite Hcl_len, Hlen. lia. }
  { lia. }
  rewrite Hps. eexists. split; [reflexivity|].
  cbn [ss_players ss_player_count ss_server_tick ss_bullets ss_bullet_count ss_my_id
       ss_status ss_status_message ss_input_to_send ss_weapon_type ss_input_sequence
       ss_packets_sent ss_packets_received].
  split; [now rewrite Hps_len, Hcl_len|].
  split.
  { intros i. rewrite Hps_get.
    destruct (decide (0 <= i < 0 + length src)%nat) as [Hin|Hout];
      destruct (decide (i < length src)%nat) as [Hlt|Hge]; try lia; [reflexivity|].
    rewrite Hcl_get. destruct (decide _) as [|Hbig]; [reflexivity|].
    assert (Hi : (MAX_PLAYERS <= i)%nat) by lia.
    rewrite (lookup_ge_None_2 (ss_players st) i) by (rewrite Hlen; exact Hi).
    reflexivity. }
  repeat split; reflexivity.
Qed.

Lemma update_bullets_result (st : SharedState) (src : list RemoteBullet) :
  length (ss_bullets st) = MAX_REMOTE_BULLETS ->
  (length src <= MAX_REMOTE_BULLETS)%nat ->
  exists st',
    shared_state_update_bullets st (Some src) (Z.of_nat (length src)) = Some st' /\
    length (ss_bullets st') = MAX_REMOTE_BULLETS /\
    (forall i, ss_bullets st' !! i =
               if decide (i < length src)%nat then rb_set_active 1 <$> src !! i
               else rb_set_active 0 <$> ss_bullets st !! i) /\
    st' = with_remote_bullets (ss_bullets st') (Z.of_nat (length src)) st.
Proof.
  intros Hlen Hsrc. unfold shared_state_update_bullets.
  destruct (clear_bullets_loop MAX_REMOTE_BULLETS 0 (ss_bullets st))
    as (cl & Hcl & Hcl_len & Hcl_get).
  { rewrite Hlen. lia. }
  rewrite Hcl, bind_Some.
  destruct (Z.gtb_spec (Z.of_nat (length src)) (Z.of_nat MAX_REMOTE_BULLETS)) as [Hgt|_];
    [lia|].
  rewrite Nat2Z.id.
  destruct (copy_bullets_loop src (length src) 0 cl) as (bs & Hbs & Hbs_len & Hbs_get).
  { rewrite Hcl_len, Hlen. lia. }
  { lia. }
  rewrite Hbs, bind_Some. eexists. split; [reflexivity|].
  cbn [ss_bullets with_remote_bullets].
  split; [now rewrite Hbs_len, Hcl_len|].
  split; [|reflexivity].
  intros i. rewrite Hbs_get.
  destruct (decide (0 <= i < 0 + length src)%nat) as [Hin|Hout];
    destruct (decide (i < length src)%nat) as [Hlt|Hge]; try lia; [reflexivity|].
  rewrite Hcl_get. destruct (decide _) as [|Hbig]; [reflexivity|].
  assert (Hi : (MAX_REMOTE_BULLETS <= i)%nat) by lia.
  rewrite (lookup_ge_None_2 (ss_bullets st) i) by (rewrite Hlen; exact Hi).
  reflexivity.
Qed.

(** ** A whole snapshot *)

Lemma rp_set_active_of_state ps :
  rp_set_active 1 (RemotePlayer_of_state ps) = RemotePlayer_of_state ps.
Proof. reflexivity. Qed.

Lemma rb_set_active_of_state bs :
  rb_set_active 1 (RemoteBullet_of_state bs) = RemoteBullet_of_state bs.
Proof. reflexivity. Qed.

Lemma receive_game_state_whole host shared g (ps : list PlayerState)
    (bs : list BulletState) (rest : list Z) :
  GameStateMsg_typed g ->
  Forall PlayerState_typed ps -> Forall BulletState_typed bs ->
  gs_player_count g = Z.of_nat (length ps) ->
  gs_bullet_count g = Z.of_nat (length bs) ->
  (length ps <= MAX_PLAYERS)%nat -> (length bs <= MAX_REMOTE_BULLETS)%nat ->
  shared_wf shared ->
  exists shared',
    receive_game_state host shared
      (at_once (bytes_of_GameStateMsg host g ++
                flat_map (bytes_of_PlayerState host) ps ++
                flat_map (bytes_of_BulletState host) bs ++ rest))
    = Some (shared', at_once rest, []) /\
    shared_wf shared' /\
    (forall i, ss_players shared' !! i =
               if decide (i < length ps)%nat then RemotePlayer_of_state <$> ps !! i
               else rp_set_active 0 <$> ss_players shared !! i) /\
    (forall i, ss_bullets shared' !! i =
               if decide (i < length bs)%nat then RemoteBullet_of_state <$> bs !! i
               else rb_set_active 0 <$> ss_bullets shared !! i) /\
    ss_player_count shared' = Z.of_nat (length ps) /\
    ss_bullet_count shared' = Z.of_nat (length bs) /\
    ss_server_tick shared' = gs_tick g /\
    ss_my_id shared' = ss_my_id shared /\
    ss_status shared' = ss_status shared /\
    ss_input_to_send shared' = ss_input_to_send shared /\
    ss_weapon_type shared' = ss_weapon_type shared /\
    ss_input_sequence shared' = ss_input_sequence shared /\
    ss_packets_sent shared' = ss_packets_sent shared /\
    ss_packets_received shared' = ss_packets_received shared + 1.
Proof.
  intros Hg Hps Hbs Hpc Hbc Hlp Hlb [Hwp Hwb].
  unfold receive_game_state.
  change (Z.to_nat sizeof_GameStateMsg) with 10%nat.
  rewrite <- (length_bytes_of_GameStateMsg host g).
  rewrite recv_now_at_once.
  2:{ intros E. apply (f_equal length) in E.
      rewrite length_bytes_of_GameStateMsg in E. discriminate. }
  rewrite length_bytes_of_GameStateMsg.
  change (Z.of_nat 10 =? sizeof_GameStateMsg) with true. cbn [negb].
  rewrite GameStateMsg_read_back_exact by exact Hg.
  rewrite Hpc, Hbc.
  destruct (Z.gtb_spec (Z.of_nat (length ps)) (Z.of_nat MAX_PLAYERS)) as [|_]; [lia|].
  destruct (Z.gtb_spec (Z.of_nat (length bs)) (Z.of_nat MAX_REMOTE_BULLETS)) as [|_]; [lia|].
  rewrite !Nat2Z.id.
  rewrite (receive_players_whole host ps _ Hps []).
  rewrite (receive_bullets_whole host bs _ Hbs []).
  cbn [app].
  destruct (update_players_result shared (map RemotePlayer_of_state ps) (gs_tick g) Hwp)
    as (st1 & Hrun1 & Hl1 & Hget1 & Hc1 & Ht1 & Hb1 & Hbc1 & Hid1 & Hs1 & Hm1 & Hi1 & Hw1
        & Hq1 & Hsent1 & Hrecv1).
  { now rewrite length_map. }
  rewrite length_map in Hrun1, Hget1, Hc1. rewrite Hrun1, bind_Some.
  destruct (update_bullets_result st1 (map RemoteBullet_of_state bs))
    as (st2 & Hrun2 & Hl2 & Hget2 & Hst2).
  { rewrite Hb1. exact Hwb. }
  { now rewrite length_map. }
  rewrite length_map in Hrun2, Hget2, Hst2. rewrite Hrun2, bind_Some.
  exists st2. split; [reflexivity|].
  rewrite Hst2.
  cbn [ss_players ss_bullets ss_player_count ss_bullet_count ss_server_tick ss_my_id
       ss_status ss_input_to_send ss_weapon_type ss_input_sequence ss_packets_sent
       ss_packets_received with_remote_bullets].
  split; [split; [exact Hl1 | exact Hl2]|].
  split.
  { intros i. rewrite Hget1. destruct (decide _); [|reflexivity].
    rewrite lookup_map. destruct (ps !! i); reflexivity. }
  split.
  { intros i. rewrite Hget2. destruct (decide _).
    - rewrite lookup_map. destruct (bs !! i); reflexivity.
    - now rewrite Hb1. }
  repeat split; assumption.
Qed.

Lemma flat_map_map {A B C} (f : B -> list C) (g : A -> B) (l : list A) :
  flat_map (fun x => f (g x)) l = flat_map f (map g l).
Proof. induction l as [|x l IH]; cbn; [reflexivity | now rewrite IH]. Qed.

Lemma first_free_is (f : nat -> bool) :
  forall n lo i,
    (lo <= i < lo + n)%nat -> f i = true ->
    (forall j, (lo <= j < i)%nat -> f j = false) ->
    first_free f lo n = Some i.
Proof.
  induction n as [|n IH]; intros lo i Hi Hf Hlow; [lia|].
  cbn [first_free]. destruct (decide (i = lo)) as [->|Hne].
  - now rewrite Hf.
  - rewrite (Hlow lo) by lia. apply IH; [lia | exact Hf |]. intros j Hj. apply Hlow. lia.
Qed.

Lemma occupied_player_slots_spec s i :
  In i (occupied_player_slots s) <->
  (i < MAX_PLAYERS)%nat /\ p_occupied (player_at s i) = true.
Proof.
  unfold occupied_player_slots. rewrite filter_In, in_seq. unfold MAX_PLAYERS.
  split; intros [H1 H2]; (split; [lia | exact H2]).
Qed.

Lemma synced_bullet_slots_occupied s i :
  In i (synced_bullet_slots s) -> b_occupied (bullet_at s i) = true.
Proof.
  unfold synced_bullet_slots, occupied_bullet_slots. intros H.
  apply list_elem_of_In, elem_of_take in H. destruct H as (n & H & _).
  apply list_elem_of_lookup_2, list_elem_of_In, filter_In in H. tauto.
Qed.

Lemma occupied_player_slots_NoDup s : NoDup (occupied_player_slots s).
Proof. apply NoDup_ListNoDup, List.NoDup_filter, List.seq_NoDup. Qed.

Lemma player_state_of_typed i sp :
  (i < MAX_PLAYERS)%nat -> ServerPlayer_typed sp ->
  PlayerState_typed (player_state_of i sp) /\
  RemotePlayer_of_state (player_state_of i sp) = seen_player i sp.
Proof.
  intros Hi (Hx & Hy & Hvx & Hvy & Hw). unfold MAX_PLAYERS in Hi.
  assert (Hid : u8 (Z.of_nat i) = Z.of_nat i) by (unfold u8; apply Z.mod_small; lia).
  split.
  - unfold PlayerState_typed, player_state_of.
    cbn [ps_player_id ps_x ps_y ps_vx ps_vy ps_health ps_weapon ps_flags].
    rewrite Hid. unfold is_u8, is_i16, i16.
    split; [lia|]. split; [exact Hx|]. split; [exact Hy|]. split; [exact Hvx|].
    split; [exact Hvy|]. split; [Z.div_mod_to_equations; lia|]. split; [exact Hw|].
    destruct (truthy (Z.land (p_input_flags sp) INPUT_FIRE)); lia.
  - unfold RemotePlayer_of_state, player_state_of, seen_player.
    cbn [ps_player_id ps_x ps_y ps_vx ps_vy ps_health ps_weapon ps_flags].
    now rewrite Hid.
Qed.

Lemma bullet_state_of_typed sb :
  ServerBullet_typed sb ->
  BulletState_typed (bullet_state_of sb) /\
  RemoteBullet_of_state (bullet_state_of sb) = seen_bullet sb.
Proof. intros H. split; [exact H | reflexivity]. Qed.

Lemma snapshot_message_parts bo s q :
  snapshot_message bo s q =
  bytes_of_MessageHeader bo
    {| h_type := MSG_GAME_STATE;
       h_length := sizeof_GameStateMsg +
                   Z.of_nat (length (occupied_player_slots s)) * sizeof_PlayerState +
                   Z.of_nat (length (synced_bullet_slots s)) * sizeof_BulletState |} ++
  bytes_of_GameStateMsg bo
    {| gs_tick := tick s; gs_your_sequence := q;
       gs_player_count := Z.of_nat (length (occupied_player_slots s));
       gs_bullet_count := Z.of_nat (length (synced_bullet_slots s)) |} ++
  flat_map (bytes_of_PlayerState bo)
           (map (fun i => player_state_of i (player_at s i)) (occupied_player_slots s)) ++
  flat_map (bytes_of_BulletState bo)
           (map (fun i => bullet_state_of (bullet_at s i)) (synced_bullet_slots s)).
Proof.
  unfold snapshot_message. cbv zeta.
  rewrite (flat_map_map (bytes_of_PlayerState bo) (fun i => player_state_of i (player_at s i))).
  rewrite (flat_map_map (bytes_of_BulletState bo) (fun i => bullet_state_of (bullet_at s i))).
  reflexivity.
Qed.

Lemma seen_players_typed s :
  server_typed s ->
  Forall PlayerState_typed
         (map (fun i => player_state_of i (player_at s i)) (occupied_player_slots s)) /\
  map RemotePlayer_of_state
      (map (fun i => player_state_of i (player_at s i)) (occupied_player_slots s)) =
  seen_players s.
Proof.
  intros (_ & Hp & _). unfold seen_players.
  assert (Hall : forall i, In i (occupied_player_slots s) ->
             PlayerState_typed (player_state_of i (player_at s i)) /\
             RemotePlayer_of_state (player_state_of i (player_at s i)) =
             seen_player i (player_at s i)).
  { intros i Hi. apply occupied_player_slots_spec in Hi. destruct Hi as [Hlt Hocc].
    apply player_state_of_typed; [exact Hlt | apply (Hp i Hocc)]. }
  induction (occupied_player_slots s) as [|i l IH]; [split; [constructor | reflexivity]|].
  destruct IH as [IH1 IH2]; [intros j Hj; apply Hall; now right|].
  destruct (Hall i ltac:(now left)) as [H1 H2].
  split; [constructor; assumption|]. cbn [map]. now rewrite H2, IH2.
Qed.

Lemma seen_bullets_typed s :
  server_typed s ->
  Forall BulletState_typed
         (map (fun i => bullet_state_of (bullet_at s i)) (synced_bullet_slots s)) /\
  map RemoteBullet_of_state
      (map (fun i => bullet_state_of (bullet_at s i)) (synced_bullet_slots s)) =
  seen_bullets s.
Proof.
  intros (_ & _ & Hb). unfold seen_bullets.
  assert (Hall : forall i, In i (synced_bullet_slots s) ->
             BulletState_typed (bullet_state_of (bullet_at s i))).
  { intros i Hi. apply bullet_state_of_typed, Hb, synced_bullet_slots_occupied, Hi. }
  induction (synced_bullet_slots s) as [|i l IH]; [split; [constructor | reflexivity]|].
  destruct IH as [IH1 IH2]; [intros j Hj; apply Hall; now right|].
  split; [constructor; [apply Hall; now left | assumption]|]. cbn [map]. now rewrite IH2.
Qed.

Lemma network_turn_whole_snapshot host client shared s q rest :
  server_typed s -> is_u32 q -> shared_wf shared ->
  exists shared',
    network_turn host client shared (at_once (snapshot_message host s q ++ rest)) =
      Some (client, shared', at_once rest,
            snd (thread_send_input host (nc_socket client) (nc_player_id client) shared)) /\
    shared_wf shared' /\
    (forall i, ss_players shared' !! i =
               if decide (i < length (seen_players s))%nat then seen_players s !! i
               else rp_set_active 0 <$> ss_players shared !! i) /\
    (forall i, ss_bullets shared' !! i =
               if decide (i < length (seen_bullets s))%nat then seen_bullets s !! i
               else rb_set_active 0 <$> ss_bullets shared !! i) /\
    ss_player_count shared' = Z.of_nat (length (seen_players s)) /\
    ss_bullet_count shared' = Z.of_nat (length (seen_bullets s)) /\
    ss_server_tick shared' = tick s /\
    ss_my_id shared' = ss_my_id shared /\
    ss_status shared' = ss_status shared /\
    ss_packets_received shared' = ss_packets_received shared + 1.
Proof.
  intros Htyped Hq Hwf.
  destruct (seen_players_typed s Htyped) as [Hps Hseen_p].
  destruct (seen_bullets_typed s Htyped) as [Hbs Hseen_b].
  pose proof (length_occupied_player_slots s) as Hlp.
  pose proof (length_synced_bullet_slots s) as Hlb.
  unfold network_turn. rewrite snapshot_message_parts.
  rewrite <- Hseen_p, <- Hseen_b.
  set (ps := map (fun i => player_state_of i (player_at s i)) (occupied_player_slots s)) in *.
  set (bs := map (fun i => bullet_state_of (bullet_at s i)) (synced_bullet_slots s)) in *.
  assert (Hlps : length (occupied_player_slots s) = length ps)
    by (symmetry; apply length_map).
  assert (Hlbs : length (synced_bullet_slots s) = length bs)
    by (symmetry; apply length_map).
  clearbody ps bs. rewrite Hlps, Hlbs in *.
  clear Hlps Hlbs Hseen_p Hseen_b.
  set (g := {| gs_tick := tick s; gs_your_sequence := q;
               gs_player_count := Z.of_nat (length ps);
               gs_bullet_count := Z.of_nat (length bs) |}).
  assert (Hg : GameStateMsg_typed g).
  { destruct Htyped as (Ht & _). unfold GameStateMsg_typed, g, is_u8.
    cbn [gs_tick gs_your_sequence gs_player_count gs_bullet_count].
    split; [exact Ht|]. split; [exact Hq|]. split; lia. }
  destruct (receive_game_state_whole host shared g ps bs rest Hg Hps Hbs)
    as (sh1 & Hrun & Hwf1 & Hp1 & Hb1 & Hpc1 & Hbc1 & Ht1 & Hid1 & Hs1 & Hi1 & Hw1 & Hq1
        & Hsent1 & Hrecv1).
  { reflexivity. }
  { reflexivity. }
  { unfold MAX_PLAYERS. lia. }
  { unfold MAX_REMOTE_BULLETS. lia. }
  { exact Hwf. }
  set (hdr := {| h_type := MSG_GAME_STATE; h_length := _ |}).
  assert (Hhdr : MessageHeader_of_bytes host (bytes_of_MessageHeader host hdr) = hdr).
  { apply header_roundtrip; [cbv; split; [discriminate | reflexivity]|].
    unfold sizeof_GameStateMsg, sizeof_PlayerState, sizeof_BulletState. lia. }
  assert (Hty : h_type hdr = MSG_GAME_STATE) by reflexivity.
  clearbody hdr.
  change (Z.to_nat sizeof_MessageHeader) with 3%nat.
  rewrite <- (length_bytes_of_MessageHeader host hdr).
  rewrite <- !app_assoc.
  rewrite recv_now_at_once.
  2:{ intros E. apply (f_equal length) in E.
      rewrite length_bytes_of_MessageHeader in E. discriminate. }
  rewrite length_bytes_of_MessageHeader.
  change (Z.of_nat 3 =? sizeof_MessageHeader) with true. cbv iota.
  rewrite Hhdr, Hty, Z.eqb_refl.
  rewrite Hrun, bind_Some.
  unfold thread_send_input, shared_state_get_input.
  rewrite Hi1, Hw1, Hq1.
  eexists. split; [reflexivity|].
  cbn [ss_players ss_bullets ss_player_count ss_bullet_count ss_server_tick ss_my_id
       ss_status ss_packets_received].
  rewrite !length_map.
  split; [exact Hwf1|].
  split; [intros i; rewrite Hp1, lookup_map; reflexivity|].
  split; [intros i; rewrite Hb1, lookup_map; reflexivity|].
  repeat split; assumption.
Qed.

Lemma seen_players_lookup s n :
  seen_players s !! n =
  (fun i => seen_player i (player_at s i)) <$> occupied_player_slots s !! n.
Proof. unfold seen_players. apply lookup_map. Qed.

Lemma my_position_after_snapshot shared' s k out :
  (k < MAX_PLAYERS)%nat ->
  p_occupied (player_at s k) = true ->
  ss_my_id shared' = Z.of_nat k ->
  (forall i, (i < length (seen_players s))%nat ->
             ss_players shared' !! i = seen_players s !! i) ->
  shared_state_get_my_position shared' out =
  (1, (p_x (player_at s k), p_y (player_at s k),
       p_vx (player_at s k), p_vy (player_at s k))).
Proof.
  intros Hk Hocc Hid Hget.
  assert (Hin : In k (occupied_player_slots s))
    by (apply occupied_player_slots_spec; now split).
  apply list_elem_of_In, list_elem_of_lookup_1 in Hin. destruct Hin as [n Hn].
  pose proof (length_occupied_player_slots s) as Hlen.
  assert (Hnlt : (n < length (occupied_player_slots s))%nat)
    by (apply lookup_lt_Some in Hn; exact Hn).
  assert (Hls : length (seen_players s) = length (occupied_player_slots s))
    by (unfold seen_players; apply length_map).
  assert (Hat : forall j i, occupied_player_slots s !! j = Some i ->
                  remote_player_at shared' j = seen_player i (player_at s i)).
  { intros j i Hj. unfold remote_player_at.
    rewrite Hget by (rewrite Hls; apply lookup_lt_Some in Hj; exact Hj).
    rewrite seen_players_lookup, Hj. reflexivity. }
  unfold shared_state_get_my_position.
  rewrite (first_free_is _ MAX_PLAYERS 0 n).
  - rewrite (Hat n k Hn). reflexivity.
  - unfold MAX_PLAYERS. lia.
  - cbv beta. rewrite (Hat n k Hn), Hid. cbn [rp_active rp_id seen_player].
    now rewrite Z.eqb_refl.
  - intros j Hj. cbv beta.
    destruct (lookup_lt_is_Some_2 (occupied_player_slots s) j ltac:(lia)) as [i Hi].
    rewrite (Hat j i Hi), Hid. cbn [rp_active rp_id seen_player].
    assert (Hne : i <> k).
    { intros ->. pose proof (NoDup_lookup _ _ _ _ (occupied_player_slots_NoDup s) Hi Hn). lia. }
    destruct (Z.eqb_spec (Z.of_nat i) (Z.of_nat k)); [lia | reflexivity].
Qed.

(** X15. A snapshot received whole is the server's state on the client's
    bridge: the message [server_send_state] sends to a connected client,
    read by one turn of that client's network thread on a host of the
    same byte order, leaves the server's tick, one active entry per
    connected player with the server's position, velocity, health and
    weapon, in slot order, every further entry inactive, the projectiles
    of the snapshot in the same way, and the counts of both; and
    [shared_state_get_my_position] then returns the position and velocity
    the server holds for that client. *)
Theorem snapshot_reaches_the_bridge
    (host : byte_order) (s : GameServer) (k : nat) (fresh : nat -> Z)
    (send_result : Z -> list Z -> Z) (client : NetworkClient) (shared : SharedState)
    (out : f32 * f32 * f32 * f32) :
  server_wf s -> players_counted s -> server_typed s ->
  p_occupied (player_at s k) = true ->
  shared_wf shared -> ss_my_id shared = Z.of_nat k ->
  exists s' evs shared' evs',
    server_send_state host s (Some fresh) send_result = Some (s', evs) /\
    In (p_socket (player_at s k), recipient_message host s k) (sends evs) /\
    network_turn host client shared (at_once (recipient_message host s k)) =
      Some (client, shared', [], evs') /\
    ss_server_tick shared' = tick s /\
    ss_player_count shared' = player_count s /\
    take (Z.to_nat (player_count s)) (ss_players shared') = seen_players s /\
    (forall i p, (Z.to_nat (player_count s) <= i)%nat ->
                 ss_players shared' !! i = Some p -> rp_active p = 0) /\
    ss_bullet_count shared' = Z.of_nat (length (seen_bullets s)) /\
    take (length (seen_bullets s)) (ss_bullets shared') = seen_bullets s /\
    (forall i b, (length (seen_bullets s) <= i)%nat ->
                 ss_bullets shared' !! i = Some b -> rb_active b = 0) /\
    shared_state_get_my_position shared' out =
      (1, (p_x (player_at s k), p_y (player_at s k),
           p_vx (player_at s k), p_vy (player_at s k))).
Proof.
  intros Hwf Hpc Htyped Hocc Hshared Hid.
  destruct (server_send_state_closed host s fresh send_result Hwf Hpc)
    as (s' & Hsend & _).
  assert (Hk : (k < MAX_PLAYERS)%nat).
  { destruct Hwf as [Hlp _]. rewrite <- Hlp.
    apply (lookup_lt_Some _ _ _ (player_at_occupied s k Hocc)). }
  assert (Hq : is_u32 (p_last_sequence (player_at s k)))
    by (destruct Htyped as (_ & Hp & _); apply (Hp k Hocc)).
  destruct (network_turn_whole_snapshot host client shared s
              (p_last_sequence (player_at s k)) [] Htyped Hq Hshared)
    as (shared' & Hturn & Hwf' & Hps & Hbs & Hcp & Hcb & Htick & Hid' & _).
  rewrite app_nil_r in Hturn. change (at_once []) with (@nil arrival) in Hturn.
  assert (Hls : Z.of_nat (length (seen_players s)) = player_count s).
  { unfold seen_players. rewrite length_map. symmetry.
    now apply player_count_occupied_slots. }
  exists s', (broadcast_events host send_result s), shared'. eexists.
  split; [exact Hsend|].
  split.
  { rewrite sends_broadcast_events.
    apply (in_map (fun i => (p_socket (player_at s i), recipient_message host s i))).
    apply occupied_player_slots_spec. now split. }
  split; [exact Hturn|]. split; [exact Htick|]. split; [congruence|].
  rewrite <- Hls, Nat2Z.id.
  split.
  { apply list_eq. intros i. rewrite lookup_take.
    destruct (decide (i < length (seen_players s))%nat) as [Hlt|Hge].
    - rewrite Hps. destruct (decide _); [reflexivity | lia].
    - symmetry. apply lookup_ge_None_2. lia. }
  split.
  { intros i p Hi Hp. rewrite Hps in Hp. destruct (decide _) as [|_]; [lia|].
    destruct (ss_players shared !! i); [|discriminate]. now injection Hp as <-. }
  split; [exact Hcb|].
  split.
  { apply list_eq. intros i. rewrite lookup_take.
    destruct (decide (i < length (seen_bullets s))%nat) as [Hlt|Hge].
    - rewrite Hbs. destruct (decide _); [reflexivity | lia].
    - symmetry. apply lookup_ge_None_2. lia. }
  split.
  { intros i b Hi Hb. rewrite Hbs in Hb. destruct (decide _) as [|_]; [lia|].
    destruct (ss_bullets shared !! i); [|discriminate]. now injection Hb as <-. }
  apply my_position_after_snapshot; [exact Hk | exact Hocc | congruence |].
  intros i Hi. rewrite Hps. destruct (decide _); [reflexivity | lia].
Qed.

Lemma server_typed_by_tables s :
  is_u32 (tick s) ->
  Forall (fun p => p_occupied p = true ->
                   ServerPlayer_typed p /\ is_u32 (p_last_sequence p)) (players s) ->
  Forall (fun b => b_occupied b = true -> ServerBullet_typed b) (bullets s) ->
  server_typed s.
Proof.
  intros Ht Hp Hb. split; [exact Ht|]. split.
  - intros i Hocc. pose proof (player_at_occupied s i Hocc) as Hi.
    rewrite Forall_lookup in Hp. exact (Hp i _ Hi Hocc).
  - intros i Hocc. pose proof (bullet_at_occupied s i Hocc) as Hi.
    rewrite Forall_lookup in Hb. exact (Hb i _ Hi Hocc).
Qed.

Lemma skirmish_typed : server_typed skirmish.
Proof.
  apply server_typed_by_tables.
  - cbv. split; [discriminate | reflexivity].
  - repeat constructor; try discriminate; try reflexivity.
  - unfold skirmish. cbn [bullets].
    rewrite !Forall_app. split; [|split].
    + apply Forall_replicate. discriminate.
    + constructor; [|constructor]. intros _.
      repeat split; try discriminate; reflexivity.
    + apply Forall_replicate. discriminate.
Qed.

Lemma snapshot_reaches_the_bridge_example :
  exists s' evs shared' evs',
    server_send_state LittleEndian skirmish (Some (fun _ => 0))
                      (fun _ msg => Z.of_nat (length msg)) = Some (s', evs) /\
    In (p_socket (player_at skirmish 0), recipient_message LittleEndian skirmish 0)
       (sends evs) /\
    network_turn LittleEndian sample_client sample_shared
                 (at_once (recipient_message LittleEndian skirmish 0)) =
      Some (sample_client, shared', [], evs') /\
    ss_server_tick shared' = tick skirmish /\
    ss_player_count shared' = player_count skirmish /\
    take (Z.to_nat (player_count skirmish)) (ss_players shared') = seen_players skirmish /\
    (forall i p, (Z.to_nat (player_count skirmish) <= i)%nat ->
                 ss_players shared' !! i = Some p -> rp_active p = 0) /\
    ss_bullet_count shared' = Z.of_nat (length (seen_bullets skirmish)) /\
    take (length (seen_bullets skirmish)) (ss_bullets shared') = seen_bullets skirmish /\
    (forall i b, (length (seen_bullets skirmish) <= i)%nat ->
                 ss_bullets shared' !! i = Some b -> rb_active b = 0) /\
    shared_state_get_my_position shared' (f32_zero, f32_zero, f32_zero, f32_zero) =
      (1, (p_x (player_at skirmish 0), p_y (player_at skirmish 0),
           p_vx (player_at skirmish 0), p_vy (player_at skirmish 0))).
Proof.
  apply (snapshot_reaches_the_bridge LittleEndian skirmish 0 (fun _ => 0)
           (fun _ msg => Z.of_nat (length msg)) sample_client sample_shared
           (f32_zero, f32_zero, f32_zero, f32_zero)).
  - split; reflexivity.
  - reflexivity.
  - exact skirmish_typed.
  - reflexivity.
  - split; reflexivity.
  - reflexivity.
Defined.

(** ** Whatever arrives *)









Lemma sends_printf fmt args rest : sends (EvPrintf fmt args :: rest) = sends rest.
Proof. reflexivity. Qed.



(** ** The handshake, end to end *)

Lemma header_of_filled bo stale got :
  length got = 3%nat ->
  MessageHeader_of_bytes bo (filled stale got) = MessageHeader_of_bytes bo got.
Proof.
  intros Hlen. destruct got as [|a [|b [|c [|d got]]]]; try discriminate. reflexivity.
Qed.

Lemma ack_of_filled bo stale got :
  length got = 3%nat ->
  ConnectAckMsg_of_bytes bo (filled stale got) = ConnectAckMsg_of_bytes bo got.
Proof.
  intros Hlen. destruct got as [|a [|b [|c [|d got]]]]; try discriminate. reflexivity.
Qed.

Lemma load_one_byte bo b : load_int bo [b] = b.
Proof. destruct bo; cbn; lia. Qed.

Lemma connect_request_bytes bo socket :
  exists l1 l2,
    sent_to socket (send_connect_request bo socket) =
      [MSG_CONNECT; l1; l2] ++ [PROTOCOL_VERSION] ++
      ([80; 108; 97; 121; 101; 114] ++ replicate 10 0).
Proof.
  unfold send_connect_request. cbn [sent_to flat_map]. rewrite Z.eqb_refl.
  destruct bo; do 2 eexists; reflexivity.
Qed.

Lemma accept_reads_whole host nonblocking socket addr pending l1 l2 name :
  flowing pending -> length name = 16%nat ->
  bytes_of pending = [MSG_CONNECT; l1; l2] ++ [PROTOCOL_VERSION] ++ name ->
  exists inc rest,
    accept_reads host nonblocking socket addr pending = Some (inc, rest) /\
    bytes_of rest = [] /\
    inc_socket inc = socket /\ inc_addr inc = addr /\
    fst (inc_header inc) = sizeof_MessageHeader /\
    h_type (snd (inc_header inc)) = MSG_CONNECT /\
    fst (inc_connect inc) = sizeof_ConnectMsg /\
    cm_version (snd (inc_connect inc)) = PROTOCOL_VERSION.
Proof.
  intros Hfl Hname Hbytes. unfold accept_reads.
  destruct (net_recv_all_whole nonblocking pending sizeof_MessageHeader Hfl)
    as (pending1 & Hrun1 & Hrest1 & Hfl1).
  { rewrite Hbytes. cbn [app length]. rewrite Hname. cbv. split; discriminate. }
  rewrite Hrun1, bind_Some. rewrite Hbytes in Hrest1 |- *.
  change (take (Z.to_nat sizeof_MessageHeader)
               ([MSG_CONNECT; l1; l2] ++ [PROTOCOL_VERSION] ++ name))
    with [MSG_CONNECT; l1; l2].
  change (drop (Z.to_nat sizeof_MessageHeader)
               ([MSG_CONNECT; l1; l2] ++ [PROTOCOL_VERSION] ++ name))
    with (PROTOCOL_VERSION :: name) in Hrest1.
  assert (Hty : h_type (MessageHeader_of_bytes host [MSG_CONNECT; l1; l2]) = MSG_CONNECT)
    by apply load_one_byte.
  rewrite Z.eqb_refl, Hty, Z.eqb_refl. cbn [andb].
  destruct (net_recv_all_whole nonblocking pending1 sizeof_ConnectMsg Hfl1)
    as (pending2 & Hrun2 & Hrest2 & Hfl2).
  { rewrite Hrest1. cbn [length]. rewrite Hname. cbv. split; discriminate. }
  rewrite Hrun2, bind_Some. rewrite Hrest1 in Hrest2 |- *.
  do 2 eexists. split; [reflexivity|]. cbn [inc_socket inc_addr inc_header inc_connect fst snd].
  split.
  { rewrite Hrest2. change (Z.to_nat sizeof_ConnectMsg) with (S 16).
    cbn [drop]. apply drop_ge. lia. }
  repeat split; try reflexivity; exact Hty.
Qed.

Lemma accept_outcome host server inc :
  inc_socket inc <> INVALID_SOCKET ->
  fst (inc_header inc) = sizeof_MessageHeader ->
  h_type (snd (inc_header inc)) = MSG_CONNECT ->
  fst (inc_connect inc) = sizeof_ConnectMsg ->
  cm_version (snd (inc_connect inc)) = PROTOCOL_VERSION ->
  length (players server) = MAX_PLAYERS ->
  let server' := fst (server_accept_new_client host server inc) in
  let evs := snd (server_accept_new_client host server inc) in
  exists l1 l2,
    (server_find_free_slot server = -1 /\ server' = server /\
     sent_to (inc_socket inc) evs = [MSG_CONNECT_ACK; l1; l2] ++ [0; 0; 0] /\
     last evs = Some (EvClose (inc_socket inc)))
    \/
    (exists slot, (slot < MAX_PLAYERS)%nat /\
       server_find_free_slot server = Z.of_nat slot /\
       player_at server' slot = joined_player slot inc /\
       sent_to (inc_socket inc) evs = [MSG_CONNECT_ACK; l1; l2] ++ [1; Z.of_nat slot; 0] /\
       ~ In (EvClose (inc_socket inc)) evs).
Proof.
  intros Hsock Hn Hty Hm Hver Hlen. cbv zeta.
  unfold server_accept_new_client, joined_player.
  destruct (inc_header inc) as [n_header connect_header].
  destruct (inc_connect inc) as [n_connect connect_msg].
  cbn [fst snd] in *. subst n_header n_connect.
  rewrite (proj2 (Z.eqb_neq _ _) Hsock).
  rewrite Z.eqb_refl, Hty, Z.eqb_refl. cbn [negb].
  rewrite Z.eqb_refl, Hver, Z.eqb_refl. cbn [negb].
  exists (nth 1 (bytes_of_MessageHeader host
                   {| h_type := MSG_CONNECT_ACK; h_length := sizeof_ConnectAckMsg |}) 0),
         (nth 2 (bytes_of_MessageHeader host
                   {| h_type := MSG_CONNECT_ACK; h_length := sizeof_ConnectAckMsg |}) 0).
  unfold server_find_free_slot.
  destruct (first_free _ 0 MAX_PLAYERS) as [slot|] eqn:Hfree.
  - right. exists slot. apply first_free_Some in Hfree. destruct Hfree as (Hslot & _ & _).
    destruct (Z.ltb_spec (Z.of_nat slot) 0) as [|_]; [lia|].
    rewrite Nat2Z.id. cbn [fst snd].
    split; [lia|]. split; [reflexivity|].
    split.
    { unfold player_at, set_player. cbn [players with_players with_player_count].
      rewrite list_lookup_insert_eq by lia. reflexivity. }
    split.
    + cbn [sent_to flat_map app send_connect_ack]. rewrite Z.eqb_refl.
      rewrite app_nil_r. unfold bytes_of_ConnectAckMsg.
      cbn [ack_success ack_player_id ack_reason].
      unfold MAX_PLAYERS in Hslot.
      destruct slot as [|[|[|[|slot]]]]; try lia; destruct host; reflexivity.
    + cbn [In app send_connect_ack]. intros [H|[H|[H|[H|[]]]]]; discriminate.
  - left. change (-1 <? 0) with true. cbv iota. cbn [fst snd].
    split; [reflexivity|]. split; [reflexivity|]. split; [|reflexivity].
    cbn [sent_to flat_map app send_connect_ack]. rewrite Z.eqb_refl.
    rewrite app_nil_r. destruct host; reflexivity.
Qed.

Lemma network_connect_reads_ack host client shared socket stale_header stale_ack
    pending l1 l2 success id reason later :
  0 <= socket -> flowing pending ->
  bytes_of pending = [MSG_CONNECT_ACK; l1; l2] ++ [success; id; reason] ++ later ->
  exists pending' log,
    bytes_of pending' = later /\
    network_connect host client shared socket sizeof_MessageHeader sizeof_ConnectMsg
                    stale_header stale_ack pending
    = Some (if truthy success
            then ({| nc_running := nc_running client; nc_socket := socket;
                     nc_host := nc_host client; nc_port := nc_port client;
                     nc_player_id := id |},
                  shared_state_set_status
                    (with_my_id id
                       (shared_state_set_status shared NET_CONNECTING
                                                (Some "Connecting..."%string)))
                    NET_CONNECTED (Some "Connected!"%string))
            else (stopped (-1) client,
                  shared_state_set_status
                    (shared_state_set_status shared NET_CONNECTING
                                             (Some "Connecting..."%string))
                    NET_ERROR
                    (Some (if reason =? 0 then "Server full"%string
                           else "Version mismatch"%string))),
            pending', log) /\
    (if truthy success then ~ In (EvClose socket) log
     else last log = Some (EvClose socket)).
Proof.
  intros Hsock Hfl Hbytes. unfold network_connect.
  destruct (Z.ltb_spec socket 0) as [|_]; [lia|].
  change ((sizeof_MessageHeader <? 0) || (sizeof_ConnectMsg <? 0)) with false. cbv iota.
  destruct (net_recv_all_whole false pending sizeof_MessageHeader Hfl)
    as (pending1 & Hrun1 & Hrest1 & Hfl1).
  { rewrite Hbytes. cbn [app length]. cbv [sizeof_MessageHeader]. lia. }
  rewrite Hrun1, bind_Some. rewrite Hbytes in Hrest1 |- *.
  change (take (Z.to_nat sizeof_MessageHeader)
               ([MSG_CONNECT_ACK; l1; l2] ++ [success; id; reason] ++ later))
    with [MSG_CONNECT_ACK; l1; l2].
  change (drop (Z.to_nat sizeof_MessageHeader)
               ([MSG_CONNECT_ACK; l1; l2] ++ [success; id; reason] ++ later))
    with ([success; id; reason] ++ later) in Hrest1.
  rewrite header_of_filled by reflexivity.
  assert (Hty : h_type (MessageHeader_of_bytes host [MSG_CONNECT_ACK; l1; l2])
                = MSG_CONNECT_ACK) by apply load_one_byte.
  rewrite Z.eqb_refl, Hty, Z.eqb_refl. cbn [negb].
  destruct (net_recv_all_whole false pending1 sizeof_ConnectAckMsg Hfl1)
    as (pending2 & Hrun2 & Hrest2 & Hfl2).
  { rewrite Hrest1. cbn [app length]. cbv [sizeof_ConnectAckMsg]. lia. }
  rewrite Hrun2, bind_Some. rewrite Hrest1 in Hrest2 |- *.
  change (take (Z.to_nat sizeof_ConnectAckMsg) ([success; id; reason] ++ later))
    with [success; id; reason].
  change (drop (Z.to_nat sizeof_ConnectAckMsg) ([success; id; reason] ++ later))
    with later in Hrest2.
  rewrite ack_of_filled by reflexivity.
  assert (Hack : ConnectAckMsg_of_bytes host [success; id; reason]
                 = {| ack_success := success; ack_player_id := id; ack_reason := reason |}).
  { unfold ConnectAckMsg_of_bytes. cbn [take drop]. now rewrite !load_one_byte. }
  rewrite Hack. cbn [ack_success ack_player_id ack_reason]. rewrite Z.eqb_refl. cbn [negb].
  destruct (truthy success); cbn [negb].
  - do 2 eexists. split; [exact Hrest2|]. split; [reflexivity|].
    rewrite !in_app_iff. cbn [In send_connect_request].
    intros H. repeat match type of H with _ \/ _ => destruct H as [H|H] end;
      try discriminate; exact H.
  - unfold hang_up. do 2 eexists. split; [exact Hrest2|]. split; [reflexivity|].
    cbn [nc_socket]. apply last_snoc.
Qed.

(** X17. A client whose connect request reaches the server whole, in whatever
    pieces, and that reads the server's answer, in whatever pieces, ends
    where the server put it, also when the two machines differ in byte
    order. With a free slot the client's [player_id] and the bridge's
    [my_id] are the lowest free slot, which the server has filled with
    the accepted socket, and the status is [NET_CONNECTED]; with all
    slots taken the server is unchanged and closes the accepted socket,
    and the client stops with [NET_ERROR] and the message
    ["Server full"], its socket closed. *)
Theorem handshake_agrees_on_the_slot
    (client_host server_host : byte_order) (nonblocking : bool)
    (client : NetworkClient) (shared : SharedState) (server : GameServer)
    (socket accepted addr : Z) (stale_header stale_ack : list Z)
    (to_server : list arrival) :
  0 <= socket -> accepted <> INVALID_SOCKET ->
  length (players server) = MAX_PLAYERS ->
  flowing to_server ->
  bytes_of to_server = sent_to socket (send_connect_request client_host socket) ->
  exists server' evs rest,
    server_accept_on server_host nonblocking server accepted addr to_server
      = Some (server', evs, rest) /\
    bytes_of rest = [] /\
    forall to_client later,
      flowing to_client ->
      bytes_of to_client = sent_to accepted evs ++ later ->
      exists client' shared' pending' log,
        network_connect client_host client shared socket
                        sizeof_MessageHeader sizeof_ConnectMsg
                        stale_header stale_ack to_client
          = Some (client', shared', pending', log) /\
        bytes_of pending' = later /\
        let slot := server_find_free_slot server in
        if slot <? 0 then
          server' = server /\ last evs = Some (EvClose accepted) /\
          nc_running client' = 0 /\ nc_socket client' = -1 /\
          ss_status shared' = NET_ERROR /\
          ss_status_message shared' = "Server full"%string /\
          last log = Some (EvClose socket)
        else
          p_occupied (player_at server' (Z.to_nat slot)) = true /\
          p_socket (player_at server' (Z.to_nat slot)) = accepted /\
          ~ In (EvClose accepted) evs /\
          nc_player_id client' = slot /\ ss_my_id shared' = slot /\
          ss_status shared' = NET_CONNECTED /\
          nc_socket client' = socket /\ nc_running client' = nc_running client /\
          ~ In (EvClose socket) log.
Proof.
  intros Hsock Hacc Hlen Hfl Hbytes.
  destruct (connect_request_bytes client_host socket) as (l1 & l2 & Hreq).
  rewrite Hreq in Hbytes.
  destruct (accept_reads_whole server_host nonblocking accepted addr to_server l1 l2
              ([80; 108; 97; 121; 101; 114] ++ replicate 10 0) Hfl eq_refl Hbytes)
    as (inc & rest & Hreads & Hrest & Hs & Ha & Hn & Hty & Hm & Hver).
  unfold server_accept_on. rewrite (proj2 (Z.eqb_neq _ _) Hacc), Hreads, bind_Some.
  pose proof (accept_outcome server_host server inc) as Hout.
  rewrite Hs in Hout. specialize (Hout Hacc Hn Hty Hm Hver Hlen). cbv zeta in Hout.
  destruct (server_accept_new_client server_host server inc) as [server' evs].
  cbn [fst snd] in Hout. destruct Hout as (a1 & a2 & Hout).
  exists server', evs, rest. split; [reflexivity|]. split; [exact Hrest|].
  intros to_client later Hflc Hbc. cbv zeta.
  destruct Hout as [(Hslot & Hsame & Hsent & Hclose)
                   |(slot & Hlt & Hslot & Hplayer & Hsent & Hopen)].
  - rewrite Hsent, <- app_assoc in Hbc.
    destruct (network_connect_reads_ack client_host client shared socket stale_header
                stale_ack to_client a1 a2 0 0 0 later Hsock Hflc Hbc)
      as (pending' & log & Hleft & Hrun & Hlog).
    change (truthy 0) with false in Hrun, Hlog. cbv iota in Hrun, Hlog.
    do 4 eexists. split; [exact Hrun|]. split; [exact Hleft|].
    rewrite Hslot. change (-1 <? 0) with true. cbv iota.
    repeat split; try assumption; reflexivity.
  - rewrite Hsent, <- app_assoc in Hbc.
    destruct (network_connect_reads_ack client_host client shared socket stale_header
                stale_ack to_client a1 a2 1 (Z.of_nat slot) 0 later Hsock Hflc Hbc)
      as (pending' & log & Hleft & Hrun & Hlog).
    change (truthy 1) with true in Hrun, Hlog. cbv iota in Hrun, Hlog.
    do 4 eexists. split; [exact Hrun|]. split; [exact Hleft|].
    rewrite Hslot. destruct (Z.ltb_spec (Z.of_nat slot) 0) as [|_]; [lia|].
    rewrite Nat2Z.id, Hplayer.
    repeat split; try assumption; reflexivity.
Qed.

Lemma handshake_agrees_on_the_slot_example :
  let to_server := [Arrived [1; 0]; Interrupt;
                    Arrived [17; 1; 80; 108; 97; 121; 101; 114];
                    Arrived (replicate 10 0)] in
  exists server' evs rest,
    server_accept_on LittleEndian true one_player_server 14 0 to_server
      = Some (server', evs, rest) /\
    bytes_of rest = [] /\
    forall to_client later,
      flowing to_client ->
      bytes_of to_client = sent_to 14 evs ++ later ->
      exists client' shared' pending' log,
        network_connect BigEndian sample_client (fst (shared_state_init true)) 10
                        sizeof_MessageHeader sizeof_ConnectMsg [] [] to_client
          = Some (client', shared', pending', log) /\
        bytes_of pending' = later /\
        let slot := server_find_free_slot one_player_server in
        if slot <? 0 then
          server' = one_player_server /\ last evs = Some (EvClose 14) /\
          nc_running client' = 0 /\ nc_socket client' = -1 /\
          ss_status shared' = NET_ERROR /\
          ss_status_message shared' = "Server full"%string /\
          last log = Some (EvClose 10)
        else
          p_occupied (player_at server' (Z.to_nat slot)) = true /\
          p_socket (player_at server' (Z.to_nat slot)) = 14 /\
          ~ In (EvClose 14) evs /\
          nc_player_id client' = slot /\ ss_my_id shared' = slot /\
          ss_status shared' = NET_CONNECTED /\
          nc_socket client' = 10 /\ nc_running client' = nc_running sample_client /\
          ~ In (EvClose 10) log.
Proof.
  intro to_server.
  apply (handshake_agrees_on_the_slot BigEndian LittleEndian true sample_client
           (fst (shared_state_init true)) one_player_server 10 14 0 [] [] to_server).
  - lia.
  - discriminate.
  - reflexivity.
  - repeat constructor.
  - reflexivity.
Defined.

(** ** The input, end to end *)






(** ** The command-line client *)

Lemma key_pressed_alone flags running c :
  key_pressed (flags, running) c =
    (Z.lor flags (fst (key_pressed (0, true) c)),
     running && snd (key_pressed (0, true) c)).
Proof.
  unfold key_pressed.
  repeat match goal with
         | |- context [if ?b then _ else _] => destruct b
         end;
    cbn [fst snd]; rewrite ?Z.lor_0_l, ?Z.lor_0_r, ?andb_true_r, ?andb_false_r; reflexivity.
Qed.

Lemma fold_keys keys :
  forall flags running,
    let r := fold_left key_pressed keys (flags, running) in
    (forall i, Z.testbit (fst r) i =
               Z.testbit flags i ||
               existsb (fun c => Z.testbit (fst (key_pressed (0, true) c)) i) keys) /\
    snd r = running && forallb (fun c => snd (key_pressed (0, true) c)) keys.
Proof.
  induction keys as [|c keys IH]; intros flags running; cbv zeta.
  - cbn. split; [intros i; now rewrite orb_false_r | now rewrite andb_true_r].
  - cbn [fold_left existsb forallb]. rewrite key_pressed_alone.
    destruct (IH (Z.lor flags (fst (key_pressed (0, true) c)))
                 (running && snd (key_pressed (0, true) c))) as [Hbits Hrun].
    split.
    + intros i. rewrite Hbits, Z.lor_spec. now rewrite orb_assoc.
    + rewrite Hrun. now rewrite andb_assoc.
Qed.

Lemma existsb_pointwise {A} (f g : A -> bool) l :
  (forall x, f x = g x) -> existsb f l = existsb g l.
Proof. intros H. induction l as [|x l IH]; cbn; [reflexivity | now rewrite H, IH]. Qed.

Lemma forallb_negb_existsb {A} (f g : A -> bool) l :
  (forall x, f x = negb (g x)) -> forallb f l = negb (existsb g l).
Proof.
  intros H. induction l as [|x l IH]; cbn; [reflexivity|].
  now rewrite H, IH, negb_orb.
Qed.

(** Settles a statement about the flag or verdict of one key by going
    through the cases of the [switch]. *)
Ltac by_key :=
  intros c; unfold key_pressed;
  repeat match goal with
         | |- context [?x =? ?k] => destruct (Z.eqb_spec x k); subst
         end;
  try reflexivity; try lia.

(** X19. After [client_handle_input] a flag is set exactly when one of its
    keys is among the characters read, whatever their order and number
    and whatever the flags were before: bit 0 for [w] or [W], bit 2 for
    [s] or [S], bit 1 for [a] or [A], bit 3 for [d] or [D], bit 4 for
    the space bar; no other bit is ever set. The client keeps running
    exactly when it was running and none of [q], [Q] and the escape
    character was read. *)
Theorem client_handle_input_reads_the_keys (keys : list Z) (running : bool) :
  let flags := fst (client_handle_input keys running) in
  Z.testbit flags 0 = existsb (fun c => (c =? 119) || (c =? 87)) keys /\
  Z.testbit flags 2 = existsb (fun c => (c =? 115) || (c =? 83)) keys /\
  Z.testbit flags 1 = existsb (fun c => (c =? 97) || (c =? 65)) keys /\
  Z.testbit flags 3 = existsb (fun c => (c =? 100) || (c =? 68)) keys /\
  Z.testbit flags 4 = existsb (fun c => c =? 32) keys /\
  (forall i, 5 <= i -> Z.testbit flags i = false) /\
  snd (client_handle_input keys running) =
    running && negb (existsb (fun c => (c =? 113) || (c =? 81) || (c =? 27)) keys).
Proof.
  cbv zeta. unfold client_handle_input.
  destruct (fold_keys keys 0 running) as [Hbits Hrun]. cbv zeta in Hbits, Hrun.
  repeat split.
  - rewrite Hbits. cbn [Z.testbit orb]. apply existsb_pointwise. by_key.
  - rewrite Hbits. cbn [Z.testbit orb]. apply existsb_pointwise. by_key.
  - rewrite Hbits. cbn [Z.testbit orb]. apply existsb_pointwise. by_key.
  - rewrite Hbits. cbn [Z.testbit orb]. apply existsb_pointwise. by_key.
  - rewrite Hbits. cbn [Z.testbit orb]. apply existsb_pointwise. by_key.
  - intros i Hi. rewrite Hbits, Z.bits_0. cbn [orb].
    rewrite (existsb_pointwise _ (fun _ => false)).
    + clear. induction keys as [|c keys IH]; [reflexivity | exact IH].
    + intros c. unfold key_pressed.
      repeat match goal with
             | |- context [if ?b then _ else _] => destruct b
             end;
        cbn [fst]; rewrite ?Z.lor_0_l; try apply Z.bits_0;
        (apply Z.bits_above_log2;
         [cbv; discriminate
         |match goal with
          | |- Z.log2 ?x < _ =>
              let v := eval vm_compute in (Z.log2 x) in change (Z.log2 x) with v
          end; lia]).
  - rewrite Hrun. f_equal. apply forallb_negb_existsb. by_key.
Qed.

Lemma receive_states_whole host (records : list PlayerState) :
  Forall PlayerState_typed records ->
  forall i players pending later,
    flowing pending ->
    bytes_of pending = flat_map (bytes_of_PlayerState host) records ++ later ->
    (i + length records <= length players)%nat ->
    exists pending',
      receive_states host (length records) i players pending =
        Some (true, take i players ++ records ++ drop (i + length records) players,
              pending') /\
      bytes_of pending' = later /\ flowing pending'.
Proof.
  induction 1 as [|p records Hp Hrecords IH]; intros i players pending later Hfl Hbytes Hlen.
  - exists pending. cbn [length receive_states app]. rewrite Nat.add_0_r, take_drop.
    split; [reflexivity|]. split; [exact Hbytes | exact Hfl].
  - cbn [length receive_states flat_map] in *. rewrite <- app_assoc in Hbytes.
    destruct (net_recv_all_whole true pending sizeof_PlayerState Hfl)
      as (pending1 & Hrun & Hrest & Hfl1).
    { rewrite Hbytes, length_app, length_bytes_of_PlayerState.
      cbv [sizeof_PlayerState]. lia. }
    rewrite Hrun, bind_Some. rewrite Hbytes in Hrest |- *.
    change (Z.to_nat sizeof_PlayerState) with 21%nat in *.
    rewrite take_app_length' in * by (symmetry; apply length_bytes_of_PlayerState).
    rewrite drop_app_length' in Hrest by (symmetry; apply length_bytes_of_PlayerState).
    destruct (lookup_lt_is_Some_2 players i ltac:(lia)) as [old Hold].
    rewrite Hold, bind_Some.
    assert (Hstored :
              match bytes_of_PlayerState host p with
              | [] => players
              | _ => <[i := PlayerState_of_bytes host
                              (filled (bytes_of_PlayerState host old)
                                      (bytes_of_PlayerState host p))]> players
              end = <[i := p]> players).
    { pose proof (length_bytes_of_PlayerState host p) as Hl.
      destruct (bytes_of_PlayerState host p) as [|b bs] eqn:E; [discriminate|].
      rewrite <- E. unfold filled. now rewrite PlayerState_read_back. }
    rewrite Hstored. change (sizeof_PlayerState <=? 0) with false. cbv iota.
    destruct (IH (S i) (<[i := p]> players) pending1 later Hfl1 Hrest)
      as (pending' & Hgo & Hleft & Hfl').
    { rewrite length_insert. lia. }
    exists pending'. rewrite Hgo. split; [|split; [exact Hleft | exact Hfl']].
    do 3 f_equal.
    rewrite (take_S_r _ _ p) by (apply list_lookup_insert_eq; lia).
    rewrite take_insert_ge by lia. rewrite drop_insert_lt by lia.
    rewrite <- app_assoc. cbn [app]. now rewrite Nat.add_succ_r.
Qed.

(** X20. When a snapshot has arrived whole, in whatever pieces,
    [client_receive_state] returns 1 having read the header, the fixed
    part and one player record for each announced player up to
    [MAX_CLIENTS], into the first entries of its table. The announced
    [player_count] is stored as it is, also when it exceeds
    [MAX_CLIENTS]; the length field of the header is not looked at; and
    whatever follows the player records it read, the projectile records
    of the snapshot included, stays on the socket for the next read. *)
Theorem client_receive_state_reads_players_only
    (host : byte_order) (client : ClientState) (stale_header stale_state : list Z)
    (pending : list arrival) (len : Z) (g : GameStateMsg) (records : list PlayerState)
    (later : list Z) :
  length (cl_players client) = Z.to_nat MAX_CLIENTS ->
  is_u16 len -> GameStateMsg_typed g -> Forall PlayerState_typed records ->
  length records = Z.to_nat (Z.min (gs_player_count g) MAX_CLIENTS) ->
  flowing pending ->
  bytes_of pending =
    bytes_of_MessageHeader host {| h_type := MSG_GAME_STATE; h_length := len |} ++
    bytes_of_GameStateMsg host g ++
    flat_map (bytes_of_PlayerState host) records ++ later ->
  exists client' pending',
    client_receive_state host client true stale_header stale_state pending
      = Some (client', 1, pending', []) /\
    bytes_of pending' = later /\
    cl_players client' = records ++ drop (length records) (cl_players client) /\
    cl_player_count client' = gs_player_count g /\
    cl_last_tick client' = gs_tick g /\
    cl_socket client' = cl_socket client /\
    cl_player_id client' = cl_player_id client /\
    cl_sequence client' = cl_sequence client /\
    cl_input_flags client' = cl_input_flags client.
Proof.
  intros Htable Hlen Hg Hrecords Hcount Hfl Hbytes.
  unfold client_receive_state. cbn [negb].
  destruct (net_recv_all_whole true pending sizeof_MessageHeader Hfl)
    as (pending1 & Hrun1 & Hrest1 & Hfl1).
  { rewrite Hbytes, length_app, length_bytes_of_MessageHeader.
    cbv [sizeof_MessageHeader]. lia. }
  rewrite Hrun1, bind_Some. rewrite Hbytes in Hrest1 |- *.
  change (Z.to_nat sizeof_MessageHeader) with 3%nat in *.
  rewrite take_app_length' in * by (symmetry; apply length_bytes_of_MessageHeader).
  rewrite drop_app_length' in Hrest1 by (symmetry; apply length_bytes_of_MessageHeader).
  change (sizeof_MessageHeader <=? 0) with false. cbv iota.
  rewrite header_of_filled by apply length_bytes_of_MessageHeader.
  rewrite header_roundtrip by (exact Hlen || (cbv; split; discriminate || reflexivity)).
  cbn [h_type]. rewrite Z.eqb_refl.
  destruct (net_recv_all_whole true pending1 sizeof_GameStateMsg Hfl1)
    as (pending2 & Hrun2 & Hrest2 & Hfl2).
  { rewrite Hrest1, length_app, length_bytes_of_GameStateMsg.
    cbv [sizeof_GameStateMsg]. lia. }
  rewrite Hrun2, bind_Some. rewrite Hrest1 in Hrest2 |- *.
  change (Z.to_nat sizeof_GameStateMsg) with 10%nat in *.
  rewrite take_app_length' in * by (symmetry; apply length_bytes_of_GameStateMsg).
  rewrite drop_app_length' in Hrest2 by (symmetry; apply length_bytes_of_GameStateMsg).
  change (sizeof_GameStateMsg <=? 0) with false. cbv iota.
  unfold filled. rewrite !(GameStateMsg_read_back host g _ Hg).
  rewrite <- Hcount.
  destruct (receive_states_whole host records Hrecords 0 (cl_players client) pending2
              later Hfl2 Hrest2) as (pending3 & Hgo & Hleft & _).
  { rewrite Htable, Hcount. cbn [Nat.add]. unfold MAX_CLIENTS. lia. }
  rewrite Hgo, bind_Some. cbn [take app Nat.add].
  do 2 eexists. split; [reflexivity|]. split; [exact Hleft|].
  cbn [cl_players cl_player_count cl_last_tick cl_socket cl_player_id cl_sequence
       cl_input_flags].
  repeat split; reflexivity.
Qed.

Lemma client_receive_state_reads_players_only_example :
  let record := player_state_of 0 (sample_player 10) in
  let g := {| gs_tick := 7; gs_your_sequence := 0; gs_player_count := 1;
              gs_bullet_count := 1 |} in
  let client := {| cl_socket := 10; cl_player_id := 0; cl_sequence := 0;
                   cl_players := replicate 4 (player_state_of 3 zero_player);
                   cl_player_count := 0; cl_last_tick := 0; cl_input_flags := 0 |} in
  let pending :=
    [Arrived (bytes_of_MessageHeader LittleEndian
                {| h_type := MSG_GAME_STATE; h_length := 49 |} ++
              bytes_of_GameStateMsg LittleEndian g);
     Interrupt;
     Arrived (bytes_of_PlayerState LittleEndian record ++ replicate 18 9)] in
  exists client' pending',
    client_receive_state LittleEndian client true [] [] pending
      = Some (client', 1, pending', []) /\
    bytes_of pending' = replicate 18 9 /\
    cl_players client' = [record] ++ drop (length [record]) (cl_players client) /\
    cl_player_count client' = gs_player_count g /\
    cl_last_tick client' = gs_tick g /\
    cl_socket client' = cl_socket client /\
    cl_player_id client' = cl_player_id client /\
    cl_sequence client' = cl_sequence client /\
    cl_input_flags client' = cl_input_flags client.
Proof.
  intros record g client pending.
  apply (client_receive_state_reads_players_only LittleEndian client [] [] pending 49 g
           [record] (replicate 18 9)).
  - reflexivity.
  - literal_in_range.
  - repeat split; vm_compute; first [reflexivity | discriminate].
  - apply List.Forall_cons; [|apply List.Forall_nil].
    repeat split; vm_compute; first [reflexivity | discriminate].
  - reflexivity.
  - repeat constructor.
  - vm_compute. reflexivity.
Defined.
